(** * ttymidi-sysex: the serial <-> ALSA MIDI bridge

    A shallow embedding of [src/ttymidi-sysex.c]: the decoder
    [parse_midi_command], the encoder [write_midi_action_to_serial_port] and
    the framing loop [read_midi_from_serial_port], followed by the properties
    of the specification that concern them.

    Conventions.
    - An [unsigned char] is a [Z] in 0..255; a conversion to [unsigned char]
      is written [uchar] (reduction modulo 256), a mask is [Z.land].
    - The arrays [buf], [bytes] and [sysex_data] are lists updated in place
      ([<[i:=v]>]) and read with [!!!].
    - [int] counters ([i], [bytesleft], [msglen], [sysex_len]) never leave
      0..1024 and are natural numbers.
    - The serial line is the list of the bytes it delivers, in order; every
      one-byte [read] blocks until the next byte is there.  A framer that has
      consumed all of a finite input is blocked in its next [read].
    - The two threads are described while the flag [run] is set.  The lines
      they print under [verbose] are left out; the text comment and the
      dump of super-debug mode are kept. *)

From Stdlib Require Import ZArith Lia.
From stdpp Require Import base numbers list option.

Local Open Scope Z_scope.

(** ** Constants and options *)

Definition MAX_MSG_SIZE : nat := 1024.
Definition BUF_SIZE : nat := 1024.
Global Arguments BUF_SIZE : simpl never.
Global Arguments MAX_MSG_SIZE : simpl never.

(** The fields of [arguments_t] the two directions read. *)
Record arguments_t := Arguments {
  silent : bool;
  verbose : bool;
  printonly : bool
}.

Definition uchar (x : Z) : Z := x mod 256.

(** ** ALSA sequencer events *)

Inductive snd_seq_event_type :=
| SND_SEQ_EVENT_SYSTEM          (* 0: the type of a cleared event *)
| SND_SEQ_EVENT_NOTEON
| SND_SEQ_EVENT_NOTEOFF
| SND_SEQ_EVENT_KEYPRESS
| SND_SEQ_EVENT_CONTROLLER
| SND_SEQ_EVENT_PGMCHANGE
| SND_SEQ_EVENT_CHANPRESS
| SND_SEQ_EVENT_PITCHBEND
| SND_SEQ_EVENT_SYSEX
| SND_SEQ_EVENT_QFRAME
| SND_SEQ_EVENT_SONGPOS
| SND_SEQ_EVENT_SONGSEL
| SND_SEQ_EVENT_TUNE_REQUEST
| SND_SEQ_EVENT_CLOCK
| SND_SEQ_EVENT_START
| SND_SEQ_EVENT_CONTINUE
| SND_SEQ_EVENT_STOP
| SND_SEQ_EVENT_SENSING
| SND_SEQ_EVENT_OTHER.          (* any type the bridge has no case for *)

(** [snd_seq_event_t], flattened: [channel] is the byte [data.note.channel]
    and [data.control.channel] share; [note] and [velocity] are the other
    fields of [data.note] the program reads, [param] and [value] those of
    [data.control]; [ext] is the block [data.ext.ptr] points to, whose
    length is [data.ext.len].  Only the fields of the member of the union
    that goes with the type of an event mean something; the others are
    kept at zero.  What the bridge sets alike on every event it sends
    (source port, subscribers, direct delivery) is left out. *)
Record snd_seq_event := Event {
  type : snd_seq_event_type;
  channel : Z;
  note : Z;
  velocity : Z;
  param : Z;
  value : Z;
  ext : list Z
}.

(** [snd_seq_ev_clear]: every field zero. *)
Definition snd_seq_ev_clear : snd_seq_event :=
  Event SND_SEQ_EVENT_SYSTEM 0 0 0 0 0 [].

Definition set_type (t : snd_seq_event_type) (ev : snd_seq_event) :=
  Event t (channel ev) (note ev) (velocity ev) (param ev) (value ev) (ext ev).
Definition set_value (v : Z) (ev : snd_seq_event) :=
  Event (type ev) (channel ev) (note ev) (velocity ev) (param ev) v (ext ev).

(** The setters of [<alsa/seqmid.h>]. *)
Definition set_note_event t (ev : snd_seq_event) (ch key vel : Z) :=
  Event t ch key vel (param ev) (value ev) (ext ev).
Definition snd_seq_ev_set_noteon := set_note_event SND_SEQ_EVENT_NOTEON.
Definition snd_seq_ev_set_noteoff := set_note_event SND_SEQ_EVENT_NOTEOFF.
Definition snd_seq_ev_set_keypress := set_note_event SND_SEQ_EVENT_KEYPRESS.
Definition snd_seq_ev_set_controller (ev : snd_seq_event) (ch cc val : Z) :=
  Event SND_SEQ_EVENT_CONTROLLER ch (note ev) (velocity ev) cc val (ext ev).
Definition set_control_value t (ev : snd_seq_event) (ch val : Z) :=
  Event t ch (note ev) (velocity ev) (param ev) val (ext ev).
Definition snd_seq_ev_set_pgmchange := set_control_value SND_SEQ_EVENT_PGMCHANGE.
Definition snd_seq_ev_set_chanpress := set_control_value SND_SEQ_EVENT_CHANPRESS.
Definition snd_seq_ev_set_pitchbend := set_control_value SND_SEQ_EVENT_PITCHBEND.
Definition snd_seq_ev_set_sysex (ev : snd_seq_event) (datalen : nat) (data : list Z) :=
  Event SND_SEQ_EVENT_SYSEX (channel ev) (note ev) (velocity ev) (param ev)
        (value ev) (take datalen data).

(** ** Serial to ALSA: [parse_midi_command]

    The event the function hands to [snd_seq_event_output_direct]; it does
    so on every path, the two [default] cases included (the event is then
    the cleared one). *)
Definition parse_midi_command (buf : list Z) (buflen : nat) : snd_seq_event :=
  let ev := snd_seq_ev_clear in
  let operation := Z.land (buf !!! 0%nat) 0xF0 in
  let channel := Z.land (buf !!! 0%nat) 0x0F in
  let param1 := Z.land (buf !!! 1%nat) 0xFF in
  let param2 := Z.land (buf !!! 2%nat) 0xFF in
  match operation with
  | 0x90 => snd_seq_ev_set_noteon ev channel param1 param2
  | 0x80 => snd_seq_ev_set_noteoff ev channel param1 param2
  | 0xA0 => snd_seq_ev_set_keypress ev channel param1 param2
  | 0xB0 => snd_seq_ev_set_controller ev channel param1 param2
  | 0xC0 => snd_seq_ev_set_pgmchange ev channel param1
  | 0xD0 => snd_seq_ev_set_chanpress ev channel param1
  | 0xE0 =>
      let int_param1 := Z.land param1 0x7F + Z.shiftl (Z.land param2 0x7F) 7 in
      snd_seq_ev_set_pitchbend ev channel (int_param1 - 8192)
  | 0xF0 =>
      match channel with
      | 0x0 => snd_seq_ev_set_sysex ev buflen buf
      | 0x1 => set_type SND_SEQ_EVENT_QFRAME (set_value param1 ev)
      | 0x2 =>
          let int_param1 := Z.land param1 0x7F + Z.shiftl (Z.land param2 0x7F) 7 in
          set_type SND_SEQ_EVENT_SONGPOS (set_value int_param1 ev)
      | 0x3 => set_type SND_SEQ_EVENT_SONGSEL (set_value param1 ev)
      | 0x6 => set_type SND_SEQ_EVENT_TUNE_REQUEST ev
      | 0x8 => set_type SND_SEQ_EVENT_CLOCK ev
      | 0xA => set_type SND_SEQ_EVENT_START ev
      | 0xB => set_type SND_SEQ_EVENT_CONTINUE ev
      | 0xC => set_type SND_SEQ_EVENT_STOP ev
      | 0xE => set_type SND_SEQ_EVENT_SENSING ev
      | _ => ev
      end
  | _ => ev
  end.

(** ** Serial to ALSA: the framing loop of [read_midi_from_serial_port] *)

(** The [read] the thread is blocked in, with the locals live there. *)
Inductive read_site :=
| FastForward                       (* the do-while before the main loop *)
| PrintOnly                         (* the read of super-debug mode *)
| Align (i bytesleft : nat)         (* the read of [while (i < bytesleft)] *)
| TextLen                           (* the length byte of a text comment *)
| TextBody (msglen due : nat) (msg : list Z).  (* [read(serial, msg, msglen)] *)

Record framer := Framer { buf : list Z; site : read_site }.

(** What the thread does that is visible outside it. *)
Inductive action :=
| Parse (buf : list Z) (buflen : nat)   (* the call [parse_midi_command(seq, port_out_id, buf, i)] *)
| Text (msglen : nat) (msg : list Z)    (* the line "Serial  FF Text len = ..." *)
| Hex (b : Z).                          (* the byte super-debug mode prints *)

(** The events the sink receives: one per call of [parse_midi_command]. *)
Definition sink (a : action) : list snd_seq_event :=
  match a with
  | Parse b n => [parse_midi_command b n]
  | _ => []
  end.
Definition sink_events (tr : list action) : list snd_seq_event := tr ≫= sink.

Section Framing.

Variable args : arguments_t.

(** How many bytes a [read] of [n > 0] bytes returns (at least one, at
    most [n]: the line is in raw mode with VMIN = 1). *)
Variable delivered : nat -> nat.

Definition returned (n : nat) : nat := Nat.max 1 (Nat.min n (delivered n)).

(** Top of [while (run)]: [i = 1], [bytesleft = BUF_SIZE - 1], and the
    inner loop is entered since [1 < BUF_SIZE - 1]. *)
Definition loop_top (b : list Z) : framer :=
  Framer b (Align 1 (BUF_SIZE - 1)).

(** After [read(serial, msg, msglen)]: the print unless [silent]. *)
Definition text_done (b : list Z) (msglen : nat) (msg : list Z)
  : framer * list action :=
  (loop_top b, if silent args then [] else [Text msglen msg]).

(** After the inner loop: the text-comment test, else the decoder. *)
Definition after_align (b : list Z) (i : nat) : framer * list action :=
  if bool_decide (b !!! 0%nat = 0xFF ∧ b !!! 1%nat = 0x00 ∧ b !!! 2%nat = 0x00)
  then (Framer b TextLen, [])
  else (loop_top b, [Parse b i]).

(** The test [while (i < bytesleft)]. *)
Definition align_test (b : list Z) (i bytesleft : nat) : framer * list action :=
  if bool_decide (i < bytesleft)%nat
  then (Framer b (Align i bytesleft), [])
  else after_align b i.

(** [bytesleft] once the status byte [s] is in [buf[0]]. *)
Definition status_bytesleft (s : Z) (bytesleft : nat) : nat :=
  if bool_decide (s = 0xF1 ∨ s = 0xF3 ∨ s = 0xF5) then 1%nat
  else if bool_decide (0xF4 ≤ s ∨ 0xF6 ≤ s ∨ (0xF8 ≤ s ∧ s ≤ 0xFE)) then 0%nat
  else if bool_decide (s ≠ 0xF0) then 3%nat
  else bytesleft.

(** [i] once a data byte is in [buf[i]], [s] being [buf[0]]. *)
Definition data_i (s : Z) (i : nat) : nat :=
  if bool_decide (s = 0xF0) then (i + 1)%nat
  else if bool_decide (i = 2%nat) then 3%nat
  else if bool_decide (Z.land s 0xF0 = 0xC0 ∨ Z.land s 0xF0 = 0xD0) then 3%nat
  else 2%nat.

(** The body of the inner loop, from its [read] to the next test. *)
Definition align_body (b : list Z) (i bytesleft : nat) (c : Z)
  : framer * list action :=
  let b := <[i := Z.land c 0xFF]> b in
  if bool_decide (Z.shiftr (b !!! i) 7 ≠ 0) then
    if bool_decide (b !!! i = 0xF7 ∧ b !!! 0%nat = 0xF0) then
      after_align b (i + 1)
    else
      let b := <[0%nat := b !!! i]> b in
      align_test b 1 (status_bytesleft (b !!! 0%nat) bytesleft)
  else
    align_test b (data_i (b !!! 0%nat) i) bytesleft.

(** One byte [c] arrives at the read the thread is blocked in. *)
Definition step (st : framer) (c : Z) : framer * list action :=
  let b := buf st in
  match site st with
  | FastForward =>
      let b := <[0%nat := Z.land c 0xFF]> b in
      if bool_decide (Z.shiftr (b !!! 0%nat) 7 = 0)
      then (Framer b FastForward, [])
      else (loop_top b, [])
  | PrintOnly =>
      (Framer (<[0%nat := c]> b) PrintOnly, [Hex (Z.land c 0xFF)])
  | Align i bytesleft => align_body b i bytesleft c
  | TextLen =>
      let b := <[0%nat := Z.land c 0xFF]> b in
      let msglen := Z.to_nat (b !!! 0%nat) in
      let msglen := if bool_decide (MAX_MSG_SIZE - 1 < msglen)%nat
                    then (MAX_MSG_SIZE - 1)%nat else msglen in
      if bool_decide (msglen = 0%nat) then text_done b msglen []
      else (Framer b (TextBody msglen (returned msglen) []), [])
  | TextBody msglen due msg =>
      let msg := msg ++ [c] in
      if bool_decide (due ≤ 1)%nat then text_done b msglen msg
      else (Framer b (TextBody msglen (due - 1) msg), [])
  end.

(** The thread on a finite stretch of input. *)
Fixpoint run (st : framer) (input : list Z) : framer * list action :=
  match input with
  | [] => (st, [])
  | c :: input =>
      let '(st, out) := step st c in
      let '(st, out') := run st input in
      (st, out ++ out')
  end.

(** The thread from its start; [stack] is what the array [buf] holds
    before the first read (it is not initialised). *)
Definition start (stack : list Z) : framer :=
  Framer stack (if printonly args then PrintOnly else FastForward).

Definition read_midi_from_serial_port (stack input : list Z) : framer * list action :=
  run (start stack) input.

End Framing.

(** ** ALSA to serial: [write_midi_action_to_serial_port] *)

(** The locals that live across the iterations of the do-while. *)
Record writer := Writer {
  bytes : list Z;         (* unsigned char bytes[3] *)
  sysex_data : list Z;    (* unsigned char sysex_data[256] *)
  sysex_len : nat
}.

(** The locals on entry; [stack] is what [sysex_data] holds then (it is
    not initialised). *)
Definition locals (stack : list Z) : writer :=
  Writer [0x00; 0x00; 0xFF] stack 0.

Definition set_bytes (b : list Z) (w : writer) : writer :=
  Writer b (sysex_data w) (sysex_len w).

(** An assignment [a[i] = v]; outside the array it is undefined behaviour,
    which the model reports as [None]. *)
Definition store (a : list Z) (i : nat) (v : Z) : option (list Z) :=
  if bool_decide (i < length a)%nat then Some (<[i := v]> a) else None.

(** The copy loop of the sysex case: [sysex_data[i] = val & 0xFF] for
    [i = 0 .. len - 1], with no test of [i] against the array. *)
Fixpoint copy_sysex (src : list Z) (i : nat) (dst : list Z) : option (list Z) :=
  match src with
  | [] => Some dst
  | val :: src =>
      dst ← store dst i (Z.land val 0xFF);
      copy_sysex src (i + 1) dst
  end.

(** [bytes[0] = s; bytes[1] = d1; bytes[2] = d2], each converted to
    [unsigned char]. *)
Definition bytes012 (s d1 d2 : Z) (w : writer) : writer :=
  set_bytes (<[2%nat := uchar d2]> (<[1%nat := uchar d1]> (<[0%nat := uchar s]> (bytes w)))) w.
Definition bytes01 (s d1 : Z) (w : writer) : writer :=
  set_bytes (<[1%nat := uchar d1]> (<[0%nat := uchar s]> (bytes w))) w.
Definition bytes0 (s : Z) (w : writer) : writer :=
  set_bytes (<[0%nat := uchar s]> (bytes w)) w.

(** The [switch (ev->type)]. *)
Definition switch_type (w : writer) (ev : snd_seq_event) : option writer :=
  match type ev with
  | SND_SEQ_EVENT_NOTEOFF =>
      Some (bytes012 (0x80 + channel ev) (note ev) (velocity ev) w)
  | SND_SEQ_EVENT_NOTEON =>
      Some (bytes012 (0x90 + channel ev) (note ev) (velocity ev) w)
  | SND_SEQ_EVENT_KEYPRESS =>
      Some (bytes012 (0xA0 + channel ev) (note ev) (velocity ev) w)
  | SND_SEQ_EVENT_CONTROLLER =>
      Some (bytes012 (0xB0 + channel ev) (param ev) (value ev) w)
  | SND_SEQ_EVENT_PGMCHANGE =>
      Some (bytes01 (0xC0 + channel ev) (value ev) w)
  | SND_SEQ_EVENT_CHANPRESS =>
      Some (bytes01 (0xD0 + channel ev) (value ev) w)
  | SND_SEQ_EVENT_PITCHBEND =>
      let v := value ev + 8192 in
      Some (bytes012 (0xE0 + uchar (channel ev)) (Z.land v 0x7F) (Z.shiftr v 7) w)
  | SND_SEQ_EVENT_SYSEX =>
      data ← copy_sysex (ext ev) 0 (sysex_data w);
      Some (Writer (bytes w) data (length (ext ev)))
  | SND_SEQ_EVENT_QFRAME => Some (bytes01 0xF1 (value ev) w)
  | SND_SEQ_EVENT_SONGPOS =>
      let v := value ev + 8192 in
      Some (bytes012 0xF2 (Z.land v 0x7F) (Z.shiftr v 7) w)
  | SND_SEQ_EVENT_SONGSEL => Some (bytes01 0xF3 (value ev) w)
  | SND_SEQ_EVENT_TUNE_REQUEST => Some (bytes0 0xF6 w)
  | SND_SEQ_EVENT_CLOCK => Some (bytes0 0xF8 w)
  | SND_SEQ_EVENT_START => Some (bytes0 0xFA w)
  | SND_SEQ_EVENT_CONTINUE => Some (bytes0 0xFB w)
  | SND_SEQ_EVENT_STOP => Some (bytes0 0xFC w)
  | SND_SEQ_EVENT_SENSING => Some (bytes0 0xFE w)
  | _ => Some w
  end.

(** What follows the switch: the bytes of the one [write], or [[]] when
    there is none. *)
Definition write_stage (w : writer) : writer * list Z :=
  if bool_decide (0 < sysex_len w)%nat then
    (w, take (sysex_len w) (sysex_data w))
  else
    let b := bytes w in
    if bool_decide (b !!! 0%nat ≠ 0x00) then
      let b := <[1%nat := Z.land (b !!! 1%nat) 0x7F]> b in
      if bool_decide (b !!! 2%nat = 0xFF ∨ b !!! 0%nat = 0xF1
                      ∨ b !!! 0%nat = 0xF3 ∨ b !!! 0%nat = 0xF5) then
        (set_bytes b w, take 2 b)
      else if bool_decide (b !!! 0%nat = 0xF4 ∨ b !!! 0%nat = 0xF6
                           ∨ 0xF8 ≤ b !!! 0%nat) then
        (set_bytes b w, take 1 b)
      else
        let b := <[2%nat := Z.land (b !!! 2%nat) 0x7F]> b in
        (set_bytes b w, take 3 b)
    else (w, []).

(** One iteration of the do-while. *)
Definition write_event (w : writer) (ev : snd_seq_event) : option (writer * list Z) :=
  w ← switch_type w ev; Some (write_stage w).

(** The do-while over the events the queue holds: what each iteration
    writes, in order. *)
Fixpoint drain (w : writer) (evs : list snd_seq_event) : option (list (list Z)) :=
  match evs with
  | [] => Some []
  | ev :: evs =>
      '(w, out) ← write_event w ev;
      outs ← drain w evs;
      Some (out :: outs)
  end.

(** The function: [ev] is the event the first [snd_seq_event_input]
    returns, [pending] those [snd_seq_event_input_pending] still reports. *)
Definition write_midi_action_to_serial_port
    (stack : list Z) (ev : snd_seq_event) (pending : list snd_seq_event)
  : option (list (list Z)) :=
  drain (locals stack) (ev :: pending).

(** ** The events the bridge exchanges with the sequencer *)

Definition note_event t (ch key vel : Z) : snd_seq_event := Event t ch key vel 0 0 [].
Definition control_event t (ch cc val : Z) : snd_seq_event := Event t ch 0 0 cc val [].
Definition plain_event t : snd_seq_event := Event t 0 0 0 0 0 [].
Definition sysex_event (data : list Z) : snd_seq_event :=
  Event SND_SEQ_EVENT_SYSEX 0 0 0 0 0 data.

(** Encoding one event with fresh locals, and decoding a written frame
    that lies at the start of the decoder's buffer ([rest] is what the
    buffer holds behind it). *)
Definition encode (stack : list Z) (ev : snd_seq_event) : option (list Z) :=
  snd <$> write_event (locals stack) ev.
Definition decode (wire rest : list Z) : snd_seq_event :=
  parse_midi_command (wire ++ rest) (length wire).

(** ** Vocabulary of the statements *)

Definition data_byte (c : Z) : Prop := 0 ≤ c < 128.
Definition status_byte (c : Z) : Prop := 128 ≤ c < 256.

(** The status bytes of the channel voice messages, and those among them
    the inner loop gives one data byte. *)
Definition channel_status (s : Z) : Prop := 0x80 ≤ s ≤ 0xEF.
Definition one_data_status (s : Z) : Prop :=
  Z.land s 0xF0 = 0xC0 ∨ Z.land s 0xF0 = 0xD0.

(** The status nibble and the two values the switch puts in [bytes[1]]
    and [bytes[2]] for the channel voice events that have two data bytes. *)
Definition two_data_bytes (ev : snd_seq_event) : option (Z * Z * Z) :=
  match type ev with
  | SND_SEQ_EVENT_NOTEOFF => Some (0x80, note ev, velocity ev)
  | SND_SEQ_EVENT_NOTEON => Some (0x90, note ev, velocity ev)
  | SND_SEQ_EVENT_KEYPRESS => Some (0xA0, note ev, velocity ev)
  | SND_SEQ_EVENT_CONTROLLER => Some (0xB0, param ev, value ev)
  | SND_SEQ_EVENT_PITCHBEND =>
      Some (0xE0, Z.land (value ev + 8192) 0x7F, Z.shiftr (value ev + 8192) 7)
  | _ => None
  end.

(** The same for program change and channel pressure. *)
Definition one_data_bytes (ev : snd_seq_event) : option (Z * Z) :=
  match type ev with
  | SND_SEQ_EVENT_PGMCHANGE => Some (0xC0, value ev)
  | SND_SEQ_EVENT_CHANPRESS => Some (0xD0, value ev)
  | _ => None
  end.

(** Locals as the do-while can meet them: the three bytes are there and
    no sysex event has been read since the function was entered. *)
Definition no_sysex_yet (w : writer) : Prop :=
  length (bytes w) = 3%nat ∧ sysex_len w = 0%nat.

(** The events within the ranges of MIDI, song position left out: channel
    0..15, data bytes 0..127, pitch bend -8192..8191, a sysex block with
    its 0xF0 and 0xF7 that fits [sysex_data]. *)
Inductive in_range : snd_seq_event → Prop :=
| range_note t ch key vel :
    t = SND_SEQ_EVENT_NOTEOFF ∨ t = SND_SEQ_EVENT_NOTEON ∨ t = SND_SEQ_EVENT_KEYPRESS →
    0 ≤ ch ≤ 15 → data_byte key → data_byte vel →
    in_range (note_event t ch key vel)
| range_controller ch cc val :
    0 ≤ ch ≤ 15 → data_byte cc → data_byte val →
    in_range (control_event SND_SEQ_EVENT_CONTROLLER ch cc val)
| range_one_data t ch val :
    t = SND_SEQ_EVENT_PGMCHANGE ∨ t = SND_SEQ_EVENT_CHANPRESS →
    0 ≤ ch ≤ 15 → data_byte val →
    in_range (control_event t ch 0 val)
| range_pitchbend ch val :
    0 ≤ ch ≤ 15 → -8192 ≤ val < 8192 →
    in_range (control_event SND_SEQ_EVENT_PITCHBEND ch 0 val)
| range_system_data t val :
    t = SND_SEQ_EVENT_QFRAME ∨ t = SND_SEQ_EVENT_SONGSEL → data_byte val →
    in_range (control_event t 0 0 val)
| range_plain t :
    t = SND_SEQ_EVENT_TUNE_REQUEST ∨ t = SND_SEQ_EVENT_CLOCK ∨ t = SND_SEQ_EVENT_START
    ∨ t = SND_SEQ_EVENT_CONTINUE ∨ t = SND_SEQ_EVENT_STOP ∨ t = SND_SEQ_EVENT_SENSING →
    in_range (plain_event t)
| range_sysex payload :
    Forall data_byte payload → (length payload + 2 ≤ 256)%nat →
    in_range (sysex_event (0xF0 :: payload ++ [0xF7])).

(** The options of a bridge that is not in super-debug mode. *)
Definition bridging (silent verbose : bool) : arguments_t :=
  Arguments silent verbose false.

(** The text comment "hello" on the wire. *)
Definition hello_comment : list Z :=
  [0xFF; 0x00; 0x00; 0x05; 0x68; 0x65; 0x6C; 0x6C; 0x6F].

(** A call of the decoder whose frame starts with a status byte. *)
Definition starts_with_status (a : action) : Prop :=
  match a with
  | Parse b _ => status_byte (b !!! 0%nat)
  | _ => True
  end.

(** The invariant of the framing loop: [buf] keeps its size, the inner
    loop reads into [buf[1 .. BUF_SIZE - 2]] only, and [buf[0]] is a
    status byte except right after a text comment, when the inner loop
    cannot end before a status byte arrives. *)
Definition framer_inv (st : framer) : Prop :=
  length (buf st) = BUF_SIZE ∧
  match site st with
  | Align i bytesleft =>
      (1 ≤ i < bytesleft)%nat ∧ (bytesleft ≤ BUF_SIZE - 1)%nat ∧
      (status_byte (buf st !!! 0%nat)
       ∨ (0 ≤ buf st !!! 0%nat < 128 ∧ bytesleft = (BUF_SIZE - 1)%nat ∧ (i ≤ 3)%nat))
  | TextBody _ _ _ => 0 ≤ buf st !!! 0%nat < 256
  | _ => True
  end.

(** ** The rest of the program

    [read_midi_from_alsa], the thread that calls the encoder, and the part
    of the command line that fills the two names of [arguments_t]. *)

(** One turn of [while (run)] in [read_midi_from_alsa]: [poll] times out,
    or the queue holds events and the encoder is called; [stack] is what
    its array [sysex_data] holds on that call. *)
Inductive wake_up :=
| Timeout
| Ready (stack : list Z) (ev : snd_seq_event) (pending : list snd_seq_event).

(** What the thread writes to the serial port, call after call. *)
Fixpoint read_midi_from_alsa (polls : list wake_up) : option (list (list Z)) :=
  match polls with
  | [] => Some []
  | Timeout :: polls => read_midi_from_alsa polls
  | Ready stack ev pending :: polls =>
      out ← write_midi_action_to_serial_port stack ev pending;
      outs ← read_midi_from_alsa polls;
      Some (out ++ outs)
  end.

Definition MAX_DEV_STR_LEN : nat := 32.

(** [strncpy(dest, src, n)], [src] being the characters of a C string
    before its NUL: [n] of them at most, NULs up to [n] when they are
    fewer, and no NUL when they are [n] or more. *)
Definition strncpy (dest src : list Z) (n : nat) : list Z :=
  take n (src ++ replicate n 0) ++ drop n dest.

(** The C string a char array holds; [None] when the array has no NUL and
    a reader runs off its end. *)
Fixpoint c_string (a : list Z) : option (list Z) :=
  match a with
  | [] => None
  | c :: a => if bool_decide (c = 0) then Some [] else (c ::.) <$> c_string a
  end.

Inductive speed_t := B1200 | B2400 | B4800 | B9600 | B19200 | B38400 | B57600 | B115200.

(** [arguments_t] in full: the three flags and what [main] reads. *)
Record program_arguments := ProgramArguments {
  flags : arguments_t;
  serialdevice : list Z;      (* char serialdevice[MAX_DEV_STR_LEN] *)
  baudrate : speed_t;
  name : list Z               (* char name[MAX_DEV_STR_LEN] *)
}.

(** "/dev/ttyUSB0" and "ttymidi". *)
Definition serialdevice_temp : list Z :=
  [0x2F; 0x64; 0x65; 0x76; 0x2F; 0x74; 0x74; 0x79; 0x55; 0x53; 0x42; 0x30].
Definition name_tmp : list Z := [0x74; 0x74; 0x79; 0x6D; 0x69; 0x64; 0x69].

Definition arg_set_defaults (a : program_arguments) : program_arguments :=
  ProgramArguments (Arguments false false false)
    (strncpy (serialdevice a) serialdevice_temp MAX_DEV_STR_LEN)
    B115200
    (strncpy (name a) name_tmp MAX_DEV_STR_LEN).

(** What a call of [parse_opt] ends in: it returns, or the program exits. *)
Inductive parse_result :=
| Returns (code : Z) (a : program_arguments)
| Exits (status : Z).

Definition ARGP_KEY_ARG : Z := 0.
Definition ARGP_KEY_END : Z := 0x1000001.
Definition ARGP_ERR_UNKNOWN : Z := 7.   (* E2BIG *)
Definition EINVAL : Z := 22.
Definition ERANGE : Z := 34.

Definition set_flags (f : arguments_t) (a : program_arguments) : program_arguments :=
  ProgramArguments f (serialdevice a) (baudrate a) (name a).
Definition set_baudrate (b : speed_t) (a : program_arguments) : program_arguments :=
  ProgramArguments (flags a) (serialdevice a) b (name a).

Section CommandLine.

(** [strtol(arg, NULL, 0)], converted to [int]. *)
Variable strtol : list Z -> Z.

(** [parse_opt]; [arg] is [None] for a NULL pointer. *)
Definition parse_opt (key : Z) (arg : option (list Z)) (a : program_arguments)
  : parse_result :=
  let f := flags a in
  match key with
  | 0x70 (* 'p' *) => Returns 0 (set_flags (Arguments (silent f) (verbose f) true) a)
  | 0x71 (* 'q' *) => Returns 0 (set_flags (Arguments true (verbose f) (printonly f)) a)
  | 0x76 (* 'v' *) => Returns 0 (set_flags (Arguments (silent f) true (printonly f)) a)
  | 0x73 (* 's' *) =>
      match arg with
      | None => Returns 0 a
      | Some arg =>
          Returns 0 (ProgramArguments (flags a)
                       (strncpy (serialdevice a) arg MAX_DEV_STR_LEN)
                       (baudrate a) (name a))
      end
  | 0x6E (* 'n' *) =>
      match arg with
      | None => Returns 0 a
      | Some arg =>
          Returns 0 (ProgramArguments (flags a) (serialdevice a) (baudrate a)
                       (strncpy (name a) arg MAX_DEV_STR_LEN))
      end
  | 0x62 (* 'b' *) =>
      match arg with
      | None => Returns 0 a
      | Some arg =>
          let baud_temp := strtol arg in
          if bool_decide (baud_temp ≠ EINVAL ∧ baud_temp ≠ ERANGE) then
            match baud_temp with
            | 1200 => Returns 0 (set_baudrate B1200 a)
            | 2400 => Returns 0 (set_baudrate B2400 a)
            | 4800 => Returns 0 (set_baudrate B4800 a)
            | 9600 => Returns 0 (set_baudrate B9600 a)
            | 19200 => Returns 0 (set_baudrate B19200 a)
            | 38400 => Returns 0 (set_baudrate B38400 a)
            | 57600 => Returns 0 (set_baudrate B57600 a)
            | 115200 => Returns 0 (set_baudrate B115200 a)
            | _ => Exits 1
            end
          else Returns 0 a
      end
  | _ =>
      if bool_decide (key = ARGP_KEY_ARG ∨ key = ARGP_KEY_END) then Returns 0 a
      else Returns ARGP_ERR_UNKNOWN a
  end.

End CommandLine.

(** ** Vocabulary of the further properties *)

(** The options of a bridge in super-debug mode. *)
Definition dumping (silent verbose : bool) : arguments_t :=
  Arguments silent verbose true.

(** The status byte the switch of the encoder gives the events that
    carry no data. *)
Definition plain_status (t : snd_seq_event_type) : option Z :=
  match t with
  | SND_SEQ_EVENT_TUNE_REQUEST => Some 0xF6
  | SND_SEQ_EVENT_CLOCK => Some 0xF8
  | SND_SEQ_EVENT_START => Some 0xFA
  | SND_SEQ_EVENT_CONTINUE => Some 0xFB
  | SND_SEQ_EVENT_STOP => Some 0xFC
  | SND_SEQ_EVENT_SENSING => Some 0xFE
  | _ => None
  end.

(** The types that fall to the [default] of that switch. *)
Definition unhandled_type (t : snd_seq_event_type) : Prop :=
  t = SND_SEQ_EVENT_SYSTEM ∨ t = SND_SEQ_EVENT_OTHER.

(** A displayed text that fits [msg[MAX_MSG_SIZE]], its closing NUL
    [msg[msglen]] included. *)
Definition text_fits_msg (a : action) : Prop :=
  match a with
  | Text msglen msg => (msglen < MAX_MSG_SIZE ∧ msglen ≤ 255 ∧ length msg ≤ msglen)%nat
  | _ => True
  end.

Definition text_inv (st : framer) : Prop :=
  match site st with
  | TextBody msglen due msg =>
      (msglen ≤ 255 ∧ 1 ≤ due ∧ length msg + due ≤ msglen)%nat
  | _ => True
  end.

(** A call of the decoder on a channel voice frame whose data bytes are
    data bytes. *)
Definition channel_frame_ok (a : action) : Prop :=
  match a with
  | Parse b _ =>
      channel_status (b !!! 0%nat) →
      data_byte (b !!! 1%nat)
      ∧ (¬ one_data_status (b !!! 0%nat) → data_byte (b !!! 2%nat))
  | _ => True
  end.

(** What the framing loop keeps for that: [bytesleft] is [BUF_SIZE - 1]
    (no status byte read in this turn, or only 0xF0) or 3, and with 3 the
    first data byte of a channel voice frame is in [buf[1]] when [i = 2]. *)
Definition channel_inv (st : framer) : Prop :=
  match site st with
  | Align i bytesleft =>
      (bytesleft = (BUF_SIZE - 1)%nat ∧ (buf st !!! 0%nat ≠ 0xF0 → (i ≤ 3)%nat))
      ∨ (bytesleft = 3%nat
         ∧ (channel_status (buf st !!! 0%nat) → i = 2%nat → data_byte (buf st !!! 1%nat)))
  | _ => True
  end.

(** A channel voice event whose data fields are within 0..127. *)
Definition event_data_ok (ev : snd_seq_event) : Prop :=
  match type ev with
  | SND_SEQ_EVENT_NOTEON | SND_SEQ_EVENT_NOTEOFF | SND_SEQ_EVENT_KEYPRESS =>
      data_byte (note ev) ∧ data_byte (velocity ev)
  | SND_SEQ_EVENT_CONTROLLER => data_byte (param ev) ∧ data_byte (value ev)
  | SND_SEQ_EVENT_PGMCHANGE | SND_SEQ_EVENT_CHANPRESS => data_byte (value ev)
  | _ => True
  end.

(** The reads at which [bytesleft] is [BUF_SIZE - 1]: that of the
    fast-forward loop, whose status byte starts the first turn of the main
    loop, and those of the inner loop as long as no status byte but 0xF0
    has been read in this turn of the main loop. *)
Definition whole_buffer_left (st : framer) : Prop :=
  site st = FastForward ∨ ∃ i, site st = Align i (BUF_SIZE - 1).

(** The events of a call that are no sysex events. *)
Definition no_sysex_event (evs : list snd_seq_event) : Prop :=
  Forall (λ ev, type ev ≠ SND_SEQ_EVENT_SYSEX) evs.

(** The bytes of a text that a [printf] with [%s] shows as they are. *)
Definition shown_as_it_is (text : list Z) : Prop :=
  Forall (λ c, 0 < c < 256) text.

(** A sysex event the sink can be sent: 0xF0, data bytes that fit
    [buf] with it, and 0xF7 or nothing. *)
Definition sysex_event_ok (ev : snd_seq_event) : Prop :=
  type ev = SND_SEQ_EVENT_SYSEX →
  ∃ ds, Forall data_byte ds ∧ (length ds ≤ BUF_SIZE - 2)%nat
        ∧ (ext ev = 0xF0 :: ds ∨ ext ev = 0xF0 :: ds ++ [0xF7]).

(** The same of a call of the decoder, and what the framing loop keeps
    for it: behind a 0xF0 in [buf[0]], the bytes below [i] are data
    bytes. *)
Definition sysex_frame_ok (a : action) : Prop :=
  match a with
  | Parse b n =>
      b !!! 0%nat = 0xF0 →
      (1 ≤ n ≤ BUF_SIZE - 1)%nat
      ∧ (Forall data_byte (take (n - 1) (drop 1 b))
         ∨ ((2 ≤ n)%nat ∧ Forall data_byte (take (n - 2) (drop 1 b))
            ∧ drop 1 b !! (n - 2)%nat = Some 0xF7))
  | _ => True
  end.

Definition sysex_inv (st : framer) : Prop :=
  match site st with
  | Align i _ =>
      buf st !!! 0%nat = 0xF0 → Forall data_byte (take (i - 1) (drop 1 (buf st)))
  | _ => True
  end.

(** The events a wake-up finds in the queue, and the wake-ups that find
    one event, within the ranges of MIDI, with [sysex_data] of its size. *)
Definition queued (p : wake_up) : list snd_seq_event :=
  match p with
  | Timeout => []
  | Ready _ ev pending => ev :: pending
  end.

Definition one_event_in_range (p : wake_up) : Prop :=
  match p with
  | Timeout => True
  | Ready stack ev pending => length stack = 256%nat ∧ in_range ev ∧ pending = []
  end.

(** * Properties *)

(** ** Bytes *)

Lemma land_FF c : Z.land c 0xFF = c mod 256.
Proof. change 0xFF with (Z.ones 8). by rewrite Z.land_ones. Qed.

Lemma land_7F c : Z.land c 0x7F = c mod 128.
Proof. change 0x7F with (Z.ones 7). by rewrite Z.land_ones. Qed.

Lemma shiftr_7 c : Z.shiftr c 7 = c / 128.
Proof. by rewrite Z.shiftr_div_pow2. Qed.

Lemma land_FF_byte c : 0 ≤ c < 256 → Z.land c 0xFF = c.
Proof. intros. rewrite land_FF. by apply Z.mod_small. Qed.

Lemma land_FF_range c : 0 ≤ Z.land c 0xFF < 256.
Proof. rewrite land_FF. by apply Z.mod_pos_bound. Qed.

Lemma status_test c : 0 ≤ c < 256 → Z.shiftr c 7 ≠ 0 ↔ status_byte c.
Proof. intros. rewrite shiftr_7. unfold status_byte. Z.div_mod_to_equations. lia. Qed.

Lemma byte_cases (P : Z → Prop) :
  Forall P (Z.of_nat <$> seq 0 256) → ∀ c, 0 ≤ c < 256 → P c.
Proof.
  intros HP c Hc. rewrite Forall_forall in HP. apply HP.
  apply list_elem_of_In, list_elem_of_fmap. exists (Z.to_nat c). split; [lia|].
  apply elem_of_seq. lia.
Qed.

Lemma nibbles c : 0 ≤ c < 256 → Z.land c 0xF0 = 16 * (c / 16) ∧ Z.land c 0x0F = c mod 16.
Proof.
  revert c. apply byte_cases. apply (bool_decide_unpack _). by vm_compute.
Qed.

Lemma status_byte_bit7 c : status_byte c ↔ 0 ≤ c < 256 ∧ Z.testbit c 7 = true.
Proof.
  unfold status_byte.
  assert (∀ x, 0 ≤ x < 256 → (128 ≤ x ↔ Z.testbit x 7 = true)) as H.
  { apply (byte_cases (λ x, 128 ≤ x ↔ Z.testbit x 7 = true)).
    apply (bool_decide_unpack _). by vm_compute. }
  split.
  - intros Hc. split; [lia|]. apply H; lia.
  - intros [Hc Hb]. split; [|lia]. by apply H.
Qed.

(** ** Arrays *)

Lemma list_inserts_take_drop (k l : list Z) i :
  (i + length k ≤ length l)%nat →
  list_inserts i k l = take i l ++ k ++ drop (i + length k) l.
Proof.
  intros Hl.
  rewrite <-(take_drop i l) at 1.
  rewrite <-(take_drop (length k) (drop i l)) at 1.
  assert (length (take i l) = i) as Hi by (rewrite length_take; lia).
  rewrite <-(Nat.add_0_r i) at 1. rewrite <-Hi at 1.
  rewrite list_inserts_app_r, list_inserts_0_r, drop_drop; [done|].
  rewrite length_take, length_drop. lia.
Qed.

Lemma take_list_inserts (k l : list Z) i :
  (i + length k ≤ length l)%nat →
  take (i + length k) (list_inserts i k l) = take i l ++ k.
Proof.
  intros Hl. rewrite list_inserts_take_drop by done.
  assert (length (take i l) = i) as Hi by (rewrite length_take; lia).
  rewrite app_assoc, take_app_length'; [done|]. rewrite length_app. lia.
Qed.

(** ** The decoder *)

(** But for a sysex block, the decoder reads [buf[0 .. 2]] only. *)
Lemma parse_midi_command_prefix b n :
  Z.land (b !!! 0%nat) 0xF0 ≠ 0xF0 ∨ Z.land (b !!! 0%nat) 0x0F ≠ 0 →
  parse_midi_command b n = parse_midi_command [b !!! 0%nat; b !!! 1%nat; b !!! 2%nat] 3.
Proof.
  intros Hs. unfold parse_midi_command.
  change ([b !!! 0%nat; b !!! 1%nat; b !!! 2%nat] !!! 0%nat) with (b !!! 0%nat).
  change ([b !!! 0%nat; b !!! 1%nat; b !!! 2%nat] !!! 1%nat) with (b !!! 1%nat).
  change ([b !!! 0%nat; b !!! 1%nat; b !!! 2%nat] !!! 2%nat) with (b !!! 2%nat).
  destruct (Z.land (b !!! 0%nat) 0xF0) as [|p|p]; [done| |done].
  do 8 (try (destruct p as [p|p|]; try done)).
  destruct (Z.land (b !!! 0%nat) 0x0F) as [|q|q]; [|done|done].
  destruct Hs; done.
Qed.

Lemma sink_events_cons_parse b n tr :
  sink_events (Parse b n :: tr) = parse_midi_command b n :: sink_events tr.
Proof. reflexivity. Qed.

Lemma sink_events_nil : sink_events [] = [].
Proof. reflexivity. Qed.

(** Three bytes in the first places of the buffer. *)
Lemma lookup_frame3 (b : list Z) s d1 d2 :
  (3 ≤ length b)%nat →
  let b' := <[2%nat := d2]> (<[1%nat := d1]> (<[0%nat := s]> b)) in
  b' !!! 0%nat = s ∧ b' !!! 1%nat = d1 ∧ b' !!! 2%nat = d2.
Proof.
  intros Hl. simpl. split; [|split].
  - rewrite !list_lookup_total_insert_ne by lia.
    by rewrite list_lookup_total_insert_eq by lia.
  - rewrite list_lookup_total_insert_ne by lia.
    by rewrite list_lookup_total_insert_eq by (rewrite length_insert; lia).
  - by rewrite list_lookup_total_insert_eq by (rewrite !length_insert; lia).
Qed.

Lemma parse_midi_command_sysex b n :
  b !!! 0%nat = 0xF0 → parse_midi_command b n = sysex_event (take n b).
Proof. intros H0. unfold parse_midi_command. by rewrite H0. Qed.

(** ** The framing loop keeps its invariant *)

Section FramingFacts.

Variable args : arguments_t.
Variable delivered : nat -> nat.


Lemma run_app st input input' :
  run args delivered st (input ++ input') =
    ((run args delivered (run args delivered st input).1 input').1,
     (run args delivered st input).2
     ++ (run args delivered (run args delivered st input).1 input').2).
Proof.
  revert st. induction input as [|c input IH]; intros st; simpl.
  - by destruct (run args delivered st input').
  - destruct (step args delivered st c) as [st1 o1]. rewrite IH.
    destruct (run args delivered st1 input) as [st2 o2]. simpl.
    by rewrite app_assoc.
Qed.

Lemma run_cons st c input :
  run args delivered st (c :: input) =
    ((run args delivered (step args delivered st c).1 input).1,
     (step args delivered st c).2 ++ (run args delivered (step args delivered st c).1 input).2).
Proof.
  simpl. destruct (step args delivered st c) as [st1 o1]. simpl.
  destruct (run args delivered st1 input); reflexivity.
Qed.

Lemma loop_top_inv b :
  length b = BUF_SIZE → 0 ≤ b !!! 0%nat < 256 → framer_inv (loop_top b).
Proof.
  intros Hl Hb. split; [done|]. simpl. unfold BUF_SIZE. split; [lia|]. split; [lia|].
  unfold status_byte. destruct (decide (128 ≤ b !!! 0%nat)); [left|right]; lia.
Qed.

Lemma after_align_inv b i :
  length b = BUF_SIZE → status_byte (b !!! 0%nat) →
  framer_inv (after_align b i).1 ∧ Forall starts_with_status (after_align b i).2.
Proof.
  intros Hl Hb. unfold after_align. case_bool_decide; simpl.
  - split; [by split|constructor].
  - split; [|constructor; [exact Hb|constructor]].
    apply loop_top_inv; [done|]. unfold status_byte in Hb. lia.
Qed.

Lemma align_test_inv b i bytesleft :
  length b = BUF_SIZE → (1 ≤ i)%nat → (bytesleft ≤ BUF_SIZE - 1)%nat →
  status_byte (b !!! 0%nat)
  ∨ (0 ≤ b !!! 0%nat < 128 ∧ (i < bytesleft)%nat ∧ bytesleft = (BUF_SIZE - 1)%nat ∧ (i ≤ 3)%nat) →
  framer_inv (align_test b i bytesleft).1
  ∧ Forall starts_with_status (align_test b i bytesleft).2.
Proof.
  intros Hl Hi Hbl Hb. unfold align_test. case_bool_decide; simpl.
  - split; [|constructor]. split; [done|]. simpl. split; [lia|]. split; [done|].
    destruct Hb as [?|(?&?&?&?)]; [by left|by right].
  - destruct Hb as [?|(?&?&?&?)]; [|lia]. by apply after_align_inv.
Qed.

Lemma step_inv st c :
  framer_inv st →
  framer_inv (step args delivered st c).1 ∧ Forall starts_with_status (step args delivered st c).2.
Proof.
  destruct st as [b s]. intros [Hl Hs]. simpl in Hl, Hs.
  pose proof (land_FF_range c) as Hc.
  assert (0 < length b)%nat as Hpos by (rewrite Hl; unfold BUF_SIZE; lia).
  unfold step; simpl. destruct s as [| |i bl| |msglen due msg].
  - (* FastForward *)
    rewrite list_lookup_total_insert_eq by done.
    case_bool_decide; simpl.
    + split; [|constructor]. split; [|done]. simpl. by rewrite length_insert.
    + split; [|constructor]. apply loop_top_inv.
      * by rewrite length_insert.
      * by rewrite list_lookup_total_insert_eq.
  - (* PrintOnly *)
    split; [|repeat constructor]. split; [|done]. simpl. by rewrite length_insert.
  - (* Align *)
    destruct Hs as (Hi & Hbl & Hs). unfold align_body.
    assert (i < length b)%nat as Hin by (unfold BUF_SIZE in *; lia).
    set (b1 := <[i:=Z.land c 255]> b).
    assert (length b1 = BUF_SIZE) as Hl1 by (subst b1; by rewrite length_insert).
    assert (b1 !!! 0%nat = b !!! 0%nat) as H0
      by (subst b1; apply list_lookup_total_insert_ne; lia).
    assert (b1 !!! i = Z.land c 255) as Hi1
      by (subst b1; apply list_lookup_total_insert_eq; lia).
    rewrite Hi1, H0.
    case_bool_decide as Hst.
    + (* a status byte *)
      apply status_test in Hst; [|done].
      case_bool_decide as Hend.
      * apply after_align_inv; [done|]. rewrite H0. destruct Hend as [_ ->].
        unfold status_byte; lia.
      * set (b2 := <[0%nat:=Z.land c 255]> b1).
        assert (length b2 = BUF_SIZE) as Hl2 by (subst b2; by rewrite length_insert).
        assert (b2 !!! 0%nat = Z.land c 255) as H02
          by (subst b2; apply list_lookup_total_insert_eq; lia).
        rewrite H02. apply align_test_inv; [done|lia| |left; rewrite H02; exact Hst].
        unfold status_bytesleft. repeat case_bool_decide; unfold BUF_SIZE; lia.
    + (* a data byte *)
      assert (¬ status_byte (Z.land c 255)) as Hd
        by (intros Hd; apply status_test in Hd; done).
      unfold status_byte in Hd.
      unfold data_i. case_bool_decide as Hx.
      * apply align_test_inv; [done|lia|done|]. left. rewrite H0, Hx.
        unfold status_byte; lia.
      * assert (∀ j, (2 ≤ j ≤ 3)%nat →
                  framer_inv (align_test b1 j bl).1
                  ∧ Forall starts_with_status (align_test b1 j bl).2) as Hj.
        { intros j Hj. apply align_test_inv; [done|lia|done|]. rewrite H0.
          destruct Hs as [Hs|(?&?&?)]; [by left|right].
          unfold BUF_SIZE in *. lia. }
        repeat case_bool_decide; apply Hj; lia.
  - (* TextLen *)
    rewrite list_lookup_total_insert_eq by done.
    assert (length (<[0%nat:=Z.land c 255]> b) = BUF_SIZE) as Hl1
      by (by rewrite length_insert).
    assert (framer_inv (loop_top (<[0%nat:=Z.land c 255]> b))) as Htop.
    { apply loop_top_inv; [done|]. by rewrite list_lookup_total_insert_eq. }
    case_bool_decide.
    + unfold text_done. split; [done|]. destruct (silent args); by repeat constructor.
    + split; [|constructor]. split; [done|]. simpl.
      by rewrite list_lookup_total_insert_eq.
  - (* TextBody *)
    case_bool_decide; [|split; [by split|constructor]].
    unfold text_done. split; [by apply loop_top_inv|].
    destruct (silent args); by repeat constructor.
Qed.

Lemma run_inv st input :
  framer_inv st →
  framer_inv (run args delivered st input).1
  ∧ Forall starts_with_status (run args delivered st input).2.
Proof.
  revert st. induction input as [|c input IH]; intros st Hst; simpl.
  - by split.
  - destruct (step_inv st c Hst) as [H1 H2].
    destruct (step args delivered st c) as [st1 o1]. simpl in H1, H2.
    destruct (IH st1 H1) as [H3 H4].
    destruct (run args delivered st1 input) as [st2 o2]. simpl in *.
    split; [done|]. by apply Forall_app.
Qed.

Lemma start_inv stack : length stack = BUF_SIZE → framer_inv (start args stack).
Proof. intros Hl. split; [done|]. simpl. by destruct (printonly args). Qed.

(** *** One step, by the kind of byte that arrives *)

Lemma step_fast_forward_status b c :
  (0 < length b)%nat → status_byte c →
  step args delivered (Framer b FastForward) c = (loop_top (<[0%nat := c]> b), []).
Proof.
  intros Hl Hc. unfold step; simpl.
  rewrite land_FF_byte by (unfold status_byte in Hc; lia).
  rewrite list_lookup_total_insert_eq by done.
  rewrite bool_decide_eq_false_2; [done|].
  intros Hz. apply (status_test c) in Hc; [done|]. unfold status_byte in Hc; lia.
Qed.

Lemma step_align_status b i bl c :
  (1 ≤ i < length b)%nat → status_byte c → ¬ (c = 0xF7 ∧ b !!! 0%nat = 0xF0) →
  step args delivered (Framer b (Align i bl)) c =
    align_test (<[0%nat := c]> (<[i := c]> b)) 1 (status_bytesleft c bl).
Proof.
  intros Hi Hc Hend. unfold step, align_body; simpl.
  assert (0 ≤ c < 256) as Hr by (unfold status_byte in Hc; lia).
  rewrite land_FF_byte by done.
  rewrite list_lookup_total_insert_eq by lia.
  rewrite list_lookup_total_insert_ne by lia.
  rewrite bool_decide_eq_true_2 by (by apply status_test).
  rewrite bool_decide_eq_false_2 by done.
  rewrite list_lookup_total_insert_eq; [done|]. rewrite length_insert. lia.
Qed.

Lemma step_align_end_of_sysex b i bl :
  (1 ≤ i < length b)%nat → b !!! 0%nat = 0xF0 →
  step args delivered (Framer b (Align i bl)) 0xF7 = after_align (<[i := 0xF7]> b) (i + 1).
Proof.
  intros Hi H0. unfold step, align_body; simpl.
  rewrite list_lookup_total_insert_eq by lia.
  rewrite list_lookup_total_insert_ne by lia. rewrite H0. done.
Qed.

Lemma step_align_data b i bl c :
  (1 ≤ i < length b)%nat → data_byte c →
  step args delivered (Framer b (Align i bl)) c =
    align_test (<[i := c]> b) (data_i (b !!! 0%nat) i) bl.
Proof.
  intros Hi Hc. unfold step, align_body; simpl.
  assert (0 ≤ c < 256) as Hr by (unfold data_byte in Hc; lia).
  rewrite land_FF_byte by done.
  rewrite list_lookup_total_insert_eq by lia.
  rewrite list_lookup_total_insert_ne by lia.
  rewrite bool_decide_eq_false_2; [done|].
  intros Hs. apply status_test in Hs; [|done].
  unfold status_byte, data_byte in *. lia.
Qed.

(** *** Data bytes that follow no status byte of their own

    At the top of the loop [bytesleft] is [BUF_SIZE - 1] whatever [buf[0]]
    is; unless [buf[0]] is 0xF0, [i] then stays below 4 and the inner
    loop goes on reading. *)
Lemma data_bytes_swallowed ds : ∀ b i,
  (1 ≤ i ≤ 3)%nat → (4 ≤ length b)%nat → b !!! 0%nat ≠ 0xF0 →
  Forall data_byte ds →
  ∃ b' i', run args delivered (Framer b (Align i (BUF_SIZE - 1))) ds
           = (Framer b' (Align i' (BUF_SIZE - 1)), [])
         ∧ (1 ≤ i' ≤ 3)%nat ∧ length b' = length b ∧ b' !!! 0%nat = b !!! 0%nat.
Proof.
  induction ds as [|d ds IH]; intros b i Hi Hl H0 Hds.
  - exists b, i. by simpl.
  - inversion Hds as [|? ? Hd Hds']; subst. rewrite run_cons.
    rewrite step_align_data by (done || lia).
    assert (2 ≤ data_i (b !!! 0%nat) i ≤ 3)%nat as Hn
      by (unfold data_i; repeat case_bool_decide; done || lia).
    unfold align_test. rewrite bool_decide_eq_true_2 by (unfold BUF_SIZE; lia).
    destruct (IH (<[i:=d]> b) (data_i (b !!! 0%nat) i)) as (b' & i' & Hrun & Hi' & Hl' & H0').
    + lia.
    + by rewrite length_insert.
    + by rewrite list_lookup_total_insert_ne by lia.
    + done.
    + exists b', i'. cbn [fst snd]. rewrite Hrun. cbn [fst snd app].
      split; [done|]. split; [done|].
      rewrite Hl', length_insert, H0'. split; [done|].
      by rewrite list_lookup_total_insert_ne by lia.
Qed.

(** *** Frames that start with their own status byte *)

Lemma after_align_parse b i :
  b !!! 0%nat ≠ 0xFF → after_align b i = (loop_top b, [Parse b i]).
Proof.
  intros H0. unfold after_align. rewrite bool_decide_eq_false_2; [done|].
  by intros [? _].
Qed.

Lemma status_bytesleft_channel s bl : channel_status s → status_bytesleft s bl = 3%nat.
Proof.
  unfold channel_status, status_bytesleft. intros Hs.
  repeat case_bool_decide; done || lia.
Qed.

Lemma align_test_more b i bl :
  (i < bl)%nat → align_test b i bl = (Framer b (Align i bl), []).
Proof. intros. unfold align_test. by rewrite bool_decide_eq_true_2. Qed.

Lemma align_test_done b i bl :
  (bl ≤ i)%nat → b !!! 0%nat ≠ 0xFF → align_test b i bl = (loop_top b, [Parse b i]).
Proof.
  intros. unfold align_test. rewrite bool_decide_eq_false_2 by lia.
  by apply after_align_parse.
Qed.

Lemma data_i_first s : s ≠ 0xF0 → ¬ one_data_status s → data_i s 1 = 2%nat.
Proof.
  intros. unfold data_i. rewrite bool_decide_eq_false_2 by done.
  rewrite bool_decide_eq_false_2 by lia. by rewrite bool_decide_eq_false_2.
Qed.

Lemma data_i_only s : s ≠ 0xF0 → one_data_status s → data_i s 1 = 3%nat.
Proof.
  intros. unfold data_i. rewrite bool_decide_eq_false_2 by done.
  rewrite bool_decide_eq_false_2 by lia. by rewrite bool_decide_eq_true_2.
Qed.

Lemma data_i_second s : s ≠ 0xF0 → data_i s 2 = 3%nat.
Proof.
  intros. unfold data_i. rewrite bool_decide_eq_false_2 by done.
  by rewrite bool_decide_eq_true_2.
Qed.

(** A channel voice frame with two data bytes, from any read of the
    inner loop. *)
Lemma channel_frame_3 b i bl s d1 d2 :
  (1 ≤ i < length b)%nat → (3 ≤ length b)%nat →
  channel_status s → ¬ one_data_status s → data_byte d1 → data_byte d2 →
  run args delivered (Framer b (Align i bl)) [s; d1; d2] =
    let b' := <[2%nat := d2]> (<[1%nat := d1]> (<[0%nat := s]> (<[i := s]> b))) in
    (loop_top b', [Parse b' 3]).
Proof.
  intros Hi Hl Hs Hone Hd1 Hd2. unfold channel_status in Hs.
  set (b1 := <[0%nat := s]> (<[i := s]> b)).
  set (b2 := <[1%nat := d1]> b1). set (b3 := <[2%nat := d2]> b2).
  assert (length b1 = length b) as Hl1 by (subst b1; by rewrite !length_insert).
  assert (length b2 = length b) as Hl2 by (subst b2; by rewrite length_insert).
  assert (b1 !!! 0%nat = s) as H1
    by (subst b1; rewrite list_lookup_total_insert_eq; [done|rewrite length_insert; lia]).
  assert (b2 !!! 0%nat = s) as H2
    by (subst b2; by rewrite list_lookup_total_insert_ne by lia).
  assert (b3 !!! 0%nat = s) as H3
    by (subst b3; by rewrite list_lookup_total_insert_ne by lia).
  rewrite run_cons, step_align_status by (done || unfold status_byte; lia).
  fold b1. rewrite status_bytesleft_channel by done.
  rewrite align_test_more by lia. cbn [fst snd app].
  rewrite run_cons, step_align_data by (done || lia). fold b2.
  rewrite H1, data_i_first by (done || lia).
  rewrite align_test_more by lia. cbn [fst snd app].
  rewrite run_cons, step_align_data by (done || lia). fold b3.
  rewrite H2, data_i_second by lia.
  rewrite align_test_done by lia. reflexivity.
Qed.

(** A program change or channel pressure frame: one data byte. *)
Lemma channel_frame_2 b i bl s d1 :
  (1 ≤ i < length b)%nat → (3 ≤ length b)%nat →
  channel_status s → one_data_status s → data_byte d1 →
  run args delivered (Framer b (Align i bl)) [s; d1] =
    let b' := <[1%nat := d1]> (<[0%nat := s]> (<[i := s]> b)) in
    (loop_top b', [Parse b' 3]).
Proof.
  intros Hi Hl Hs Hone Hd1. unfold channel_status in Hs.
  set (b1 := <[0%nat := s]> (<[i := s]> b)). set (b2 := <[1%nat := d1]> b1).
  assert (length b1 = length b) as Hl1 by (subst b1; by rewrite !length_insert).
  assert (b1 !!! 0%nat = s) as H1
    by (subst b1; rewrite list_lookup_total_insert_eq; [done|rewrite length_insert; lia]).
  assert (b2 !!! 0%nat = s) as H2
    by (subst b2; by rewrite list_lookup_total_insert_ne by lia).
  rewrite run_cons, step_align_status by (done || unfold status_byte; lia).
  fold b1. rewrite status_bytesleft_channel by done.
  rewrite align_test_more by lia. cbn [fst snd app].
  rewrite run_cons, step_align_data by (done || lia). fold b2.
  rewrite H1, data_i_only by (done || lia).
  rewrite align_test_done by lia. reflexivity.
Qed.

(** The status bytes whose [bytesleft] is 0 or 1 end the inner loop at
    once: the decoder is called with [buflen = 1], on what [buf[1]]
    and [buf[2]] happen to hold. *)
Lemma step_immediate b i bl s :
  (1 ≤ i < length b)%nat →
  s = 0xF1 ∨ s = 0xF3 ∨ 0xF4 ≤ s ≤ 0xFE →
  ¬ (s = 0xF7 ∧ b !!! 0%nat = 0xF0) →
  step args delivered (Framer b (Align i bl)) s =
    let b' := <[0%nat := s]> (<[i := s]> b) in
    (loop_top b', [Parse b' 1]).
Proof.
  intros Hi Hs Hend.
  rewrite step_align_status by (done || unfold status_byte; lia).
  assert (status_bytesleft s bl ≤ 1)%nat as Hbl
    by (unfold status_bytesleft; repeat case_bool_decide; lia).
  rewrite align_test_done; [done|done|].
  rewrite list_lookup_total_insert_eq by (rewrite length_insert; lia). lia.
Qed.

(** *** Sysex blocks *)

(** 0xF0 leaves [bytesleft] as it is: the block is collected up to
    [BUF_SIZE - 1] bytes when the status byte comes first in an
    iteration of the outer loop. *)
Lemma sysex_start b i :
  (1 ≤ i < length b)%nat →
  step args delivered (Framer b (Align i (BUF_SIZE - 1))) 0xF0 =
    (Framer (<[0%nat := 0xF0]> (<[i := 0xF0]> b)) (Align 1 (BUF_SIZE - 1)), []).
Proof.
  intros Hi. rewrite step_align_status by (done || unfold status_byte; lia).
  assert (status_bytesleft 0xF0 (BUF_SIZE - 1) = (BUF_SIZE - 1)%nat) as -> by done.
  by rewrite align_test_more by (unfold BUF_SIZE; lia).
Qed.

Lemma sysex_collect ds : ∀ b i,
  b !!! 0%nat = 0xF0 → (1 ≤ i)%nat → (i + length ds < BUF_SIZE - 1)%nat →
  length b = BUF_SIZE → Forall data_byte ds →
  run args delivered (Framer b (Align i (BUF_SIZE - 1))) ds =
    (Framer (list_inserts i ds b) (Align (i + length ds) (BUF_SIZE - 1)), []).
Proof.
  induction ds as [|d ds IH]; intros b i H0 Hi Hn Hl Hds.
  - simpl. by rewrite Nat.add_0_r.
  - inversion Hds as [|? ? Hd Hds']; subst. simpl length in Hn.
    rewrite run_cons, step_align_data by (done || unfold BUF_SIZE in *; lia).
    rewrite H0. assert (data_i 0xF0 i = (i + 1)%nat) as -> by done.
    rewrite align_test_more by lia. cbn [fst snd app].
    rewrite IH; [|by rewrite list_lookup_total_insert_ne by lia|lia|lia
                 |by rewrite length_insert|done].
    rewrite Nat.add_1_r. simpl length. rewrite Nat.add_succ_r. simpl.
    by rewrite list_insert_inserts_lt by lia.
Qed.

(** The block that fills the buffer: its last data byte ends the inner
    loop, and the decoder is called on the [BUF_SIZE - 1] bytes. *)
Lemma sysex_full ds d b i :
  b !!! 0%nat = 0xF0 → (1 ≤ i)%nat → (i + length ds + 1 = BUF_SIZE - 1)%nat →
  length b = BUF_SIZE → Forall data_byte ds → data_byte d →
  run args delivered (Framer b (Align i (BUF_SIZE - 1))) (ds ++ [d]) =
    let b' := list_inserts i (ds ++ [d]) b in
    (loop_top b', [Parse b' (BUF_SIZE - 1)]).
Proof.
  intros H0 Hi Hn Hl Hds Hd.
  rewrite run_app, sysex_collect by (done || lia). cbn [fst snd app].
  rewrite run_cons, step_align_data
    by (rewrite ?length_inserts; done || unfold BUF_SIZE in *; lia).
  rewrite list_lookup_total_inserts_lt, H0 by lia.
  assert (data_i 0xF0 (i + length ds) = (BUF_SIZE - 1)%nat) as ->
    by (unfold data_i; rewrite bool_decide_eq_true_2 by done; lia).
  rewrite align_test_done; [| lia |].
  - simpl. rewrite list_inserts_app_l. simpl. by rewrite Nat.add_comm.
  - rewrite list_lookup_total_insert_ne, list_lookup_total_inserts_lt, H0 by lia. lia.
Qed.

(** The block that ends in 0xF7 before the buffer is full. *)
Lemma sysex_whole ds b i :
  b !!! 0%nat = 0xF0 → (1 ≤ i)%nat → (i + length ds < BUF_SIZE - 1)%nat →
  length b = BUF_SIZE → Forall data_byte ds →
  run args delivered (Framer b (Align i (BUF_SIZE - 1))) (ds ++ [0xF7]) =
    let b' := list_inserts i (ds ++ [0xF7]) b in
    (loop_top b', [Parse b' (i + length ds + 1)]).
Proof.
  intros H0 Hi Hn Hl Hds.
  rewrite run_app, sysex_collect by (done || lia). cbn [fst snd app].
  rewrite run_cons, step_align_end_of_sysex;
    [|rewrite length_inserts; unfold BUF_SIZE in *; lia
     |by rewrite list_lookup_total_inserts_lt by lia].
  rewrite after_align_parse.
  - simpl. rewrite list_inserts_app_l. simpl. by rewrite (Nat.add_comm (length ds) i).
  - rewrite list_lookup_total_insert_ne, list_lookup_total_inserts_lt, H0 by lia. lia.
Qed.

End FramingFacts.

(** * The claims about the serial to ALSA direction *)

Section Inbound.

Variables (silent verbose : bool) (delivered : nat -> nat).

(** What [buf] holds once the fast-forward loop has let the status
    byte [s] through. *)
Lemma fast_forward_status stack s input :
  (0 < length stack)%nat → status_byte s →
  read_midi_from_serial_port (bridging silent verbose) delivered stack (s :: input) =
    run (bridging silent verbose) delivered (loop_top (<[0%nat := s]> stack)) input.
Proof.
  intros Hl Hs. unfold read_midi_from_serial_port. rewrite run_cons.
  change (start (bridging silent verbose) stack) with (Framer stack FastForward).
  rewrite step_fast_forward_status by done. cbn [fst snd app].
  by destruct (run _ _ _ _).
Qed.

(** The sink gets the decoder's reading of a channel voice frame that
    starts with its own status byte, whatever the read it arrives at. *)
Lemma channel_frame_decoded b i bl s d1 d2 :
  (1 ≤ i < length b)%nat → (3 ≤ length b)%nat →
  channel_status s → ¬ one_data_status s → data_byte d1 → data_byte d2 →
  sink_events (run (bridging silent verbose) delivered (Framer b (Align i bl)) [s; d1; d2]).2
    = [parse_midi_command [s; d1; d2] 3].
Proof.
  intros Hi Hl Hs Hone Hd1 Hd2. rewrite channel_frame_3 by done.
  cbn [snd]. rewrite sink_events_cons_parse, sink_events_nil. f_equal.
  destruct (lookup_frame3 (<[i := s]> b) s d1 d2) as (H0 & H1 & H2);
    [by rewrite length_insert|].
  rewrite parse_midi_command_prefix; rewrite H0; [by rewrite H1, H2|].
  left. unfold channel_status in Hs.
  destruct (nibbles s) as [-> _]; [lia|]. Z.div_mod_to_equations. lia.
Qed.

(** C3 (code defect).  From its start the thread does not deliver the
    note-on [90 40 7F]: the fast-forward loop takes the status byte, the
    main loop then starts with [bytesleft = BUF_SIZE - 1], and after the
    second data byte ([i = 3]) it goes on reading.  Neither the three
    bytes nor any data bytes behind them make it call the decoder, and
    when a channel voice frame with its own status byte comes the sink
    gets that frame alone: the first note-on is lost. *)
Theorem first_frame_not_delivered stack ds s d1 d2 :
  length stack = BUF_SIZE → Forall data_byte ds →
  channel_status s → ¬ one_data_status s → data_byte d1 → data_byte d2 →
  (read_midi_from_serial_port (bridging silent verbose) delivered stack
     ([0x90; 0x40; 0x7F] ++ ds)).2 = []
  ∧ sink_events (read_midi_from_serial_port (bridging silent verbose) delivered stack
                   (([0x90; 0x40; 0x7F] ++ ds) ++ [s; d1; d2])).2
    = [parse_midi_command [s; d1; d2] 3].
Proof.
  intros Hl Hds Hs Hone Hd1 Hd2. unfold BUF_SIZE in Hl. cbn [app].
  rewrite !fast_forward_status by (unfold status_byte; lia).
  destruct (data_bytes_swallowed (bridging silent verbose) delivered
              ([0x40; 0x7F] ++ ds) (<[0%nat := 0x90]> stack) 1)
    as (b' & i' & Hrun & Hi' & Hl' & _).
  - lia.
  - rewrite length_insert. lia.
  - rewrite list_lookup_total_insert_eq by lia. lia.
  - repeat constructor; unfold data_byte; try lia. done.
  - unfold loop_top. cbn [app] in Hrun. rewrite length_insert in Hl'. split.
    + by rewrite Hrun.
    + change (0x40 :: 0x7F :: ds ++ [s; d1; d2])
        with ((0x40 :: 0x7F :: ds) ++ [s; d1; d2]).
      rewrite run_app, Hrun. cbn [fst snd app].
      apply channel_frame_decoded; done || lia.
Qed.

(** What C3 misses at the start holds once the thread has let a status
    byte through: the note-on that follows with its own status byte is
    delivered. *)
Lemma note_on_delivered_after_a_status_byte stack s0 :
  length stack = BUF_SIZE → status_byte s0 →
  sink_events (read_midi_from_serial_port (bridging silent verbose) delivered stack
                 (s0 :: [0x90; 0x40; 0x7F])).2
    = [note_event SND_SEQ_EVENT_NOTEON 0 0x40 0x7F].
Proof.
  intros Hl Hs. unfold BUF_SIZE in Hl.
  rewrite fast_forward_status by (done || lia). unfold loop_top.
  rewrite channel_frame_decoded; [done|rewrite length_insert; lia..| | | |];
    unfold channel_status, one_data_status, data_byte; try lia.
  by intros [?|?].
Qed.

(** C5 (code defect).  The text comment [FF 00 00 05 "hello"] is not
    displayed.  From the start the thread makes no call and prints
    nothing; at the top of the loop (after a delivered frame) 0xFF ends
    the inner loop at once with [buf[1] = 0xFF], the text test fails,
    the decoder is called on the frame that starts with 0xFF and the
    sink gets the cleared event; the bytes behind are read as data. *)
Theorem text_comment_not_displayed b :
  length b = BUF_SIZE →
  (read_midi_from_serial_port (bridging silent verbose) delivered b hello_comment).2 = []
  ∧ (run (bridging silent verbose) delivered (loop_top b) hello_comment).2
      = [Parse (<[0%nat := 0xFF]> (<[1%nat := 0xFF]> b)) 1]
  ∧ sink_events (run (bridging silent verbose) delivered (loop_top b) hello_comment).2
      = [snd_seq_ev_clear].
Proof.
  intros Hl. unfold BUF_SIZE in Hl. unfold hello_comment.
  assert (Forall data_byte [0x00; 0x00; 0x05; 0x68; 0x65; 0x6C; 0x6C; 0x6F]) as Hds
    by (repeat constructor; unfold data_byte; lia).
  split.
  - rewrite fast_forward_status by (unfold status_byte; lia).
    destruct (data_bytes_swallowed (bridging silent verbose) delivered
                [0x00; 0x00; 0x05; 0x68; 0x65; 0x6C; 0x6C; 0x6F]
                (<[0%nat := 0xFF]> b) 1) as (b' & i' & Hrun & _).
    + lia.
    + rewrite length_insert. lia.
    + rewrite list_lookup_total_insert_eq by lia. lia.
    + done.
    + unfold loop_top. by rewrite Hrun.
  - set (b1 := <[0%nat := 0xFF]> (<[1%nat := 0xFF]> b)).
    assert (length b1 = length b) as Hl1 by (subst b1; by rewrite !length_insert).
    assert (b1 !!! 0%nat = 0xFF) as H0
      by (subst b1; rewrite list_lookup_total_insert_eq; [done|rewrite length_insert; lia]).
    assert (b1 !!! 1%nat = 0xFF) as H1.
    { subst b1. rewrite list_lookup_total_insert_ne by lia.
      by rewrite list_lookup_total_insert_eq by lia. }
    assert (step (bridging silent verbose) delivered (loop_top b) 0xFF
            = (loop_top b1, [Parse b1 1])) as Hstep.
    { unfold loop_top at 1.
      rewrite step_align_status by (unfold status_byte; lia). fold b1.
      assert (status_bytesleft 0xFF (BUF_SIZE - 1) = 0%nat) as -> by done.
      unfold align_test. rewrite bool_decide_eq_false_2 by lia.
      unfold after_align. rewrite bool_decide_eq_false_2; [done|].
      rewrite H1. intros (_ & ? & _). lia. }
    destruct (data_bytes_swallowed (bridging silent verbose) delivered
                [0x00; 0x00; 0x05; 0x68; 0x65; 0x6C; 0x6C; 0x6F] b1 1)
      as (b' & i' & Hrun & _); [lia|lia|lia|done|].
    rewrite run_cons, Hstep. cbn [fst snd]. unfold loop_top at 1 2. rewrite Hrun.
    cbn [fst snd app]. split; [done|].
    rewrite sink_events_cons_parse, sink_events_nil. f_equal.
    rewrite parse_midi_command_prefix; rewrite H0; [done|by right].
Qed.

(** The same bytes at any other read of the inner loop: either the
    decoder is called on the frame that starts with 0xFF, or the text
    test finds two stale zeros in [buf[1]] and [buf[2]], the first 0x00
    is taken for the length and the text is empty.  "hello" is never
    displayed. *)
Lemma text_comment_at_any_read b i bl :
  (1 ≤ i < length b)%nat → (4 ≤ length b)%nat →
  let out := (run (bridging silent verbose) delivered (Framer b (Align i bl))
                hello_comment).2 in
  out = [Parse (<[0%nat := 0xFF]> (<[i := 0xFF]> b)) 1] ∨ out = [] ∨ out = [Text 0 []].
Proof.
  intros Hi Hl. unfold hello_comment.
  set (b1 := <[0%nat := 0xFF]> (<[i := 0xFF]> b)).
  assert (length b1 = length b) as Hl1 by (subst b1; by rewrite !length_insert).
  assert (b1 !!! 0%nat = 0xFF) as H0
    by (subst b1; rewrite list_lookup_total_insert_eq; [done|rewrite length_insert; lia]).
  assert (step (bridging silent verbose) delivered (Framer b (Align i bl)) 0xFF
          = after_align b1 1) as Hstep.
  { rewrite step_align_status; [|done|unfold status_byte; lia|intros [? _]; lia].
    fold b1. assert (status_bytesleft 0xFF bl = 0%nat) as -> by done.
    unfold align_test. by rewrite bool_decide_eq_false_2 by lia. }
  cbn zeta. rewrite run_cons, Hstep. unfold after_align. case_bool_decide as Htext.
  - (* the text branch: the next byte, 0x00, is the length *)
    cbn [fst snd app]. right.
    set (b2 := <[0%nat := 0x00]> b1).
    assert (step (bridging silent verbose) delivered (Framer b1 TextLen) 0x00
            = text_done (bridging silent verbose) b2 0 []) as Hlen.
    { unfold step. cbn [buf site]. change (Z.land 0 255) with 0. fold b2.
      assert (b2 !!! 0%nat = 0) as ->
        by (subst b2; apply list_lookup_total_insert_eq; lia).
      done. }
    rewrite run_cons, Hlen. unfold text_done. cbn [fst snd].
    destruct (data_bytes_swallowed (bridging silent verbose) delivered
                [0x00; 0x05; 0x68; 0x65; 0x6C; 0x6C; 0x6F] b2 1)
      as (b' & i' & Hrun & _).
    + lia.
    + subst b2. rewrite length_insert. lia.
    + subst b2. rewrite list_lookup_total_insert_eq by lia. lia.
    + repeat constructor; unfold data_byte; lia.
    + unfold loop_top. rewrite Hrun. cbn [snd]. rewrite app_nil_r.
      destruct silent; [by left|by right].
  - left. cbn [fst snd].
    destruct (data_bytes_swallowed (bridging silent verbose) delivered
                [0x00; 0x00; 0x05; 0x68; 0x65; 0x6C; 0x6C; 0x6F] b1 1)
      as (b' & i' & Hrun & _).
    + lia.
    + lia.
    + lia.
    + repeat constructor; unfold data_byte; lia.
    + unfold loop_top. by rewrite Hrun.
Qed.

(** C6 (code defect).  0xF1 and 0xF3 set [bytesleft = 1] with [i = 1],
    so the inner loop ends on the status byte itself: the decoder is
    called with [buflen = 1] before the data byte [d] is read, and the
    value of the event is what [buf[1]] held (the status byte when it
    was read at [i = 1]); [d] is then read as a stray data byte. *)
Theorem one_data_system_frame_has_no_data b i bl s d :
  (1 ≤ i < length b)%nat → s = 0xF1 ∨ s = 0xF3 → data_byte d →
  let b' := <[0%nat := s]> (<[i := s]> b) in
  step (bridging silent verbose) delivered (Framer b (Align i bl)) s
    = (loop_top b', [Parse b' 1])
  ∧ run (bridging silent verbose) delivered (Framer b (Align i bl)) [s; d]
    = (Framer (<[1%nat := d]> b') (Align 2 (BUF_SIZE - 1)), [Parse b' 1])
  ∧ parse_midi_command b' 1
    = control_event (if decide (s = 0xF1) then SND_SEQ_EVENT_QFRAME
                     else SND_SEQ_EVENT_SONGSEL) 0 0
        (if decide (i = 1%nat) then s else Z.land (b !!! 1%nat) 0xFF).
Proof.
  intros Hi Hs Hd b'.
  assert (step (bridging silent verbose) delivered (Framer b (Align i bl)) s
          = (loop_top b', [Parse b' 1])) as Hstep.
  { rewrite step_immediate; [done|done|lia|]. intros [? _]. lia. }
  assert (length b' = length b) as Hl' by (subst b'; by rewrite !length_insert).
  assert (b' !!! 0%nat = s) as H0
    by (subst b'; rewrite list_lookup_total_insert_eq; [done|rewrite length_insert; lia]).
  split; [done|]. split.
  - rewrite run_cons, Hstep. cbn [fst snd]. unfold loop_top.
    rewrite run_cons, step_align_data by (done || lia). rewrite H0.
    assert (data_i s 1 = 2%nat) as -> by (by destruct Hs as [-> | ->]).
    by rewrite align_test_more by (unfold BUF_SIZE; lia).
  - unfold parse_midi_command. rewrite H0.
    assert (b' !!! 1%nat = if decide (i = 1%nat) then s else b !!! 1%nat) as ->.
    { subst b'. rewrite list_lookup_total_insert_ne by lia.
      destruct (decide (i = 1%nat)) as [-> |].
      - by rewrite list_lookup_total_insert_eq by lia.
      - by rewrite list_lookup_total_insert_ne by lia. }
    destruct Hs as [-> | ->]; destruct (decide (i = 1%nat)); reflexivity.
Qed.

(** A sysex block of at most [BUF_SIZE - 1] bytes, 0xF0 and 0xF7
    counted, reaches the sink whole when it is the first thing on the
    line. *)
Lemma inbound_sysex_whole stack ds :
  length stack = BUF_SIZE → Forall data_byte ds → (length ds ≤ BUF_SIZE - 3)%nat →
  sink_events (read_midi_from_serial_port (bridging silent verbose) delivered stack
                 (0xF0 :: ds ++ [0xF7])).2
    = [sysex_event (0xF0 :: ds ++ [0xF7])].
Proof.
  intros Hl Hds Hn.
  rewrite fast_forward_status by (unfold BUF_SIZE in Hl; unfold status_byte; lia).
  set (b1 := <[0%nat := 0xF0]> stack).
  assert (length b1 = BUF_SIZE) as Hl1 by (subst b1; by rewrite length_insert).
  assert (b1 !!! 0%nat = 0xF0) as H0
    by (subst b1; apply list_lookup_total_insert_eq; unfold BUF_SIZE in Hl; lia).
  unfold loop_top at 1.
  rewrite sysex_whole by (done || unfold BUF_SIZE in *; lia). cbn zeta. cbn [snd].
  rewrite sink_events_cons_parse, sink_events_nil. f_equal.
  rewrite parse_midi_command_sysex by (by rewrite list_lookup_total_inserts_lt by lia).
  f_equal.
  replace (1 + length ds + 1)%nat with (1 + length (ds ++ [0xF7%Z]))%nat
    by (rewrite length_app; simpl; lia).
  rewrite take_list_inserts
    by (rewrite length_app; simpl; unfold BUF_SIZE in *; lia).
  subst b1. by destruct stack.
Qed.

(** C8.  Every call the framing loop makes to [parse_midi_command]
    passes a buffer whose first byte is a status byte (bit 7 set),
    whatever the options, the bytes on the line, the amount a bulk read
    returns and the initial contents of the buffer. *)
Theorem decoder_frames_start_with_status args stack input :
  length stack = BUF_SIZE →
  Forall starts_with_status (read_midi_from_serial_port args delivered stack input).2.
Proof.
  intros Hl. apply run_inv. by apply start_inv.
Qed.

End Inbound.

(** * The claims about the ALSA to serial direction *)

Section Outbound.

Lemma uchar_byte x : 0 ≤ x < 256 → uchar x = x.
Proof. intros. unfold uchar. by apply Z.mod_small. Qed.

(** The write that follows the switch when [bytes[0]] is the status
    byte of a channel voice message and no sysex block is held. *)
Lemma write_stage_channel w b0 b1 b2 :
  bytes w = [b0; b1; b2] → sysex_len w = 0%nat → 0x80 ≤ b0 ≤ 0xEF →
  (write_stage w).2 =
    if decide (b2 = 0xFF) then [b0; Z.land b1 0x7F]
    else [b0; Z.land b1 0x7F; Z.land b2 0x7F].
Proof.
  intros Hb Hs H0. unfold write_stage. rewrite Hs, Hb. simpl.
  rewrite bool_decide_eq_true_2 by lia.
  destruct (decide (b2 = 0xFF)) as [-> |Hne].
  - by rewrite bool_decide_eq_true_2 by (by left).
  - rewrite bool_decide_eq_false_2 by (intros [?|[?|[?|?]]]; done || lia).
    by rewrite bool_decide_eq_false_2 by (intros [?|[?|?]]; lia).
Qed.

(** The locals it leaves: the data bytes masked in place. *)
Lemma write_stage_channel_locals w b0 b1 b2 :
  bytes w = [b0; b1; b2] → sysex_len w = 0%nat → 0x80 ≤ b0 ≤ 0xEF →
  bytes (write_stage w).1 =
    [b0; Z.land b1 0x7F; if decide (b2 = 0xFF) then b2 else Z.land b2 0x7F]
  ∧ sysex_len (write_stage w).1 = 0%nat.
Proof.
  intros Hb Hs H0. unfold write_stage. rewrite Hs, Hb. simpl.
  rewrite bool_decide_eq_true_2 by lia.
  destruct (decide (b2 = 0xFF)) as [-> |Hne].
  - by rewrite bool_decide_eq_true_2 by (by left).
  - rewrite bool_decide_eq_false_2 by (intros [?|[?|[?|?]]]; done || lia).
    by rewrite bool_decide_eq_false_2 by (intros [?|[?|?]]; lia).
Qed.

Lemma switch_two_data w ev op d1 d2 x y z :
  bytes w = [x; y; z] → two_data_bytes ev = Some (op, d1, d2) →
  0 ≤ channel ev ≤ 15 →
  ∃ w', switch_type w ev = Some w'
        ∧ bytes w' = [op + channel ev; uchar d1; uchar d2]
        ∧ sysex_len w' = sysex_len w ∧ 0x80 ≤ op ≤ 0xE0.
Proof.
  intros Hb Hev Hch. unfold two_data_bytes in Hev. unfold switch_type.
  destruct (type ev); try done; injection Hev as <- <- <-;
    eexists; (split; [reflexivity|]); unfold bytes012; simpl; rewrite Hb; simpl;
    rewrite ?(uchar_byte (channel ev)) by lia;
    rewrite uchar_byte by lia; (split; [done|]); (split; [done|lia]).
Qed.

Lemma switch_one_data w ev op d1 x y z :
  bytes w = [x; y; z] → one_data_bytes ev = Some (op, d1) →
  0 ≤ channel ev ≤ 15 →
  ∃ w', switch_type w ev = Some w'
        ∧ bytes w' = [op + channel ev; uchar d1; z]
        ∧ sysex_len w' = sysex_len w ∧ 0xC0 ≤ op ≤ 0xD0.
Proof.
  intros Hb Hev Hch. unfold one_data_bytes in Hev. unfold switch_type.
  destruct (type ev); try done; injection Hev as <- <-;
    eexists; (split; [reflexivity|]); unfold bytes01; simpl; rewrite Hb; simpl;
    rewrite uchar_byte by lia; (split; [done|]); (split; [done|lia]).
Qed.

(** The write of a channel voice event of a kind that has two data
    bytes, when no sysex block is held. *)
Lemma write_two_data_event w ev op d1 d2 :
  no_sysex_yet w → two_data_bytes ev = Some (op, d1, d2) →
  0 ≤ channel ev ≤ 15 →
  snd <$> write_event w ev =
    Some (if decide (uchar d2 = 0xFF)
          then [op + channel ev; Z.land (uchar d1) 0x7F]
          else [op + channel ev; Z.land (uchar d1) 0x7F; Z.land (uchar d2) 0x7F]).
Proof.
  intros [Hl Hs] Hev Hch.
  destruct (bytes w) as [|x [|y [|z [|]]]] eqn:Hb; try done.
  destruct (switch_two_data w ev op d1 d2 x y z) as (w' & Hsw & Hb' & Hs' & Hop);
    [done..|].
  unfold write_event. rewrite Hsw. simpl. f_equal.
  apply write_stage_channel; [done|congruence|lia].
Qed.

Lemma land_7F_range x : 0 ≤ Z.land x 0x7F < 128.
Proof. rewrite land_7F. by apply Z.mod_pos_bound. Qed.

Lemma land_7F_idemp x : Z.land (Z.land x 0x7F) 0x7F = Z.land x 0x7F.
Proof. rewrite !land_7F. by rewrite Z.mod_mod. Qed.

(** C7 (code defect).  [bytes[2]] is set to the mark 0xFF once, on
    entry, and not again before each event.  When the queue holds a
    two-data-byte channel voice event and then a program change or a
    channel pressure, the second is written as three bytes: its status
    byte, its data byte and the last data byte of the first. *)
Theorem one_data_event_after_two_data_event stack ev ev' op d1 d2 op' d' :
  two_data_bytes ev = Some (op, d1, d2) → uchar d2 ≠ 0xFF →
  one_data_bytes ev' = Some (op', d') →
  0 ≤ channel ev ≤ 15 → 0 ≤ channel ev' ≤ 15 →
  write_midi_action_to_serial_port stack ev [ev'] =
    Some [[op + channel ev; Z.land (uchar d1) 0x7F; Z.land (uchar d2) 0x7F];
          [op' + channel ev'; Z.land (uchar d') 0x7F; Z.land (uchar d2) 0x7F]].
Proof.
  intros Hev Hd2 Hev' Hch Hch'.
  unfold write_midi_action_to_serial_port, drain, write_event.
  destruct (switch_two_data (locals stack) ev op d1 d2 0x00 0x00 0xFF)
    as (w1 & Hsw & Hb1 & Hs1 & Hop); [done..|].
  rewrite Hsw. simpl.
  pose proof (write_stage_channel w1 _ _ _ Hb1 Hs1 ltac:(lia)) as Hout.
  destruct (write_stage_channel_locals w1 _ _ _ Hb1 Hs1 ltac:(lia)) as [Hb2 Hs2].
  destruct (write_stage w1) as [w2 out]. simpl in *. subst out.
  destruct (decide (uchar d2 = 0xFF)) as [|_]; [done|].
  destruct (switch_one_data w2 ev' op' d' _ _ _ Hb2 Hev' Hch')
    as (w3 & Hsw' & Hb3 & Hs3 & Hop').
  rewrite Hsw'. simpl.
  rewrite Hs2 in Hs3.
  pose proof (write_stage_channel w3 _ _ _ Hb3 Hs3 ltac:(lia)) as Hout'.
  destruct (write_stage w3) as [w4 out']. simpl in *. subst out'.
  pose proof (land_7F_range (uchar d2)).
  destruct (decide (Z.land (uchar d2) 0x7F = 0xFF)) as [|_]; [lia|].
  by rewrite land_7F_idemp.
Qed.

(** [sysex_len] is not set back either: after a sysex event every later
    event of the same call sends the block again, not its own bytes. *)
Lemma event_after_sysex_resends_block stack ev :
  length stack = 256%nat → type ev ≠ SND_SEQ_EVENT_SYSEX →
  write_midi_action_to_serial_port stack (sysex_event [0xF0; 0x01; 0xF7]) [ev]
    = Some [[0xF0; 0x01; 0xF7]; [0xF0; 0x01; 0xF7]].
Proof.
  intros Hl Ht. do 4 (destruct stack as [|? stack]; [done|]).
  unfold write_midi_action_to_serial_port, drain, write_event.
  destruct ev as [t ch key vel cc val data]. simpl in Ht.
  destruct t; done.
Qed.

(** The same events when each is the first one a call reads. *)
Lemma first_event_two_data stack ev op d1 d2 :
  two_data_bytes ev = Some (op, d1, d2) → 0 ≤ channel ev ≤ 15 →
  data_byte d1 → data_byte d2 →
  encode stack ev = Some [op + channel ev; d1; d2].
Proof.
  intros Hev Hch Hd1 Hd2. unfold encode, data_byte in *.
  rewrite (write_two_data_event _ ev op d1 d2) by done.
  rewrite !uchar_byte by lia.
  destruct (decide _); [lia|]. by rewrite !land_7F, !Z.mod_small by lia.
Qed.

Lemma first_event_one_data stack ev op d1 :
  one_data_bytes ev = Some (op, d1) → 0 ≤ channel ev ≤ 15 → data_byte d1 →
  encode stack ev = Some [op + channel ev; d1].
Proof.
  intros Hev Hch Hd1. unfold encode, write_event, data_byte in *.
  destruct (switch_one_data (locals stack) ev op d1 0x00 0x00 0xFF)
    as (w1 & Hsw & Hb1 & Hs1 & Hop); [done..|].
  rewrite Hsw. simpl. f_equal.
  rewrite (write_stage_channel w1 _ _ _ Hb1 Hs1) by lia. simpl.
  by rewrite uchar_byte, land_7F, Z.mod_small by lia.
Qed.

(** The copy of a sysex block into [sysex_data]. *)
Lemma copy_sysex_inside src : ∀ i dst,
  (i + length src ≤ length dst)%nat →
  copy_sysex src i dst = Some (list_inserts i ((λ v, Z.land v 0xFF) <$> src) dst).
Proof.
  induction src as [|v src IH]; intros i dst Hl; [done|].
  simpl in *. unfold store. rewrite bool_decide_eq_true_2 by lia. simpl.
  rewrite IH by (rewrite length_insert; lia).
  rewrite Nat.add_1_r. by rewrite list_insert_inserts_lt by lia.
Qed.

Lemma copy_sysex_outside src : ∀ i dst,
  (length dst < i + length src)%nat → src ≠ [] → copy_sysex src i dst = None.
Proof.
  induction src as [|v src IH]; intros i dst Hl Hne; [done|].
  simpl in *. unfold store. case_bool_decide; [|done]. simpl.
  apply IH; [rewrite length_insert; lia|]. intros ->. simpl in *. lia.
Qed.

(** The sysex case stores the block of the event in [sysex_data[256]]
    without a test of its length: the iteration stays inside the array
    exactly when the block has at most 256 bytes.  When it does and the
    block is not empty, the write is the block. *)
Lemma sysex_copy_in_bounds w ev :
  type ev = SND_SEQ_EVENT_SYSEX → length (sysex_data w) = 256%nat →
  (is_Some (write_event w ev) ↔ (length (ext ev) ≤ 256)%nat)
  ∧ ((0 < length (ext ev) ≤ 256)%nat →
     snd <$> write_event w ev = Some ((λ v, Z.land v 0xFF) <$> ext ev)).
Proof.
  intros Ht Hl. unfold write_event, switch_type. rewrite Ht.
  destruct (decide (length (ext ev) ≤ 256)%nat) as [Hin|Hout].
  - rewrite copy_sysex_inside by (simpl; lia). simpl. split; [done|].
    intros Hpos. f_equal. unfold write_stage. simpl.
    rewrite bool_decide_eq_true_2 by lia. simpl.
    rewrite <-(length_fmap (λ v, Z.land v 0xFF) (ext ev)) at 1.
    change (length ((λ v, Z.land v 0xFF) <$> ext ev))
      with (0 + length ((λ v, Z.land v 0xFF) <$> ext ev))%nat.
    rewrite take_list_inserts; [done|]. rewrite length_fmap. simpl. lia.
  - rewrite copy_sysex_outside; [|simpl; lia|intros Hnil; rewrite Hnil in Hout; simpl in Hout; lia].
    simpl. split; [|lia]. split; [by intros [? ?]|lia].
Qed.

(** The write that follows the switch when it is the three bytes. *)
Lemma write_stage_three w b0 b1 b2 :
  bytes w = [b0; b1; b2] → sysex_len w = 0%nat →
  0x80 ≤ b0 < 0xF8 → b0 ≠ 0xF1 → b0 ≠ 0xF3 → b0 ≠ 0xF4 → b0 ≠ 0xF5 → b0 ≠ 0xF6 →
  b2 ≠ 0xFF →
  (write_stage w).2 = [b0; Z.land b1 0x7F; Z.land b2 0x7F].
Proof.
  intros Hb Hs H0 ? ? ? ? ? H2. unfold write_stage. rewrite Hs, Hb. simpl.
  rewrite bool_decide_eq_true_2 by lia.
  rewrite bool_decide_eq_false_2 by (intros [?|[?|[?|?]]]; done).
  by rewrite bool_decide_eq_false_2 by (intros [?|[?|?]]; done || lia).
Qed.

(** C1 (code defect).  A song position does not survive the round
    trip: the encoder adds 8192 before it splits the value (as it does
    for a pitch bend), and the decoder joins the two halves without
    taking it off (which it does for a pitch bend).  What comes back is
    the value moved by half the range. *)
Theorem song_position_round_trip stack rest v :
  0 ≤ v < 16384 →
  encode stack (control_event SND_SEQ_EVENT_SONGPOS 0 0 v)
    = Some [0xF2; v mod 128; (v / 128 + 64) mod 128]
  ∧ decode [0xF2; v mod 128; (v / 128 + 64) mod 128] rest
    = control_event SND_SEQ_EVENT_SONGPOS 0 0 ((v + 8192) mod 16384)
  ∧ (v + 8192) mod 16384 ≠ v.
Proof.
  intros Hv. split; [|split].
  - unfold encode, write_event. simpl. f_equal.
    rewrite (write_stage_three _ 0xF2 (uchar (Z.land (v + 8192) 0x7F))
               (uchar (Z.shiftr (v + 8192) 7))); try done.
    + rewrite !land_7F, shiftr_7. unfold uchar.
      f_equal. f_equal; [|f_equal]; Z.div_mod_to_equations; lia.
    + rewrite shiftr_7. unfold uchar. Z.div_mod_to_equations. lia.
  - unfold decode, parse_midi_command. simpl.
    unfold control_event, set_type, set_value. simpl. f_equal.
    rewrite !land_FF, !land_7F, Z.shiftl_mul_pow2 by lia.
    change (2 ^ 7) with 128. Z.div_mod_to_equations. lia.
  - Z.div_mod_to_equations. lia.
Qed.

(** *** What does survive the round trip *)

Lemma status_nibbles op ch :
  0 ≤ ch ≤ 15 → 0 ≤ op ≤ 0xF0 → op mod 16 = 0 →
  Z.land (op + ch) 0xF0 = op ∧ Z.land (op + ch) 0x0F = ch.
Proof.
  intros. destruct (nibbles (op + ch)) as [-> ->]; [lia|].
  split; Z.div_mod_to_equations; lia.
Qed.

Lemma decode_two_data op t ch d1 d2 rest :
  (op = 0x80 ∧ t = SND_SEQ_EVENT_NOTEOFF) ∨ (op = 0x90 ∧ t = SND_SEQ_EVENT_NOTEON)
  ∨ (op = 0xA0 ∧ t = SND_SEQ_EVENT_KEYPRESS) →
  0 ≤ ch ≤ 15 → data_byte d1 → data_byte d2 →
  decode [op + ch; d1; d2] rest = note_event t ch d1 d2.
Proof.
  intros Hop Hch Hk Hv. unfold data_byte in *.
  destruct (status_nibbles op ch) as [Hn Hc]; [lia..| |].
  { destruct Hop as [[-> _]|[[-> _]|[-> _]]]; done. }
  unfold decode, parse_midi_command. generalize dependent (op + ch). intros s Hn Hc.
  cbn [app length]. change ((s :: d1 :: d2 :: rest) !!! 0%nat) with s.
  change ((s :: d1 :: d2 :: rest) !!! 1%nat) with d1.
  change ((s :: d1 :: d2 :: rest) !!! 2%nat) with d2.
  rewrite Hn, Hc, !land_FF_byte by lia.
  destruct Hop as [[-> ->]|[[-> ->]|[-> ->]]]; reflexivity.
Qed.

Lemma decode_controller ch cc val rest :
  0 ≤ ch ≤ 15 → data_byte cc → data_byte val →
  decode [0xB0 + ch; cc; val] rest = control_event SND_SEQ_EVENT_CONTROLLER ch cc val.
Proof.
  intros Hch Hk Hv. unfold data_byte in *.
  destruct (status_nibbles 0xB0 ch) as [Hn Hc]; [lia..|done|].
  unfold decode, parse_midi_command. generalize dependent (0xB0 + ch). intros s Hn Hc.
  cbn [app length]. change ((s :: cc :: val :: rest) !!! 0%nat) with s.
  change ((s :: cc :: val :: rest) !!! 1%nat) with cc.
  change ((s :: cc :: val :: rest) !!! 2%nat) with val.
  by rewrite Hn, Hc, !land_FF_byte by lia.
Qed.

Lemma decode_one_data op t ch val rest :
  (op = 0xC0 ∧ t = SND_SEQ_EVENT_PGMCHANGE) ∨ (op = 0xD0 ∧ t = SND_SEQ_EVENT_CHANPRESS) →
  0 ≤ ch ≤ 15 → data_byte val →
  decode [op + ch; val] rest = control_event t ch 0 val.
Proof.
  intros Hop Hch Hv. unfold data_byte in *.
  destruct (status_nibbles op ch) as [Hn Hc]; [lia..| |].
  { destruct Hop as [[-> _]|[-> _]]; done. }
  unfold decode, parse_midi_command. generalize dependent (op + ch). intros s Hn Hc.
  cbn [app length]. change ((s :: val :: rest) !!! 0%nat) with s.
  change ((s :: val :: rest) !!! 1%nat) with val.
  rewrite Hn, Hc, !land_FF_byte by lia.
  destruct Hop as [[-> ->]|[-> ->]]; reflexivity.
Qed.

Lemma decode_pitch_bend ch val rest :
  0 ≤ ch ≤ 15 → -8192 ≤ val < 8192 →
  decode [0xE0 + ch; Z.land (val + 8192) 0x7F; Z.shiftr (val + 8192) 7] rest
    = control_event SND_SEQ_EVENT_PITCHBEND ch 0 val.
Proof.
  intros Hch Hv.
  destruct (status_nibbles 0xE0 ch) as [Hn Hc]; [lia..|done|].
  unfold decode, parse_midi_command. generalize dependent (0xE0 + ch). intros s Hn Hc.
  cbn [app length].
  set (lo := Z.land (val + 8192) 0x7F). set (hi := Z.shiftr (val + 8192) 7).
  change ((s :: lo :: hi :: rest) !!! 0%nat) with s.
  change ((s :: lo :: hi :: rest) !!! 1%nat) with lo.
  change ((s :: lo :: hi :: rest) !!! 2%nat) with hi.
  rewrite Hn, Hc. unfold snd_seq_ev_set_pitchbend, set_control_value, control_event.
  simpl. f_equal. subst lo hi.
  rewrite !land_FF, !land_7F, shiftr_7, Z.shiftl_mul_pow2 by lia.
  change (2 ^ 7) with 128. Z.div_mod_to_equations. lia.
Qed.

Lemma in_range_encode_decode ev stack rest :
  in_range ev → length stack = 256%nat →
  ∃ wire, encode stack ev = Some wire ∧ decode wire rest = ev.
Proof.
  intros Hev Hstack. destruct Hev as
    [t ch key vel Ht Hch Hk Hv | ch cc val Hch Hc Hv | t ch val Ht Hch Hv
    | ch val Hch Hv | t val Ht Hv | t Ht | payload Hp Hl].
  - assert (∃ op, two_data_bytes (note_event t ch key vel) = Some (op, key, vel)
                  ∧ ((op = 0x80 ∧ t = SND_SEQ_EVENT_NOTEOFF)
                     ∨ (op = 0x90 ∧ t = SND_SEQ_EVENT_NOTEON)
                     ∨ (op = 0xA0 ∧ t = SND_SEQ_EVENT_KEYPRESS))) as (op & Hb & Hop).
    { destruct Ht as [-> |[-> | ->]]; eexists; (split; [reflexivity|]); tauto. }
    eexists. split; [by apply (first_event_two_data _ _ op key vel)|].
    by apply decode_two_data.
  - eexists. split.
    + by apply (first_event_two_data _ _ 0xB0 cc val).
    + by apply decode_controller.
  - assert (∃ op, one_data_bytes (control_event t ch 0 val) = Some (op, val)
                  ∧ ((op = 0xC0 ∧ t = SND_SEQ_EVENT_PGMCHANGE)
                     ∨ (op = 0xD0 ∧ t = SND_SEQ_EVENT_CHANPRESS))) as (op & Hb & Hop).
    { destruct Ht as [-> | ->]; eexists; (split; [reflexivity|]); tauto. }
    eexists. split; [by apply (first_event_one_data _ _ op val)|].
    by apply decode_one_data.
  - eexists. split.
    + apply (first_event_two_data _ _ 0xE0 (Z.land (val + 8192) 0x7F)
               (Z.shiftr (val + 8192) 7)); [done|done|apply land_7F_range|].
      unfold data_byte. rewrite shiftr_7. Z.div_mod_to_equations. lia.
    + by apply decode_pitch_bend.
  - unfold data_byte in Hv.
    destruct Ht as [-> | ->]; eexists; split.
    + unfold encode, write_event. simpl. unfold write_stage, bytes01; simpl.
      rewrite !uchar_byte, land_7F, Z.mod_small by lia. reflexivity.
    + unfold decode, parse_midi_command. simpl.
      rewrite land_FF_byte by lia. reflexivity.
    + unfold encode, write_event. simpl. unfold write_stage, bytes01; simpl.
      rewrite !uchar_byte, land_7F, Z.mod_small by lia. reflexivity.
    + unfold decode, parse_midi_command. simpl.
      rewrite land_FF_byte by lia. reflexivity.
  - destruct Ht as [-> |[-> |[-> |[-> |[-> | ->]]]]]; eexists; (split; [reflexivity|]);
      reflexivity.
  - set (block := 0xF0 :: payload ++ [0xF7]).
    assert (Forall (λ v, 0 ≤ v < 256) block) as Hbytes.
    { subst block. constructor; [lia|]. apply Forall_app. split; [|by repeat constructor].
      eapply Forall_impl; [|exact Hp]. unfold data_byte. intros; simpl in *. lia. }
    assert ((λ v, Z.land v 0xFF) <$> block = block) as Hmask.
    { clear -Hbytes. induction Hbytes as [|v l Hv _ IH]; [done|].
      rewrite fmap_cons, IH. by rewrite land_FF_byte. }
    assert (length block = S (length payload + 1)) as Hlen
      by (subst block; simpl; by rewrite length_app).
    exists block. split.
    + unfold encode.
      destruct (sysex_copy_in_bounds (locals stack) (sysex_event block)) as [_ Hw];
        [done|done|].
      change (ext (sysex_event block)) with block in Hw.
      rewrite Hw by lia. by rewrite Hmask.
    + unfold decode. rewrite parse_midi_command_sysex by done.
      by rewrite take_app_length.
Qed.

(** X12.  But for song position (C1), every event within the ranges of
    MIDI comes back from the decoder as it went into the encoder, when
    it is the first event of a call and [sysex_data] has its 256 bytes. *)
Theorem round_trip_but_song_position ev stack rest :
  in_range ev → length stack = 256%nat →
  ∃ wire, encode stack ev = Some wire ∧ decode wire rest = ev.
Proof. intros Hev Hstack. by apply in_range_encode_decode. Qed.

End Outbound.

(** * The claims the code departs from, on concrete input *)


(** * The theorems at concrete inputs *)

Lemma song_position_round_trip_witness :
  0 ≤ 0 < 16384
  ∧ encode (replicate 256 0) (control_event SND_SEQ_EVENT_SONGPOS 0 0 0)
    = Some [0xF2; 0x00; 0x40]
  ∧ decode [0xF2; 0x00; 0x40] [] = control_event SND_SEQ_EVENT_SONGPOS 0 0 8192
  ∧ 8192 ≠ 0.
Proof.
  split; [lia|].
  exact (song_position_round_trip (replicate 256 0) [] 0 ltac:(lia)).
Defined.

Lemma first_frame_not_delivered_witness :
  (read_midi_from_serial_port (bridging false false) (λ n, n) (replicate BUF_SIZE 0)
     ([0x90; 0x40; 0x7F] ++ [])).2 = []
  ∧ sink_events (read_midi_from_serial_port (bridging false false) (λ n, n)
                   (replicate BUF_SIZE 0)
                   (([0x90; 0x40; 0x7F] ++ []) ++ [0x90; 0x41; 0x7F])).2
    = [parse_midi_command [0x90; 0x41; 0x7F] 3].
Proof.
  apply (first_frame_not_delivered false false (λ n, n) (replicate BUF_SIZE 0) []
           0x90 0x41 0x7F).
  - reflexivity.
  - constructor.
  - unfold channel_status. lia.
  - unfold one_data_status. vm_compute. intros [H|H]; discriminate H.
  - unfold data_byte. lia.
  - unfold data_byte. lia.
Defined.

Lemma text_comment_not_displayed_witness :
  (read_midi_from_serial_port (bridging false false) (λ n, n) (replicate BUF_SIZE 0)
     hello_comment).2 = []
  ∧ (run (bridging false false) (λ n, n) (loop_top (replicate BUF_SIZE 0))
       hello_comment).2
    = [Parse (<[0%nat := 0xFF]> (<[1%nat := 0xFF]> (replicate BUF_SIZE 0))) 1]
  ∧ sink_events (run (bridging false false) (λ n, n) (loop_top (replicate BUF_SIZE 0))
                   hello_comment).2
    = [snd_seq_ev_clear].
Proof.
  apply (text_comment_not_displayed false false (λ n, n) (replicate BUF_SIZE 0)).
  reflexivity.
Defined.

Lemma one_data_system_frame_has_no_data_witness :
  let b := <[0%nat := 0x90]> (replicate BUF_SIZE 0) in
  let b' := <[0%nat := 0xF1]> (<[1%nat := 0xF1]> b) in
  step (bridging false false) (λ n, n) (Framer b (Align 1 (BUF_SIZE - 1))) 0xF1
    = (loop_top b', [Parse b' 1])
  ∧ run (bridging false false) (λ n, n) (Framer b (Align 1 (BUF_SIZE - 1))) [0xF1; 0x05]
    = (Framer (<[1%nat := 0x05]> b') (Align 2 (BUF_SIZE - 1)), [Parse b' 1])
  ∧ parse_midi_command b' 1 = control_event SND_SEQ_EVENT_QFRAME 0 0 0xF1.
Proof.
  apply (one_data_system_frame_has_no_data false false (λ n, n)
           (<[0%nat := 0x90]> (replicate BUF_SIZE 0)) 1 (BUF_SIZE - 1) 0xF1 0x05).
  - vm_compute. lia.
  - left. reflexivity.
  - unfold data_byte. lia.
Defined.

Lemma one_data_event_after_two_data_event_witness :
  write_midi_action_to_serial_port (replicate 256 0)
    (note_event SND_SEQ_EVENT_NOTEON 0 0x40 0x64)
    [control_event SND_SEQ_EVENT_PGMCHANGE 0 0 0x05]
  = Some [[0x90; 0x40; 0x64]; [0xC0; 0x05; 0x64]].
Proof.
  apply (one_data_event_after_two_data_event (replicate 256 0)
           (note_event SND_SEQ_EVENT_NOTEON 0 0x40 0x64)
           (control_event SND_SEQ_EVENT_PGMCHANGE 0 0 0x05) 0x90 0x40 0x64 0xC0 0x05).
  - reflexivity.
  - vm_compute. discriminate.
  - reflexivity.
  - simpl. lia.
  - simpl. lia.
Defined.

Lemma decoder_frames_start_with_status_witness :
  Forall starts_with_status
    (read_midi_from_serial_port (bridging false false) (λ n, n) (replicate BUF_SIZE 0)
       (hello_comment ++ [0x90; 0x40; 0x7F; 0xF8; 0x05; 0xF0; 0x01; 0xF7])).2.
Proof.
  apply (decoder_frames_start_with_status (λ n, n) (bridging false false)
           (replicate BUF_SIZE 0)).
  reflexivity.
Defined.

(** * Further properties of the serial to ALSA direction *)

(** X1.  The framing loop never reads a byte into a place outside
    [buf]: whatever the line has delivered, the array still has its
    [BUF_SIZE] bytes and the read the thread waits in stores its byte at
    an index between 1 and [BUF_SIZE - 2]. *)
Theorem framing_loop_stays_inside_buf args delivered stack input :
  length stack = BUF_SIZE →
  let st := (read_midi_from_serial_port args delivered stack input).1 in
  length (buf st) = BUF_SIZE
  ∧ ∀ i bytesleft, site st = Align i bytesleft → (1 ≤ i ≤ BUF_SIZE - 2)%nat.
Proof.
  intros Hl st.
  destruct (run_inv args delivered (start args stack) input) as [[Hlen Hsite] _].
  { by apply start_inv. }
  fold (read_midi_from_serial_port args delivered stack input) in Hlen, Hsite.
  fold st in Hlen, Hsite. split; [done|].
  intros i bl Hst. rewrite Hst in Hsite. unfold BUF_SIZE in *. lia.
Qed.

Lemma run_print_only args delivered input : ∀ b,
  run args delivered (Framer b PrintOnly) input
  = (Framer (foldl (λ b c, <[0%nat := c]> b) b input) PrintOnly,
     (λ c, Hex (Z.land c 0xFF)) <$> input).
Proof.
  induction input as [|c input IH]; intros b; [done|].
  rewrite run_cons. unfold step at 1 2 3. cbn [site buf fst snd].
  rewrite IH. reflexivity.
Qed.

(** X2.  In super-debug mode the thread prints every byte it reads, in
    order, and never calls the decoder: nothing reaches the sink. *)
Theorem super_debug_mode_only_dumps silent verbose delivered stack input :
  (read_midi_from_serial_port (dumping silent verbose) delivered stack input).2
    = (λ c, Hex (Z.land c 0xFF)) <$> input
  ∧ sink_events
      (read_midi_from_serial_port (dumping silent verbose) delivered stack input).2 = [].
Proof.
  unfold read_midi_from_serial_port.
  change (start (dumping silent verbose) stack) with (Framer stack PrintOnly).
  rewrite run_print_only. cbn [snd]. split; [done|].
  induction input as [|c input IH]; [done|].
  rewrite fmap_cons. exact IH.
Qed.

(** X3.  The data bytes that come before the first status byte are
    thrown away: the thread is then where it would be had the line begun
    with that status byte. *)
Theorem leading_data_bytes_are_skipped args delivered stack ds s input :
  printonly args = false → (0 < length stack)%nat →
  Forall data_byte ds → status_byte s →
  read_midi_from_serial_port args delivered stack (ds ++ s :: input)
  = read_midi_from_serial_port args delivered stack (s :: input).
Proof.
  intros Hp Hl Hds Hs. unfold read_midi_from_serial_port, start. rewrite Hp.
  assert (∀ b, (0 < length b)%nat →
            run args delivered (Framer b FastForward) (s :: input)
            = run args delivered (loop_top (<[0%nat := s]> b)) input) as Hff.
  { intros b Hb. rewrite run_cons, step_fast_forward_status by done.
    cbn [fst snd app]. by destruct (run _ _ _ _). }
  rewrite Hff by done. revert stack Hl.
  induction Hds as [|d ds Hd _ IH]; intros stack Hl; [by apply Hff|].
  cbn [app]. rewrite run_cons.
  assert (step args delivered (Framer stack FastForward) d
          = (Framer (<[0%nat := d]> stack) FastForward, [])) as ->.
  { unfold step. cbn [site buf]. unfold data_byte in Hd.
    rewrite land_FF_byte by lia. rewrite list_lookup_total_insert_eq by done.
    rewrite bool_decide_eq_true_2; [done|]. rewrite shiftr_7.
    Z.div_mod_to_equations. lia. }
  cbn [fst snd app]. rewrite IH by (by rewrite length_insert).
  rewrite list_insert_insert_eq. by destruct (run _ _ _ _).
Qed.

(** X4.  Running status is not honoured: once a channel voice frame has
    been delivered, data bytes that follow with no status byte of their
    own are read and dropped, however many they are. *)
Theorem running_status_is_not_honoured silent verbose delivered stack s0 s d1 d2 ds :
  length stack = BUF_SIZE → status_byte s0 →
  channel_status s → ¬ one_data_status s → data_byte d1 → data_byte d2 →
  Forall data_byte ds →
  sink_events (read_midi_from_serial_port (bridging silent verbose) delivered stack
                 (s0 :: [s; d1; d2] ++ ds)).2
    = [parse_midi_command [s; d1; d2] 3].
Proof.
  intros Hl Hs0 Hs Hone Hd1 Hd2 Hds. unfold BUF_SIZE in Hl.
  rewrite fast_forward_status by (done || lia). unfold loop_top.
  rewrite run_app.
  pose proof (channel_frame_decoded silent verbose delivered
                (<[0%nat := s0]> stack) 1 (BUF_SIZE - 1) s d1 d2) as Hdec.
  rewrite channel_frame_3 in * by (rewrite ?length_insert; done || lia).
  cbn zeta in *. cbn [fst snd] in *.
  set (b' := <[2%nat := d2]> (<[1%nat := d1]> (<[0%nat := s]> (<[1%nat := s]>
               (<[0%nat := s0]> stack))))) in *.
  assert (length b' = length stack) as Hl' by (subst b'; by rewrite !length_insert).
  destruct (lookup_frame3 (<[1%nat := s]> (<[0%nat := s0]> stack)) s d1 d2)
    as (H0 & _); [rewrite !length_insert; lia|]. fold b' in H0.
  destruct (data_bytes_swallowed (bridging silent verbose) delivered ds b' 1)
    as (b'' & i' & Hrun & _).
  - lia.
  - lia.
  - rewrite H0. unfold channel_status in Hs. lia.
  - done.
  - unfold loop_top. rewrite Hrun. cbn [snd]. rewrite app_nil_r.
    apply Hdec; rewrite ?length_insert; done || lia.
Qed.

Lemma step_text_inv args delivered st c :
  text_inv st →
  text_inv (step args delivered st c).1
  ∧ Forall text_fits_msg (step args delivered st c).2.
Proof.
  destruct st as [b s]. unfold text_inv. cbn [site]. intros Hs.
  assert (∀ b' i, text_inv (after_align b' i).1
                  ∧ Forall text_fits_msg (after_align b' i).2) as Hafter.
  { intros b' i. unfold after_align. case_bool_decide; cbn [fst snd].
    - by split.
    - split; [done|]. by repeat constructor. }
  assert (∀ b' i bl, text_inv (align_test b' i bl).1
                     ∧ Forall text_fits_msg (align_test b' i bl).2) as Htest.
  { intros b' i bl. unfold align_test. case_bool_decide; [by split|apply Hafter]. }
  unfold step. cbn [site buf]. destruct s as [| |i bl| |msglen due msg].
  - case_bool_decide; by split.
  - split; [done|]. by repeat constructor.
  - unfold align_body. repeat case_bool_decide; apply Hafter || apply Htest.
  - pose proof (land_FF_range c) as Hc.
    set (b1 := <[0%nat := Z.land c 255]> b).
    set (n := Z.to_nat (b1 !!! 0%nat)).
    assert (n ≤ 255)%nat as Hn.
    { subst n b1. destruct (decide (0 < length b)%nat).
      - rewrite list_lookup_total_insert_eq by done. lia.
      - rewrite list_insert_ge by lia.
        rewrite list_lookup_total_alt, lookup_ge_None_2 by lia. simpl. lia. }
    rewrite (bool_decide_eq_false_2 (MAX_MSG_SIZE - 1 < n)%nat)
      by (unfold MAX_MSG_SIZE; lia).
    case_bool_decide as Hz.
    + unfold text_done. cbn [fst snd]. split; [done|].
      destruct (silent args); [constructor|]. constructor; [|constructor].
      unfold text_fits_msg, MAX_MSG_SIZE. simpl. lia.
    + cbn [fst snd site]. split; [|done]. unfold text_inv, returned. cbn [site].
      simpl length. lia.
  - destruct Hs as (Hn & Hdue & Hlen). case_bool_decide.
    + unfold text_done. cbn [fst snd]. split; [done|].
      destruct (silent args); [constructor|]. constructor; [|constructor].
      unfold text_fits_msg, MAX_MSG_SIZE. rewrite length_app. simpl. lia.
    + cbn [fst snd site]. split; [|done]. rewrite length_app. simpl. lia.
Qed.

(** X5.  A text comment never overruns [msg]: the length the thread
    reads is one byte, so at most 255 bytes are asked of the line, the
    closing NUL [msg[msglen]] lies inside [msg[MAX_MSG_SIZE]], and no more
    bytes than that length are stored. *)
Theorem text_comment_fits_msg args delivered stack input :
  Forall text_fits_msg (read_midi_from_serial_port args delivered stack input).2.
Proof.
  unfold read_midi_from_serial_port.
  assert (text_inv (start args stack)) as Hst
    by (unfold text_inv, start; cbn [site]; by destruct (printonly args)).
  revert Hst. generalize (start args stack).
  induction input as [|c input IH]; intros st Hst; [constructor|].
  rewrite run_cons. cbn [snd].
  destruct (step_text_inv args delivered st c Hst) as [H1 H2].
  apply Forall_app. split; [done|]. by apply IH.
Qed.

Lemma sink_events_app_bind tr tr' :
  sink_events (tr ++ tr') = sink_events tr ++ sink_events tr'.
Proof. unfold sink_events. apply bind_app. Qed.

Lemma status_bytesleft_cases s bytesleft :
  ((status_bytesleft s bytesleft ≤ 1)%nat ∧ 0xF1 ≤ s)
  ∨ (status_bytesleft s bytesleft = 3%nat ∧ s ≠ 0xF0)
  ∨ (status_bytesleft s bytesleft = bytesleft ∧ s = 0xF0).
Proof. unfold status_bytesleft. repeat case_bool_decide; lia. Qed.

Lemma data_i_cases s i :
  (s = 0xF0 ∧ data_i s i = (i + 1)%nat)
  ∨ (s ≠ 0xF0 ∧ (data_i s i = 2%nat ∨ data_i s i = 3%nat)
     ∧ (data_i s i = 2%nat → i ≠ 2%nat ∧ ¬ one_data_status s)
     ∧ (i ≠ 2%nat → data_i s i = 3%nat → one_data_status s)).
Proof.
  unfold data_i, one_data_status. repeat case_bool_decide; try (left; done);
    right; repeat split; try done; try lia; auto.
Qed.

Lemma after_align_channel b i :
  (channel_status (b !!! 0%nat) →
   data_byte (b !!! 1%nat) ∧ (¬ one_data_status (b !!! 0%nat) → data_byte (b !!! 2%nat))) →
  channel_inv (after_align b i).1 ∧ Forall channel_frame_ok (after_align b i).2.
Proof.
  intros Hb. unfold after_align. case_bool_decide; cbn [fst snd].
  - by split.
  - split; [|constructor; [exact Hb|constructor]].
    unfold channel_inv, loop_top. cbn [site buf]. left. split; [done|lia].
Qed.

Lemma step_channel_inv args delivered st c :
  framer_inv st → channel_inv st →
  channel_inv (step args delivered st c).1
  ∧ Forall channel_frame_ok (step args delivered st c).2.
Proof.
  destruct st as [b s]. intros [Hl Hf] Hc. cbn [site buf] in *.
  unfold channel_inv in Hc. cbn [site buf] in Hc.
  pose proof (land_FF_range c) as Hr.
  assert (∀ b', channel_inv (loop_top b')) as Htop.
  { intros b'. unfold channel_inv, loop_top. cbn [site buf]. left. split; [done|lia]. }
  unfold step. cbn [site buf]. destruct s as [| |i bl| |msglen due msg].
  - case_bool_decide; (split; [|constructor]); [done|apply Htop].
  - split; [done|]. by repeat constructor.
  - destruct Hf as (Hi & Hbl & _). unfold BUF_SIZE in Hl, Hbl.
    unfold align_body.
    set (b1 := <[i := Z.land c 255]> b).
    assert (b1 !!! 0%nat = b !!! 0%nat) as H0
      by (subst b1; apply list_lookup_total_insert_ne; lia).
    assert (b1 !!! i = Z.land c 255) as Hi1
      by (subst b1; apply list_lookup_total_insert_eq; lia).
    rewrite Hi1, H0.
    case_bool_decide as Hst.
    + (* a status byte *)
      apply status_test in Hst; [|done]. unfold status_byte in Hst.
      case_bool_decide as Hend.
      * apply after_align_channel. rewrite H0. destruct Hend as [_ ->].
        unfold channel_status. lia.
      * set (b2 := <[0%nat := Z.land c 255]> b1).
        assert (b2 !!! 0%nat = Z.land c 255) as H02.
        { subst b2 b1. apply list_lookup_total_insert_eq. rewrite length_insert. lia. }
        fold b2. clearbody b2. rewrite H02. unfold align_test.
        assert (∀ P, (channel_status (Z.land c 255) → P) → channel_status (b2 !!! 0%nat) → P)
          as Hvoice by (intros P HP; by rewrite H02).
        destruct (status_bytesleft_cases (Z.land c 255) bl) as [[Hn Hs]|[[-> Hs]|[-> Hs]]].
        -- rewrite bool_decide_eq_false_2 by lia. apply after_align_channel.
           apply Hvoice. unfold channel_status. lia.
        -- rewrite bool_decide_eq_true_2 by lia.
           split; [|constructor]. unfold channel_inv. cbn [fst snd site buf]. right.
           split; [done|]. intros _ ?. lia.
        -- rewrite bool_decide_eq_true_2 by lia.
           split; [|constructor]. unfold channel_inv. cbn [fst snd site buf].
           rewrite H02, Hs. destruct Hc as [[-> _]|[-> _]].
           ++ left. split; [done|]. intros _. lia.
           ++ right. split; [done|]. unfold channel_status. intros ?. lia.
    + (* a data byte *)
      assert (data_byte (Z.land c 255)) as Hd.
      { unfold data_byte. rewrite shiftr_7 in Hst. Z.div_mod_to_equations. lia. }
      assert (∀ j, (j ≠ i)%nat → b1 !!! j = b !!! j) as Hne
        by (intros j Hj; subst b1; apply list_lookup_total_insert_ne; lia).
      unfold align_test.
      destruct (data_i_cases (b !!! 0%nat) i) as [[HF0 ->]|(HF0 & Hn & H2 & H3)].
      * (* inside a sysex block *)
        case_bool_decide.
        -- split; [|constructor]. unfold channel_inv. cbn [fst snd site buf].
           destruct Hc as [[-> Hc]|[-> Hc]].
           ++ left. split; [done|]. by rewrite H0.
           ++ right. split; [done|]. rewrite H0, HF0. unfold channel_status.
              intros ?. lia.
        -- apply after_align_channel. rewrite H0, HF0. unfold channel_status. lia.
      * revert Hn H2 H3. generalize (data_i (b !!! 0%nat) i). intros n Hn H2 H3.
        destruct Hc as [[-> Hc]|[-> Hc]].
        -- rewrite bool_decide_eq_true_2 by (unfold BUF_SIZE; lia).
           split; [|constructor]. unfold channel_inv. cbn [fst snd site buf].
           left. split; [done|]. intros _. lia.
        -- destruct Hn as [-> | ->].
           ++ rewrite bool_decide_eq_true_2 by lia.
              split; [|constructor]. unfold channel_inv. cbn [fst snd site buf].
              right. split; [done|]. intros _ _.
              destruct (H2 eq_refl) as [Hi2 _].
              assert (i = 1%nat) as -> by lia. by rewrite Hi1.
           ++ rewrite bool_decide_eq_false_2 by lia.
              apply after_align_channel. rewrite H0. intros Hch.
              destruct (decide (i = 2%nat)) as [-> | Hi2].
              ** rewrite Hi1, (Hne 1%nat) by lia. split; [by apply Hc|done].
              ** assert (i = 1%nat) as -> by lia. rewrite Hi1. split; [done|].
                 intros Hnot. destruct Hnot. by apply H3.
  - case_bool_decide.
    + unfold text_done. split; [apply Htop|]. destruct (silent args); by repeat constructor.
    + by split.
  - case_bool_decide.
    + unfold text_done. split; [apply Htop|]. destruct (silent args); by repeat constructor.
    + by split.
Qed.

Lemma parse_midi_command_data_ok b n :
  0 ≤ b !!! 0%nat < 256 →
  (channel_status (b !!! 0%nat) →
   data_byte (b !!! 1%nat) ∧ (¬ one_data_status (b !!! 0%nat) → data_byte (b !!! 2%nat))) →
  event_data_ok (parse_midi_command b n).
Proof.
  intros Hr Hb. destruct (nibbles (b !!! 0%nat) Hr) as [Hop _].
  assert (0x80 ≤ Z.land (b !!! 0%nat) 0xF0 ≤ 0xE0 →
          data_byte (Z.land (b !!! 1%nat) 0xFF)
          ∧ (Z.land (b !!! 0%nat) 0xF0 ≠ 0xC0 → Z.land (b !!! 0%nat) 0xF0 ≠ 0xD0 →
             data_byte (Z.land (b !!! 2%nat) 0xFF))) as Hv.
  { intros Hrange. destruct Hb as [H1 H2].
    { unfold channel_status. rewrite Hop in Hrange. Z.div_mod_to_equations. lia. }
    unfold data_byte in *. rewrite land_FF_byte by lia. split; [done|].
    intros ? ?. assert (0 ≤ b !!! 2%nat < 128) as H3
      by (apply H2; unfold one_data_status; by intros [?|?]).
    by rewrite land_FF_byte by lia. }
  unfold parse_midi_command. cbv zeta. revert Hv.
  generalize (Z.land (b !!! 1%nat) 0xFF) (Z.land (b !!! 2%nat) 0xFF)
             (Z.land (b !!! 0%nat) 0xF0) (Z.land (b !!! 0%nat) 0x0F).
  clear. intros q1 q2 o ch Hv.
  destruct o as [|p|p]; [done| |done].
  do 8 (try destruct p as [p|p|]); try done.
  all: try (destruct Hv as [H1 H2]; [lia|]; try specialize (H2 ltac:(lia) ltac:(lia));
            by unfold event_data_ok).
  destruct ch as [|q|q]; try done. do 4 (try destruct q as [q|q|]); done.
Qed.

(** X6.  The channel voice events the thread sends to the sequencer have
    their data within 0..127: note and velocity of a note-on, note-off or
    key pressure, parameter and value of a controller, the value of a
    program change or channel pressure.  A status byte never gets into
    them, whatever the line delivers. *)
Theorem channel_voice_events_carry_data_bytes args delivered stack input :
  length stack = BUF_SIZE →
  Forall event_data_ok
    (sink_events (read_midi_from_serial_port args delivered stack input).2).
Proof.
  intros Hl. unfold read_midi_from_serial_port.
  assert (framer_inv (start args stack)) as Hf by (by apply start_inv).
  assert (channel_inv (start args stack)) as Hc
    by (unfold channel_inv, start; cbn [site]; by destruct (printonly args)).
  revert Hf Hc. generalize (start args stack).
  induction input as [|c input IH]; intros st Hf Hc; [constructor|].
  rewrite run_cons. cbn [snd]. rewrite sink_events_app_bind.
  destruct (step_inv args delivered st c Hf) as [Hf' Hs].
  destruct (step_channel_inv args delivered st c Hf Hc) as [Hc' Hch].
  apply Forall_app. split; [|by apply IH].
  revert Hs Hch. generalize (step args delivered st c).2. intros out Hs Hch.
  induction out as [|a out IHout]; [constructor|].
  inversion Hs as [|? ? Ha Hs']; inversion Hch as [|? ? Hca Hch']; subst.
  destruct a as [b n|n msg|x]; [|by apply IHout..].
  rewrite sink_events_cons_parse. constructor; [|by apply IHout].
  apply parse_midi_command_data_ok; [|done].
  unfold starts_with_status, status_byte in Ha. lia.
Qed.

(** ** Status bytes inside a frame *)

(** The event of a frame whose status byte takes no data depends on that
    byte alone. *)
Lemma parse_midi_command_status_only b n s :
  b !!! 0%nat = s → 0xF4 ≤ s ≤ 0xFF → parse_midi_command b n = parse_midi_command [s] 1.
Proof.
  intros H0 Hs. unfold parse_midi_command. rewrite H0. clear H0.
  assert (s = 0xF4 ∨ s = 0xF5 ∨ s = 0xF6 ∨ s = 0xF7 ∨ s = 0xF8 ∨ s = 0xF9 ∨ s = 0xFA
          ∨ s = 0xFB ∨ s = 0xFC ∨ s = 0xFD ∨ s = 0xFE ∨ s = 0xFF) as Hcases by lia.
  repeat (destruct Hcases as [-> | Hcases]; [reflexivity|]). subst s. reflexivity.
Qed.

Lemma run_immediate args delivered b i bl s input :
  (1 ≤ i < length b)%nat → 0xF4 ≤ s ≤ 0xFE → ¬ (s = 0xF7 ∧ b !!! 0%nat = 0xF0) →
  let b' := <[0%nat := s]> (<[i := s]> b) in
  sink_events (run args delivered (Framer b (Align i bl)) (s :: input)).2
  = parse_midi_command [s] 1 :: sink_events (run args delivered (loop_top b') input).2.
Proof.
  intros Hi Hs Hend b'. rewrite run_cons.
  rewrite step_immediate by (done || lia). cbn zeta. cbn [fst snd app].
  rewrite sink_events_cons_parse. f_equal.
  apply parse_midi_command_status_only; [|lia].
  apply list_lookup_total_insert_eq. rewrite length_insert. lia.
Qed.


(** X8.  A sysex block that begins before a channel voice frame is
    complete keeps the [bytesleft = 3] of that frame: the sink gets a
    sysex event of three bytes, 0xF0 and the first two data bytes, and
    the rest of the block as a second sysex event with a 0xF0 of its
    own. *)
Theorem sysex_inside_channel_frame_is_split
    silent verbose delivered stack s0 s d1 d2 ds :
  length stack = BUF_SIZE → status_byte s0 → channel_status s →
  data_byte d1 → data_byte d2 → Forall data_byte ds → (length ds ≤ BUF_SIZE - 3)%nat →
  sink_events (read_midi_from_serial_port (bridging silent verbose) delivered stack
                 (s0 :: s :: 0xF0 :: d1 :: d2 :: ds ++ [0xF7])).2
  = [sysex_event [0xF0; d1; d2]; sysex_event (0xF0 :: ds ++ [0xF7])].
Proof.
  intros Hl Hs0 Hs Hd1 Hd2 Hds Hn.
  assert (length stack = 1024%nat) as Hl' by exact Hl.
  rewrite fast_forward_status by (done || lia).
  set (b0 := <[0%nat := s0]> stack).
  assert (length b0 = 1024%nat) as Hl0 by (subst b0; by rewrite length_insert).
  unfold channel_status in Hs.
  (* the status byte of the channel voice frame *)
  unfold loop_top at 1. rewrite run_cons.
  rewrite step_align_status; [|lia|unfold status_byte; lia|lia].
  rewrite status_bytesleft_channel by done. rewrite align_test_more by lia.
  cbn [fst snd app].
  set (b1 := <[0%nat := s]> (<[1%nat := s]> b0)).
  assert (length b1 = 1024%nat) as Hl1 by (subst b1; by rewrite !length_insert).
  (* the 0xF0 *)
  rewrite run_cons.
  rewrite step_align_status; [|lia|unfold status_byte; lia|lia].
  change (status_bytesleft 0xF0 3) with 3%nat. rewrite align_test_more by lia.
  cbn [fst snd app].
  set (b2 := <[0%nat := 0xF0]> (<[1%nat := 0xF0]> b1)).
  assert (length b2 = 1024%nat) as Hl2 by (subst b2; by rewrite !length_insert).
  assert (b2 !!! 0%nat = 0xF0) as H02
    by (subst b2; apply list_lookup_total_insert_eq; rewrite length_insert; lia).
  (* two data bytes, and the loop ends *)
  rewrite run_cons. rewrite step_align_data by (done || lia).
  rewrite H02. change (data_i 0xF0 1) with 2%nat. rewrite align_test_more by lia.
  cbn [fst snd app].
  set (b3 := <[1%nat := d1]> b2).
  assert (length b3 = 1024%nat) as Hl3 by (subst b3; by rewrite length_insert).
  assert (b3 !!! 0%nat = 0xF0) as H03
    by (subst b3; by rewrite list_lookup_total_insert_ne by lia).
  rewrite run_cons. rewrite step_align_data by (done || lia).
  rewrite H03. change (data_i 0xF0 2) with 3%nat.
  set (b4 := <[2%nat := d2]> b3).
  assert (length b4 = 1024%nat) as Hl4 by (subst b4; by rewrite length_insert).
  assert (b4 !!! 0%nat = 0xF0) as H04
    by (subst b4; by rewrite list_lookup_total_insert_ne by lia).
  rewrite align_test_done by (lia || rewrite H04; lia).
  cbn [fst snd app]. rewrite sink_events_cons_parse. f_equal.
  - rewrite parse_midi_command_sysex by done. f_equal.
    subst b4 b3 b2 b1 b0. clear -Hl'.
    destruct stack as [|x0 [|x1 [|x2 stack]]]; simpl in Hl'; try lia. reflexivity.
  - (* the rest of the block, from the top of the loop *)
    unfold loop_top at 1.
    rewrite sysex_whole by (done || unfold BUF_SIZE; lia). cbn zeta. cbn [snd].
    rewrite sink_events_cons_parse, sink_events_nil. f_equal.
    rewrite parse_midi_command_sysex by (by rewrite list_lookup_total_inserts_lt by lia).
    f_equal.
    replace (1 + length ds + 1)%nat with (1 + length (ds ++ [0xF7%Z]))%nat
      by (rewrite length_app; simpl; lia).
    rewrite take_list_inserts
      by (rewrite length_app; simpl; unfold BUF_SIZE in *; lia).
    destruct b4 as [|x b4]; [simpl in Hl4; lia|].
    change ((x :: b4) !!! 0%nat) with x in H04. subst x. reflexivity.
Qed.

(** ** The text comment that is displayed *)

Lemma run_text_body args delivered b msglen text : ∀ due msg,
  silent args = false → (1 ≤ due)%nat → length text = due →
  run args delivered (Framer b (TextBody msglen due msg)) text
  = (loop_top b, [Text msglen (msg ++ text)]).
Proof.
  induction text as [|c text IH]; intros due msg Hs Hdue Hlen; simpl in Hlen; [lia|].
  rewrite run_cons. unfold step at 1 2 3. cbn [site buf].
  case_bool_decide as Hlast.
  - assert (text = []) as -> by (destruct text; [done|simpl in Hlen; lia]).
    unfold text_done. rewrite Hs. reflexivity.
  - cbn [fst snd app]. rewrite (IH (due - 1)%nat) by (done || lia).
    cbn [fst snd]. by rewrite <- app_assoc.
Qed.


(** ** What the decoder can hand to the sequencer *)

(** X10.  Whatever the buffer holds, the event the decoder sends has a
    channel within 0..15, a pitch bend within -8192..8191, a song
    position within 0..16383 and a quarter frame or song number within
    0..255. *)
Theorem decoded_values_are_in_range b n :
  let ev := parse_midi_command b n in
  0 ≤ channel ev ≤ 15
  ∧ (type ev = SND_SEQ_EVENT_PITCHBEND → -8192 ≤ value ev ≤ 8191)
  ∧ (type ev = SND_SEQ_EVENT_SONGPOS → 0 ≤ value ev ≤ 16383)
  ∧ (type ev = SND_SEQ_EVENT_QFRAME ∨ type ev = SND_SEQ_EVENT_SONGSEL →
     0 ≤ value ev ≤ 255).
Proof.
  unfold parse_midi_command. cbv zeta.
  pose proof (land_FF_range (b !!! 1%nat)) as H1.
  pose proof (land_7F_range (Z.land (b !!! 1%nat) 0xFF)) as Hlo.
  pose proof (land_7F_range (Z.land (b !!! 2%nat) 0xFF)) as Hhi.
  assert (0 ≤ Z.land (b !!! 0%nat) 0x0F ≤ 15) as Hch.
  { change (Z.land (b !!! 0%nat) 0x0F) with (Z.land (b !!! 0%nat) (Z.ones 4)).
    rewrite Z.land_ones by lia. change (2 ^ 4) with 16. Z.div_mod_to_equations. lia. }
  set (lo := Z.land (Z.land (b !!! 1%nat) 0xFF) 0x7F) in *.
  set (hi := Z.land (Z.land (b !!! 2%nat) 0xFF) 0x7F) in *.
  set (p1 := Z.land (b !!! 1%nat) 0xFF) in *.
  set (ch := Z.land (b !!! 0%nat) 0x0F) in *.
  set (o := Z.land (b !!! 0%nat) 0xF0).
  clearbody lo hi p1 ch o.
  assert (0 ≤ lo + Z.shiftl hi 7 ≤ 16383) as H14.
  { rewrite Z.shiftl_mul_pow2 by lia. change (2 ^ 7) with 128. lia. }
  revert H14. generalize (lo + Z.shiftl hi 7). intros v H14.
  assert (∀ ev, 0 ≤ channel ev ≤ 15 →
            (type ev = SND_SEQ_EVENT_PITCHBEND → -8192 ≤ value ev ≤ 8191) →
            (type ev = SND_SEQ_EVENT_SONGPOS → 0 ≤ value ev ≤ 16383) →
            (type ev = SND_SEQ_EVENT_QFRAME ∨ type ev = SND_SEQ_EVENT_SONGSEL →
             0 ≤ value ev ≤ 255) →
            0 ≤ channel ev ≤ 15
            ∧ (type ev = SND_SEQ_EVENT_PITCHBEND → -8192 ≤ value ev ≤ 8191)
            ∧ (type ev = SND_SEQ_EVENT_SONGPOS → 0 ≤ value ev ≤ 16383)
            ∧ (type ev = SND_SEQ_EVENT_QFRAME ∨ type ev = SND_SEQ_EVENT_SONGSEL →
               0 ≤ value ev ≤ 255)) as Hpack by (by intros).
  destruct o as [|p|p]; [by apply Hpack| |by apply Hpack; simpl; try lia].
  do 8 (try destruct p as [p|p|]);
    try (apply Hpack; simpl; try lia; try done; by intros [?|?]).
  destruct ch as [|q|q]; try (apply Hpack; simpl; try lia; try done; by intros [?|?]).
  do 4 (try destruct q as [q|q|]);
    apply Hpack; simpl; try lia; try done; try (by intros [?|?]); intros; lia.
Qed.

(** X11.  The status bytes MIDI leaves undefined (0xF4, 0xF5, 0xF9,
    0xFD) are not filtered out: when one arrives at a read of the inner
    loop, the decoder is called at once and sends the sequencer an event
    with every field zero. *)
Theorem undefined_status_byte_sends_an_empty_event args delivered stack input i bl s :
  length stack = BUF_SIZE →
  site (read_midi_from_serial_port args delivered stack input).1 = Align i bl →
  s = 0xF4 ∨ s = 0xF5 ∨ s = 0xF9 ∨ s = 0xFD →
  sink_events (read_midi_from_serial_port args delivered stack (input ++ [s])).2
  = sink_events (read_midi_from_serial_port args delivered stack input).2
    ++ [snd_seq_ev_clear].
Proof.
  intros Hl Hsite Hs. unfold read_midi_from_serial_port in *.
  destruct (run_inv args delivered (start args stack) input) as [[Hlen Hinv] _].
  { by apply start_inv. }
  rewrite run_app. cbn [snd]. rewrite sink_events_app_bind. f_equal.
  destruct (run args delivered (start args stack) input).1 as [b site0].
  cbn [site buf] in *. subst site0. destruct Hinv as (Hi & Hbl & _).
  rewrite run_immediate; [|unfold BUF_SIZE in *; lia|lia|lia].
  cbn zeta. cbn [run snd]. rewrite sink_events_nil. f_equal.
  destruct Hs as [-> |[-> |[-> | ->]]]; reflexivity.
Qed.

(** * Further properties of the ALSA to serial direction *)

Lemma switch_type_no_sysex w ev :
  no_sysex_yet w → type ev ≠ SND_SEQ_EVENT_SYSEX →
  ∃ w', switch_type w ev = Some w' ∧ no_sysex_yet w'.
Proof.
  intros [Hl Hs] Ht. unfold switch_type.
  destruct (type ev); try done; eexists; (split; [reflexivity|]);
    unfold no_sysex_yet, bytes012, bytes01, bytes0, set_bytes; cbn [bytes sysex_len];
    by rewrite ?length_insert.
Qed.

Lemma write_stage_shape w :
  no_sysex_yet w →
  no_sysex_yet (write_stage w).1
  ∧ (length (write_stage w).2 ≤ 3)%nat ∧ Forall data_byte (tail (write_stage w).2).
Proof.
  intros [Hl Hs]. unfold write_stage. rewrite Hs.
  rewrite (bool_decide_eq_false_2 (0 < 0)%nat) by lia.
  destruct (bytes w) as [|x [|y [|z [|]]]] eqn:Hb; try done.
  pose proof (land_7F_range y) as Hy. pose proof (land_7F_range z) as Hz.
  simpl.
  repeat case_bool_decide; unfold no_sysex_yet, set_bytes; simpl; rewrite ?Hb;
    (split; [done|]); (split; [lia|]);
    repeat apply Forall_cons_2; try apply Forall_nil_2; done.
Qed.

Lemma drain_shape evs : ∀ w,
  no_sysex_yet w → Forall (λ ev, type ev ≠ SND_SEQ_EVENT_SYSEX) evs →
  ∃ outs, drain w evs = Some outs ∧ length outs = length evs
        ∧ Forall (λ out, (length out ≤ 3)%nat ∧ Forall data_byte (tail out)) outs.
Proof.
  induction evs as [|ev evs IH]; intros w Hw Hevs.
  - exists []. by repeat split.
  - inversion Hevs as [|? ? Hev Hevs']; subst.
    destruct (switch_type_no_sysex w ev Hw Hev) as (w1 & Hsw & Hw1).
    destruct (write_stage_shape w1 Hw1) as (Hw2 & Hlen & Hdata).
    destruct (IH _ Hw2 Hevs') as (outs & Hd & Hl & Hshape).
    exists ((write_stage w1).2 :: outs).
    cbn [drain]. unfold write_event. rewrite Hsw. cbn [mbind option_bind].
    destruct (write_stage w1) as [w2 out] eqn:Hws. cbn [fst snd] in *.
    rewrite Hd. cbn [mbind option_bind]. split; [done|].
    split; [simpl; by rewrite Hl|]. by constructor.
Qed.

(** X13.  A call that reads no sysex event stays inside its arrays and
    makes one write per event, of at most three bytes, and every byte it
    writes after the first of a write is a data byte (it is masked to 7
    bits). *)
Theorem writes_without_sysex_are_short stack ev pending :
  Forall (λ ev, type ev ≠ SND_SEQ_EVENT_SYSEX) (ev :: pending) →
  ∃ outs, write_midi_action_to_serial_port stack ev pending = Some outs
        ∧ length outs = S (length pending)
        ∧ Forall (λ out, (length out ≤ 3)%nat ∧ Forall data_byte (tail out)) outs.
Proof.
  intros Hevs. apply (drain_shape (ev :: pending) (locals stack)); [|done].
  by split.
Qed.

(** The locals after a channel voice event with two data bytes. *)
Lemma locals_after_two_data_event stack ev op d1 d2 :
  two_data_bytes ev = Some (op, d1, d2) → 0 ≤ channel ev ≤ 15 →
  data_byte d1 → data_byte d2 →
  ∃ w, write_event (locals stack) ev = Some (w, [op + channel ev; d1; d2])
     ∧ bytes w = [op + channel ev; d1; d2] ∧ sysex_len w = 0%nat
     ∧ 0x80 ≤ op + channel ev ≤ 0xEF.
Proof.
  intros Hev Hch Hd1 Hd2. unfold data_byte in *.
  destruct (switch_two_data (locals stack) ev op d1 d2 0x00 0x00 0xFF)
    as (w1 & Hsw & Hb1 & Hs1 & Hop); [done..|].
  rewrite !uchar_byte in Hb1 by lia.
  destruct (write_stage_channel_locals w1 _ _ _ Hb1 Hs1) as [Hb2 Hs2]; [lia|].
  pose proof (write_stage_channel w1 _ _ _ Hb1 Hs1 ltac:(lia)) as Hout.
  destruct (decide (d2 = 0xFF)); [lia|].
  rewrite !land_7F, !Z.mod_small in Hb2, Hout by lia.
  exists (write_stage w1).1. unfold write_event. rewrite Hsw. cbn [mbind option_bind].
  destruct (write_stage w1) as [w2 out]. cbn [fst snd] in *. subst out.
  repeat split; try done; lia.
Qed.

(** X14.  An event of a type the switch has no case for changes no
    local, and the write that follows the switch is not skipped: read
    first in a call it writes nothing, but read after a channel voice
    event it sends the frame of that event a second time. *)
Theorem unhandled_event_resends_the_previous_frame stack ev op d1 d2 ev' :
  two_data_bytes ev = Some (op, d1, d2) → 0 ≤ channel ev ≤ 15 →
  data_byte d1 → data_byte d2 → unhandled_type (type ev') →
  write_midi_action_to_serial_port stack ev' [] = Some [[]]
  ∧ write_midi_action_to_serial_port stack ev [ev']
    = Some [[op + channel ev; d1; d2]; [op + channel ev; d1; d2]].
Proof.
  intros Hev Hch Hd1 Hd2 Hun.
  assert (∀ w, switch_type w ev' = Some w) as Hsw
    by (intros w; unfold switch_type; by destruct Hun as [-> | ->]).
  unfold write_midi_action_to_serial_port. split.
  - cbn [drain]. unfold write_event. rewrite Hsw. reflexivity.
  - destruct (locals_after_two_data_event stack ev op d1 d2)
      as (w & Hw & Hb & Hs & Hst); [done..|].
    cbn [drain]. rewrite Hw. cbn [mbind option_bind].
    unfold write_event. rewrite Hsw. cbn [mbind option_bind].
    pose proof (write_stage_channel w _ _ _ Hb Hs Hst) as Hout.
    destruct (write_stage w) as [w2 out]. cbn [fst snd] in *. subst out.
    unfold data_byte in *. destruct (decide (d2 = 0xFF)); [lia|].
    by rewrite !land_7F, !Z.mod_small by lia.
Qed.

(** X15.  The events that carry no data (tune request, clock, start,
    continue, stop, active sensing) are written as their status byte
    alone only when [bytes[2]] no longer holds its initial mark: read
    first in a call, such an event is written as two bytes, the status
    byte and 0x00. *)
Theorem data_less_event_is_written_with_a_zero stack ev s ev0 op d1 d2 :
  plain_status (type ev) = Some s →
  two_data_bytes ev0 = Some (op, d1, d2) → 0 ≤ channel ev0 ≤ 15 →
  data_byte d1 → data_byte d2 →
  write_midi_action_to_serial_port stack ev [] = Some [[s; 0x00]]
  ∧ write_midi_action_to_serial_port stack ev0 [ev]
    = Some [[op + channel ev0; d1; d2]; [s]].
Proof.
  intros Hs Hev Hch Hd1 Hd2. unfold write_midi_action_to_serial_port. split.
  - cbn [drain]. unfold write_event, switch_type, plain_status in *.
    destruct (type ev); try done; injection Hs as <-; reflexivity.
  - destruct (locals_after_two_data_event stack ev0 op d1 d2)
      as (w & Hw & Hb & Hlen & Hst); [done..|].
    cbn [drain]. rewrite Hw. cbn [mbind option_bind].
    assert (switch_type w ev = Some (bytes0 s w) ∧ 0xF6 ≤ s ≤ 0xFE ∧ s ≠ 0xF7) as (Hsw & Hr & H7).
    { unfold switch_type, plain_status in *.
      destruct (type ev); try done; injection Hs as <-; (split; [done|lia]). }
    unfold write_event. rewrite Hsw. cbn [mbind option_bind].
    unfold write_stage, bytes0, set_bytes. cbn [bytes sysex_len sysex_data].
    rewrite Hlen, Hb. cbn [bool_decide decide_rel].
    rewrite bool_decide_eq_false_2 by lia.
    rewrite uchar_byte by lia.
    change (<[0%nat := s]> [op + channel ev0; d1; d2]) with [s; d1; d2].
    change ([s; d1; d2] !!! 0%nat) with s. change ([s; d1; d2] !!! 1%nat) with d1.
    rewrite bool_decide_eq_true_2 by lia.
    change (<[1%nat := Z.land d1 127]> [s; d1; d2]) with [s; Z.land d1 127; d2].
    change ([s; Z.land d1 127; d2] !!! 0%nat) with s.
    change ([s; Z.land d1 127; d2] !!! 2%nat) with d2.
    unfold data_byte in *.
    rewrite bool_decide_eq_false_2 by (intros [?|[?|[?|?]]]; lia).
    rewrite bool_decide_eq_true_2 by lia.
    reflexivity.
Qed.

(** * Both directions together *)

Lemma two_data_frame_delivered silent verbose delivered b s d1 d2 ev :
  length b = BUF_SIZE → channel_status s → ¬ one_data_status s →
  data_byte d1 → data_byte d2 → decode [s; d1; d2] [] = ev →
  sink_events (run (bridging silent verbose) delivered (loop_top b) [s; d1; d2]).2 = [ev].
Proof.
  intros Hl Hs Hone Hd1 Hd2 <-. unfold loop_top.
  rewrite channel_frame_decoded by (done || unfold BUF_SIZE in Hl; lia).
  reflexivity.
Qed.

Lemma one_data_frame_delivered silent verbose delivered b s d1 ev :
  length b = BUF_SIZE → channel_status s → one_data_status s → data_byte d1 →
  (∀ rest, decode [s; d1] rest = ev) →
  sink_events (run (bridging silent verbose) delivered (loop_top b) [s; d1]).2 = [ev].
Proof.
  intros Hl Hs Hone Hd1 Hev. unfold loop_top.
  assert (length b = 1024%nat) as Hl' by exact Hl.
  rewrite channel_frame_2 by (done || lia). cbn zeta. cbn [snd].
  rewrite sink_events_cons_parse, sink_events_nil. f_equal.
  set (b' := <[1%nat := d1]> (<[0%nat := s]> (<[1%nat := s]> b))).
  assert (b' !!! 0%nat = s ∧ b' !!! 1%nat = d1) as [H0 H1].
  { subst b'. clear -Hl'. destruct b as [|x0 [|x1 b]]; simpl in Hl'; try lia. done. }
  assert (Z.land s 0xF0 ≠ 0xF0) as Hop by (destruct Hone as [-> | ->]; lia).
  rewrite parse_midi_command_prefix by (left; by rewrite H0).
  rewrite H0, H1. rewrite <- (Hev [b' !!! 2%nat]). unfold decode. cbn [app length].
  by rewrite (parse_midi_command_prefix [s; d1; b' !!! 2%nat] 2) by (by left).
Qed.

Lemma data_less_frame_delivered silent verbose delivered b s :
  length b = BUF_SIZE → 0xF4 ≤ s ≤ 0xFE → s ≠ 0xF7 →
  sink_events (run (bridging silent verbose) delivered (loop_top b) [s; 0x00]).2
  = [parse_midi_command [s] 1].
Proof.
  intros Hl Hs H7. unfold loop_top at 1.
  assert (length b = 1024%nat) as Hl' by exact Hl.
  rewrite run_immediate; [|lia|lia|lia]. cbn zeta. f_equal.
  set (b' := <[0%nat := s]> (<[1%nat := s]> b)).
  assert (length b' = 1024%nat) as Hlb by (subst b'; by rewrite !length_insert).
  assert (b' !!! 0%nat = s) as H0 by (subst b'; apply list_lookup_total_insert_eq;
                                       rewrite length_insert; lia).
  unfold loop_top. rewrite run_cons.
  rewrite step_align_data by (unfold data_byte; lia).
  rewrite H0. unfold data_i.
  rewrite (bool_decide_eq_false_2 (s = 0xF0)) by lia.
  rewrite (bool_decide_eq_false_2 (1 = 2)%nat) by lia.
  case_bool_decide; rewrite align_test_more by (unfold BUF_SIZE; lia); reflexivity.
Qed.

Lemma sysex_block_delivered silent verbose delivered b payload :
  length b = BUF_SIZE → Forall data_byte payload → (length payload ≤ BUF_SIZE - 3)%nat →
  sink_events (run (bridging silent verbose) delivered (loop_top b)
                 (0xF0 :: payload ++ [0xF7])).2
  = [sysex_event (0xF0 :: payload ++ [0xF7])].
Proof.
  intros Hl Hp Hn. unfold loop_top.
  assert (length b = 1024%nat) as Hl' by exact Hl.
  rewrite run_cons, sysex_start by lia. cbn [fst snd app].
  set (b1 := <[0%nat := 0xF0]> (<[1%nat := 0xF0]> b)).
  assert (length b1 = BUF_SIZE) as Hl1 by (subst b1; by rewrite !length_insert).
  assert (b1 !!! 0%nat = 0xF0) as H0
    by (subst b1; apply list_lookup_total_insert_eq; rewrite length_insert; lia).
  rewrite sysex_whole by (done || unfold BUF_SIZE in *; lia). cbn zeta. cbn [snd].
  rewrite sink_events_cons_parse, sink_events_nil. f_equal.
  rewrite parse_midi_command_sysex by (by rewrite list_lookup_total_inserts_lt by lia).
  f_equal.
  replace (1 + length payload + 1)%nat with (1 + length (payload ++ [0xF7%Z]))%nat
    by (rewrite length_app; simpl; lia).
  rewrite take_list_inserts
    by (rewrite length_app; simpl; unfold BUF_SIZE in *; lia).
  destruct b1 as [|x b1]; [simpl in Hl1; unfold BUF_SIZE in Hl1; lia|].
  change ((x :: b1) !!! 0%nat) with x in H0. subst x. reflexivity.
Qed.

(** X16.  The two directions fit: but for song position, MTC quarter
    frame and song select, what the encoder writes for an event within
    the ranges of MIDI that is first in its call makes the framing loop,
    when it reads it at the top of its main loop, send the sink that
    very event and no other. *)
Theorem written_frame_is_read_back silent verbose delivered stack b ev :
  in_range ev →
  type ev ≠ SND_SEQ_EVENT_QFRAME → type ev ≠ SND_SEQ_EVENT_SONGSEL →
  length stack = 256%nat → length b = BUF_SIZE →
  ∃ wire, encode stack ev = Some wire
        ∧ sink_events (run (bridging silent verbose) delivered (loop_top b) wire).2
          = [ev].
Proof.
  intros Hev Hq Hsel Hstack Hb. destruct Hev as
    [t ch key vel Ht Hch Hk Hv | ch cc val Hch Hc Hv | t ch val Ht Hch Hv
    | ch val Hch Hv | t val Ht Hv | t Ht | payload Hp Hl].
  - assert (∃ op, two_data_bytes (note_event t ch key vel) = Some (op, key, vel)
                  ∧ ((op = 0x80 ∧ t = SND_SEQ_EVENT_NOTEOFF)
                     ∨ (op = 0x90 ∧ t = SND_SEQ_EVENT_NOTEON)
                     ∨ (op = 0xA0 ∧ t = SND_SEQ_EVENT_KEYPRESS))) as (op & Hbytes & Hop).
    { destruct Ht as [-> |[-> | ->]]; eexists; (split; [reflexivity|]); tauto. }
    eexists. split; [by apply (first_event_two_data _ _ op key vel)|].
    cbn [channel note_event].
    destruct (status_nibbles op ch) as [Hn _]; [lia| |by destruct Hop as [[-> _]|[[-> _]|[-> _]]]|].
    { destruct Hop as [[-> _]|[[-> _]|[-> _]]]; lia. }
    apply two_data_frame_delivered; try done.
    + unfold channel_status. destruct Hop as [[-> _]|[[-> _]|[-> _]]]; lia.
    + unfold one_data_status. rewrite Hn.
      destruct Hop as [[-> _]|[[-> _]|[-> _]]]; lia.
    + by apply decode_two_data.
  - eexists. split; [by apply (first_event_two_data _ _ 0xB0 cc val)|].
    cbn [channel control_event].
    destruct (status_nibbles 0xB0 ch) as [Hn _]; [lia|lia|done|].
    apply two_data_frame_delivered; try done.
    + unfold channel_status. lia.
    + unfold one_data_status. rewrite Hn. lia.
    + by apply decode_controller.
  - assert (∃ op, one_data_bytes (control_event t ch 0 val) = Some (op, val)
                  ∧ ((op = 0xC0 ∧ t = SND_SEQ_EVENT_PGMCHANGE)
                     ∨ (op = 0xD0 ∧ t = SND_SEQ_EVENT_CHANPRESS))) as (op & Hbytes & Hop).
    { destruct Ht as [-> | ->]; eexists; (split; [reflexivity|]); tauto. }
    eexists. split; [by apply (first_event_one_data _ _ op val)|].
    cbn [channel control_event].
    destruct (status_nibbles op ch) as [Hn _]; [lia| |by destruct Hop as [[-> _]|[-> _]]|].
    { destruct Hop as [[-> _]|[-> _]]; lia. }
    apply one_data_frame_delivered; try done.
    + unfold channel_status. destruct Hop as [[-> _]|[-> _]]; lia.
    + unfold one_data_status. rewrite Hn. destruct Hop as [[-> _]|[-> _]]; tauto.
    + intros rest. by apply decode_one_data.
  - assert (data_byte (Z.land (val + 8192) 0x7F)) as Hlo by apply land_7F_range.
    assert (data_byte (Z.shiftr (val + 8192) 7)) as Hhi.
    { unfold data_byte. rewrite shiftr_7. Z.div_mod_to_equations. lia. }
    eexists. split.
    + by apply (first_event_two_data _ _ 0xE0 (Z.land (val + 8192) 0x7F)
                  (Z.shiftr (val + 8192) 7)).
    + cbn [channel control_event].
      destruct (status_nibbles 0xE0 ch) as [Hn _]; [lia|lia|done|].
      apply two_data_frame_delivered; try done.
      * unfold channel_status. lia.
      * unfold one_data_status. rewrite Hn. lia.
      * by apply decode_pitch_bend.
  - destruct Ht as [-> | ->]; done.
  - assert (∃ s, encode stack (plain_event t) = Some [s; 0x00]
                 ∧ (0xF4 ≤ s ≤ 0xFE ∧ s ≠ 0xF7)
                 ∧ parse_midi_command [s] 1 = plain_event t) as (s & Henc & [Hs H7] & Hdec).
    { destruct Ht as [-> |[-> |[-> |[-> |[-> | ->]]]]];
        [exists 0xF6|exists 0xF8|exists 0xFA|exists 0xFB|exists 0xFC|exists 0xFE];
        (split; [reflexivity|]); (split; [lia|reflexivity]). }
    exists [s; 0x00]. split; [done|]. rewrite <- Hdec.
    by apply data_less_frame_delivered.
  - set (block := 0xF0 :: payload ++ [0xF7]).
    assert (Forall (λ v, 0 ≤ v < 256) block) as Hbytes.
    { subst block. constructor; [lia|]. apply Forall_app. split; [|by repeat constructor].
      eapply Forall_impl; [|exact Hp]. unfold data_byte. intros; simpl in *. lia. }
    assert ((λ v, Z.land v 0xFF) <$> block = block) as Hmask.
    { clear -Hbytes. induction Hbytes as [|v l Hv _ IH]; [done|].
      rewrite fmap_cons, IH. by rewrite land_FF_byte. }
    assert (length block = S (length payload + 1)) as Hlen
      by (subst block; simpl; by rewrite length_app).
    exists block. split.
    + unfold encode.
      destruct (sysex_copy_in_bounds (locals stack) (sysex_event block)) as [_ Hw];
        [done|done|].
      change (ext (sysex_event block)) with block in Hw.
      rewrite Hw by lia. by rewrite Hmask.
    + apply sysex_block_delivered; [done|done|unfold BUF_SIZE; lia].
Qed.

(** * Further properties of the thread [read_midi_from_alsa] *)

(** X17.  Events that come one per wake-up are each encoded with fresh
    locals: whatever the timeouts in between, the thread stays inside its
    arrays and writes, in order, one frame per event, which the decoder
    turns back into that event (song position apart, which is not within
    [in_range]).  What one event leaves in [bytes] and [sysex_len] does
    not reach the next call. *)
Theorem events_one_per_wake_up_are_written_apart polls rest :
  Forall one_event_in_range polls →
  ∃ wires, read_midi_from_alsa polls = Some wires
         ∧ Forall2 (λ wire ev, decode wire rest = ev) wires (polls ≫= queued).
Proof.
  induction polls as [|p polls IH]; intros Hpolls.
  - exists []. split; [done|constructor].
  - inversion Hpolls as [|? ? Hp Hpolls']; subst.
    destruct (IH Hpolls') as (wires & Hw & Hdec).
    destruct p as [|stack ev pending].
    + exists wires. by split.
    + destruct Hp as (Hstack & Hev & ->).
      destruct (in_range_encode_decode ev stack rest Hev Hstack) as (wire & Henc & Hwire).
      exists (wire :: wires). split.
      * cbn [read_midi_from_alsa]. rewrite Hw.
        unfold write_midi_action_to_serial_port. cbn [drain].
        unfold encode in Henc.
        destruct (write_event (locals stack) ev) as [[w out]|]; [|done].
        injection Henc as ->. reflexivity.
      * cbn [mbind list_bind queued app]. by constructor.
Qed.

(** * Further properties of the command line *)

Lemma c_string_app_nul src l :
  Forall (λ c, c ≠ 0) src → c_string (src ++ 0 :: l) = Some src.
Proof.
  induction 1 as [|c src Hc _ IH]; cbn [app c_string].
  - by rewrite bool_decide_eq_true_2.
  - rewrite bool_decide_eq_false_2 by done. by rewrite IH.
Qed.

Lemma c_string_no_nul l : Forall (λ c, c ≠ 0) l → c_string l = None.
Proof.
  induction 1 as [|c l Hc _ IH]; cbn [c_string]; [done|].
  rewrite bool_decide_eq_false_2 by done. by rewrite IH.
Qed.

Lemma strncpy_c_string dest src n :
  Forall (λ c, c ≠ 0) src → length dest = n →
  c_string (strncpy dest src n)
  = if decide (length src < n)%nat then Some src else None.
Proof.
  intros Hsrc Hdest. unfold strncpy.
  rewrite drop_ge, app_nil_r by lia.
  destruct (decide (length src < n)%nat) as [Hlt|Hge].
  - rewrite take_app_ge by lia. rewrite take_replicate.
    replace (Nat.min (n - length src) n) with (S (n - length src - 1)) by lia.
    cbn [replicate]. by apply c_string_app_nul.
  - rewrite take_app_le by lia. apply c_string_no_nul. by apply Forall_take.
Qed.

Lemma length_strncpy dest src n :
  (n ≤ length dest)%nat → length (strncpy dest src n) = length dest.
Proof.
  intros Hn. unfold strncpy.
  rewrite length_app, length_take, length_app, length_replicate, length_drop. lia.
Qed.

(** X18.  The two names [main] reads from the options.  After
    [arg_set_defaults] they are the terminated strings "/dev/ttyUSB0" and
    "ttymidi".  An option -s or -n replaces its name, and leaves the
    other alone, but only a name shorter than [MAX_DEV_STR_LEN]
    characters is stored with its NUL: from 32 characters on, the array
    holds the first 32 and no NUL, and who reads the name runs off its
    end. *)
Theorem names_from_the_command_line strtol a arg :
  length (serialdevice a) = MAX_DEV_STR_LEN → length (name a) = MAX_DEV_STR_LEN →
  Forall (λ c, c ≠ 0) arg →
  let d := arg_set_defaults a in
  let stored := if decide (length arg < MAX_DEV_STR_LEN)%nat then Some arg else None in
  c_string (serialdevice d) = Some serialdevice_temp
  ∧ c_string (name d) = Some name_tmp
  ∧ (∃ a', parse_opt strtol 0x73 (Some arg) d = Returns 0 a'
           ∧ c_string (serialdevice a') = stored ∧ name a' = name d)
  ∧ (∃ a', parse_opt strtol 0x6E (Some arg) d = Returns 0 a'
           ∧ c_string (name a') = stored ∧ serialdevice a' = serialdevice d).
Proof.
  intros Hdev Hname Harg d stored.
  assert (length (serialdevice d) = MAX_DEV_STR_LEN) as Hdev'
    by (subst d; cbn [arg_set_defaults serialdevice]; by rewrite length_strncpy by lia).
  assert (length (name d) = MAX_DEV_STR_LEN) as Hname'
    by (subst d; cbn [arg_set_defaults name]; by rewrite length_strncpy by lia).
  split; [|split; [|split]].
  - subst d. cbn [arg_set_defaults serialdevice].
    rewrite strncpy_c_string; [done| |done].
    unfold serialdevice_temp. repeat constructor; lia.
  - subst d. cbn [arg_set_defaults name].
    rewrite strncpy_c_string; [done| |done].
    unfold name_tmp. repeat constructor; lia.
  - eexists. split; [reflexivity|]. cbn [serialdevice name].
    split; [|done]. by apply strncpy_c_string.
  - eexists. split; [reflexivity|]. cbn [serialdevice name].
    split; [|done]. by apply strncpy_c_string.
Qed.

(** * A sysex event and the events read after it in the same call *)

Lemma switch_type_keeps_sysex w ev :
  type ev ≠ SND_SEQ_EVENT_SYSEX →
  ∃ w', switch_type w ev = Some w'
        ∧ sysex_data w' = sysex_data w ∧ sysex_len w' = sysex_len w.
Proof.
  intros Ht. unfold switch_type.
  destruct (type ev); try done; eexists; (split; [reflexivity|]); done.
Qed.

Lemma drain_resends evs : ∀ w,
  (0 < sysex_len w)%nat → Forall (λ ev, type ev ≠ SND_SEQ_EVENT_SYSEX) evs →
  drain w evs = Some (replicate (length evs) (take (sysex_len w) (sysex_data w))).
Proof.
  induction evs as [|ev evs IH]; intros w Hlen Hevs; [done|].
  inversion Hevs as [|? ? Hev Hevs']; subst.
  destruct (switch_type_keeps_sysex w ev Hev) as (w' & Hsw & Hdata & Hl).
  cbn [drain]. unfold write_event. rewrite Hsw. cbn [mbind option_bind].
  unfold write_stage. rewrite bool_decide_eq_true_2 by lia.
  rewrite IH by (done || lia). cbn [mbind option_bind length replicate].
  by rewrite Hdata, Hl.
Qed.

(** X19.  [sysex_len] is set by a sysex event and never cleared: every
    event read after a sysex event in the same call, whatever its type
    but sysex, makes the thread write the sysex block again instead of
    its own bytes. *)
Theorem sysex_block_is_written_again_for_later_events stack ev evs :
  type ev = SND_SEQ_EVENT_SYSEX → length stack = 256%nat →
  (0 < length (ext ev) ≤ 256)%nat →
  Forall (λ e, type e ≠ SND_SEQ_EVENT_SYSEX) evs →
  write_midi_action_to_serial_port stack ev evs
  = Some (replicate (S (length evs)) ((λ v, Z.land v 0xFF) <$> ext ev)).
Proof.
  intros Ht Hstack Hlen Hevs.
  unfold write_midi_action_to_serial_port. cbn [drain].
  unfold write_event, switch_type. rewrite Ht.
  cbn [locals sysex_data bytes].
  rewrite copy_sysex_inside by (simpl; lia). cbn [mbind option_bind].
  set (block := (λ v, Z.land v 0xFF) <$> ext ev).
  assert (length block = length (ext ev)) as Hblock by (subst block; by rewrite length_fmap).
  assert (take (length (ext ev)) (list_inserts 0 block stack) = block) as Htake.
  { rewrite <- Hblock. change (length block) with (0 + length block)%nat.
    rewrite take_list_inserts by (simpl; lia). reflexivity. }
  unfold write_stage. cbn [sysex_len sysex_data].
  rewrite bool_decide_eq_true_2 by lia.
  rewrite drain_resends by (done || cbn [sysex_len]; lia).
  cbn [mbind option_bind sysex_len sysex_data replicate]. by rewrite Htake.
Qed.

(** * The options and what reaches the sequencer *)

Lemma step_whatever_the_options a1 a2 delivered st c :
  (step a1 delivered st c).1 = (step a2 delivered st c).1
  ∧ sink_events (step a1 delivered st c).2 = sink_events (step a2 delivered st c).2.
Proof.
  destruct st as [b s]. unfold step. cbn [site buf].
  destruct s as [| |i bl| |msglen due msg]; try done.
  - case_bool_decide; [|done]. unfold text_done.
    by destruct (silent a1), (silent a2).
  - case_bool_decide; [|done]. unfold text_done.
    by destruct (silent a1), (silent a2).
Qed.

(** X20.  The options -q and -v change what the thread prints and
    nothing else: with the same input it is at the same read with the
    same [buf], and the sink has received the same events. *)
Theorem quiet_and_verbose_change_nothing_sent a1 a2 delivered stack input :
  printonly a1 = printonly a2 →
  (read_midi_from_serial_port a1 delivered stack input).1
  = (read_midi_from_serial_port a2 delivered stack input).1
  ∧ sink_events (read_midi_from_serial_port a1 delivered stack input).2
    = sink_events (read_midi_from_serial_port a2 delivered stack input).2.
Proof.
  intros Hp. unfold read_midi_from_serial_port, start. rewrite Hp.
  generalize (Framer stack (if printonly a2 then PrintOnly else FastForward)).
  induction input as [|c input IH]; intros st; [done|].
  rewrite !run_cons. cbn [fst snd]. rewrite !sink_events_app_bind.
  destruct (step_whatever_the_options a1 a2 delivered st c) as [-> ->].
  destruct (IH (step a2 delivered st c).1) as [-> ->]. done.
Qed.

(** * The sysex events the sink receives *)

Lemma take_drop_insert (b : list Z) i x :
  take (i - 1) (drop 1 (<[i := x]> b)) = take (i - 1) (drop 1 b).
Proof.
  destruct i as [|i]; [done|].
  rewrite drop_insert_ge by lia. by rewrite take_insert_ge by lia.
Qed.

Lemma take_drop_snoc (b : list Z) i x :
  (1 ≤ i < length b)%nat →
  take i (drop 1 (<[i := x]> b)) = take (i - 1) (drop 1 b) ++ [x]
  ∧ drop 1 (<[i := x]> b) !! (i - 1)%nat = Some x.
Proof.
  intros Hi. destruct i as [|i]; [lia|].
  rewrite drop_insert_ge by lia. replace (S i - 1)%nat with i by lia.
  assert (<[i := x]> (drop 1 b) !! i = Some x) as Hx
    by (apply list_lookup_insert_eq; rewrite length_drop; lia).
  split; [|done].
  rewrite (take_S_r _ _ x) by done. by rewrite take_insert_ge by lia.
Qed.

Lemma after_align_sysex b i :
  sysex_frame_ok (Parse b i) →
  sysex_inv (after_align b i).1 ∧ Forall sysex_frame_ok (after_align b i).2.
Proof.
  intros Hb. unfold after_align. case_bool_decide; cbn [fst snd].
  - split; [done|constructor].
  - split; [|constructor; [exact Hb|constructor]].
    unfold sysex_inv, loop_top. cbn [site buf]. intros _. constructor.
Qed.

Lemma step_sysex_inv args delivered st c :
  framer_inv st → sysex_inv st →
  sysex_inv (step args delivered st c).1
  ∧ Forall sysex_frame_ok (step args delivered st c).2.
Proof.
  destruct st as [b s]. intros [Hl Hf] Hc. cbn [site buf] in *.
  unfold sysex_inv in Hc. cbn [site buf] in Hc.
  pose proof (land_FF_range c) as Hr.
  assert (∀ b', sysex_inv (loop_top b')) as Htop.
  { intros b'. unfold sysex_inv, loop_top. cbn [site buf]. intros _. constructor. }
  unfold step. cbn [site buf]. destruct s as [| |i bl| |msglen due msg].
  - case_bool_decide; (split; [|constructor]); [done|apply Htop].
  - split; [done|]. by repeat constructor.
  - destruct Hf as (Hi & Hbl & _). unfold BUF_SIZE in Hl, Hbl.
    unfold align_body.
    set (b1 := <[i := Z.land c 255]> b).
    assert (b1 !!! 0%nat = b !!! 0%nat) as H0
      by (subst b1; apply list_lookup_total_insert_ne; lia).
    assert (b1 !!! i = Z.land c 255) as Hi1
      by (subst b1; apply list_lookup_total_insert_eq; lia).
    destruct (take_drop_snoc b i (Z.land c 255)) as [Hsnoc Hlast]; [lia|].
    fold b1 in Hsnoc, Hlast.
    rewrite Hi1, H0.
    case_bool_decide as Hst.
    + (* a status byte *)
      case_bool_decide as Hend.
      * (* the 0xF7 that closes a block *)
        destruct Hend as [H7 HF0]. apply after_align_sysex.
        unfold sysex_frame_ok. intros _. split; [unfold BUF_SIZE; lia|]. right.
        split; [lia|]. replace (i + 1 - 2)%nat with (i - 1)%nat by lia.
        split; [|by rewrite Hlast, H7].
        subst b1. rewrite take_drop_insert. by apply Hc.
      * set (b2 := <[0%nat := Z.land c 255]> b1).
        assert (b2 !!! 0%nat = Z.land c 255) as H02.
        { subst b2 b1. apply list_lookup_total_insert_eq. rewrite length_insert. lia. }
        fold b2. clearbody b2. rewrite H02. unfold align_test.
        destruct (status_bytesleft_cases (Z.land c 255) bl) as [[Hn Hs]|[[-> Hs]|[-> Hs]]].
        -- rewrite bool_decide_eq_false_2 by lia. apply after_align_sysex.
           unfold sysex_frame_ok. rewrite H02. intros ?. lia.
        -- rewrite bool_decide_eq_true_2 by lia.
           split; [|constructor]. unfold sysex_inv. cbn [fst snd site buf].
           intros _. constructor.
        -- rewrite bool_decide_eq_true_2 by lia.
           split; [|constructor]. unfold sysex_inv. cbn [fst snd site buf].
           intros _. constructor.
    + (* a data byte *)
      assert (data_byte (Z.land c 255)) as Hd.
      { unfold data_byte. rewrite shiftr_7 in Hst. Z.div_mod_to_equations. lia. }
      unfold align_test.
      destruct (data_i_cases (b !!! 0%nat) i) as [[HF0 ->]|(HF0 & _)].
      * assert (Forall data_byte (take i (drop 1 b1))) as Hdata.
        { rewrite Hsnoc. apply Forall_app. split; [by apply Hc|].
          constructor; [done|constructor]. }
        case_bool_decide.
        -- split; [|constructor]. unfold sysex_inv. cbn [fst snd site buf].
           intros _. by replace (i + 1 - 1)%nat with i by lia.
        -- apply after_align_sysex. unfold sysex_frame_ok. intros _.
           split; [unfold BUF_SIZE; lia|]. left.
           by replace (i + 1 - 1)%nat with i by lia.
      * case_bool_decide.
        -- split; [|constructor]. unfold sysex_inv. cbn [fst snd site buf].
           rewrite H0. intros ?. done.
        -- apply after_align_sysex. unfold sysex_frame_ok. rewrite H0. intros ?. done.
  - case_bool_decide.
    + unfold text_done. split; [apply Htop|]. destruct (silent args); by repeat constructor.
    + by split.
  - case_bool_decide.
    + unfold text_done. split; [apply Htop|]. destruct (silent args); by repeat constructor.
    + by split.
Qed.

Lemma sysex_type_status b n :
  0 ≤ b !!! 0%nat < 256 → type (parse_midi_command b n) = SND_SEQ_EVENT_SYSEX →
  b !!! 0%nat = 0xF0.
Proof.
  intros Hr. destruct (nibbles (b !!! 0%nat) Hr) as [Hop Hch].
  unfold parse_midi_command. cbv zeta.
  destruct (Z.land (b !!! 0%nat) 0xF0) as [|p|p] eqn:Hp; [done| |done].
  do 8 (try destruct p as [p|p|]); try done.
  destruct (Z.land (b !!! 0%nat) 0x0F) as [|q|q] eqn:Hq; try done.
  - intros _. Z.div_mod_to_equations. lia.
  - do 4 (try destruct q as [q|q|]); done.
Qed.

Lemma parse_midi_command_sysex_ok b n :
  status_byte (b !!! 0%nat) → sysex_frame_ok (Parse b n) →
  sysex_event_ok (parse_midi_command b n).
Proof.
  intros Hst Hb Ht. apply sysex_type_status in Ht as H0; [|unfold status_byte in Hst; lia].
  rewrite parse_midi_command_sysex by done. cbn [ext sysex_event].
  destruct (Hb H0) as [Hn Hdata].
  destruct b as [|x b]; [done|]. change ((x :: b) !!! 0%nat) with x in H0. subst x.
  cbn [drop] in Hdata. rewrite drop_0 in Hdata.
  destruct n as [|n]; [lia|]. cbn [take].
  replace (S n - 1)%nat with n in Hdata by lia.
  destruct Hdata as [Hdata|(Hn2 & Hdata & H7)].
  - exists (take n b). split; [done|]. split; [|by left].
    rewrite length_take. lia.
  - destruct n as [|n]; [lia|]. replace (S (S n) - 2)%nat with n in * by lia.
    exists (take n b). split; [done|]. split; [rewrite length_take; lia|]. right.
    by rewrite (take_S_r _ _ 0xF7).
Qed.

(** X21.  A sysex event the thread sends to the sequencer is never
    malformed: its block begins with 0xF0, goes on with data bytes only
    (no more than [BUF_SIZE - 2] of them) and either stops there or ends
    with 0xF7.  No status byte gets inside a block. *)
Theorem sysex_events_are_well_formed args delivered stack input :
  length stack = BUF_SIZE →
  Forall sysex_event_ok
    (sink_events (read_midi_from_serial_port args delivered stack input).2).
Proof.
  intros Hl. unfold read_midi_from_serial_port.
  assert (framer_inv (start args stack)) as Hf by (by apply start_inv).
  assert (sysex_inv (start args stack)) as Hc
    by (unfold sysex_inv, start; cbn [site]; by destruct (printonly args)).
  revert Hf Hc. generalize (start args stack).
  induction input as [|c input IH]; intros st Hf Hc; [constructor|].
  rewrite run_cons. cbn [snd]. rewrite sink_events_app_bind.
  destruct (step_inv args delivered st c Hf) as [Hf' Hs].
  destruct (step_sysex_inv args delivered st c Hf Hc) as [Hc' Hch].
  apply Forall_app. split; [|by apply IH].
  revert Hs Hch. generalize (step args delivered st c).2. intros out Hs Hch.
  induction out as [|a out IHout]; [constructor|].
  inversion Hs as [|? ? Ha Hs']; inversion Hch as [|? ? Hca Hch']; subst.
  destruct a as [b n|n msg|x]; [|by apply IHout..].
  rewrite sink_events_cons_parse. constructor; [|by apply IHout].
  by apply parse_midi_command_sysex_ok.
Qed.

(** * The claims that depend on what came before *)

(** ** What the thread has sent after a stretch of input *)

Lemma read_app args delivered stack pre input :
  (read_midi_from_serial_port args delivered stack (pre ++ input)).2
  = (read_midi_from_serial_port args delivered stack pre).2
    ++ (run args delivered (read_midi_from_serial_port args delivered stack pre).1 input).2.
Proof. unfold read_midi_from_serial_port. by rewrite run_app. Qed.

Lemma sent_app args delivered stack pre input :
  sink_events (read_midi_from_serial_port args delivered stack (pre ++ input)).2
  = sink_events (read_midi_from_serial_port args delivered stack pre).2
    ++ sink_events
         (run args delivered (read_midi_from_serial_port args delivered stack pre).1
            input).2.
Proof. by rewrite read_app, sink_events_app_bind. Qed.

Lemma read_inv args delivered stack pre :
  length stack = BUF_SIZE →
  framer_inv (read_midi_from_serial_port args delivered stack pre).1.
Proof.
  intros Hl. unfold read_midi_from_serial_port. apply run_inv. by apply start_inv.
Qed.

Lemma channel_frame_sent args delivered b i bl s d1 d2 :
  (1 ≤ i < length b)%nat → (3 ≤ length b)%nat →
  channel_status s → ¬ one_data_status s → data_byte d1 → data_byte d2 →
  sink_events (run args delivered (Framer b (Align i bl)) [s; d1; d2]).2
    = [parse_midi_command [s; d1; d2] 3].
Proof.
  intros Hi Hl Hs Hone Hd1 Hd2. rewrite channel_frame_3 by done.
  cbn [snd]. rewrite sink_events_cons_parse, sink_events_nil. f_equal.
  destruct (lookup_frame3 (<[i := s]> b) s d1 d2) as (H0 & H1 & H2);
    [by rewrite length_insert|].
  rewrite parse_midi_command_prefix; rewrite H0; [by rewrite H1, H2|].
  left. unfold channel_status in Hs.
  destruct (nibbles s) as [-> _]; [lia|]. Z.div_mod_to_equations. lia.
Qed.

(** ** A sysex block, by the read at which its 0xF0 arrives *)

Lemma enter_sysex args delivered st :
  framer_inv st → whole_buffer_left st →
  ∃ b1, step args delivered st 0xF0 = (Framer b1 (Align 1 (BUF_SIZE - 1)), [])
        ∧ length b1 = BUF_SIZE ∧ b1 !!! 0%nat = 0xF0.
Proof.
  destruct st as [b site0]. intros [Hl Hinv] Hwhole.
  unfold whole_buffer_left in Hwhole. cbn [buf site] in *.
  assert (length b = 1024%nat) as Hl' by exact Hl.
  destruct Hwhole as [-> |[i ->]].
  - exists (<[0%nat := 0xF0]> b).
    rewrite step_fast_forward_status by (lia || unfold status_byte; lia).
    split; [done|]. split; [by rewrite length_insert|].
    apply list_lookup_total_insert_eq. lia.
  - destruct Hinv as (Hi & _ & _). unfold BUF_SIZE in Hi.
    exists (<[0%nat := 0xF0]> (<[i := 0xF0]> b)).
    rewrite sysex_start by lia. split; [done|].
    split; [by rewrite !length_insert|].
    apply list_lookup_total_insert_eq. rewrite length_insert. lia.
Qed.

Lemma sysex_block_taken (b : list Z) block :
  b !!! 0%nat = 0xF0 → (1 + length block ≤ length b)%nat →
  take (1 + length block) (list_inserts 1 block b) = 0xF0 :: block.
Proof.
  intros H0 Hl. rewrite take_list_inserts by lia.
  destruct b as [|x b]; [simpl in Hl; lia|].
  change ((x :: b) !!! 0%nat) with x in H0. by subst x.
Qed.

Lemma full_buffer_sysex args delivered st ds :
  framer_inv st → whole_buffer_left st →
  length ds = (BUF_SIZE - 2)%nat → Forall data_byte ds →
  ∃ b', run args delivered st (0xF0 :: ds) = (loop_top b', [Parse b' (BUF_SIZE - 1)])
        ∧ parse_midi_command b' (BUF_SIZE - 1) = sysex_event (0xF0 :: ds)
        ∧ length b' = BUF_SIZE.
Proof.
  intros Hinv Hwhole Hn Hds.
  destruct (enter_sysex args delivered st Hinv Hwhole) as (b1 & Hstep & Hl1 & H0).
  destruct ds as [|d0 ds0] using rev_ind; [unfold BUF_SIZE in Hn; simpl in Hn; lia|].
  clear IHds0. rewrite length_app in Hn. simpl in Hn.
  apply Forall_app in Hds as [Hds0 Hd0]. inversion Hd0; subst.
  exists (list_inserts 1 (ds0 ++ [d0]) b1).
  rewrite run_cons, Hstep. cbn [fst snd app].
  rewrite sysex_full by (done || unfold BUF_SIZE in *; lia). cbn zeta.
  split; [done|]. split; [|by rewrite length_inserts].
  rewrite parse_midi_command_sysex by (by rewrite list_lookup_total_inserts_lt by lia).
  f_equal.
  replace (BUF_SIZE - 1)%nat with (1 + length (ds0 ++ [d0]))%nat
    by (rewrite length_app; simpl; lia).
  apply sysex_block_taken; [done|].
  rewrite length_app. simpl. unfold BUF_SIZE in *. lia.
Qed.

Lemma whole_sysex args delivered st ds :
  framer_inv st → whole_buffer_left st →
  Forall data_byte ds → (length ds ≤ BUF_SIZE - 3)%nat →
  sink_events (run args delivered st (0xF0 :: ds ++ [0xF7])).2
  = [sysex_event (0xF0 :: ds ++ [0xF7])].
Proof.
  intros Hinv Hwhole Hds Hn.
  destruct (enter_sysex args delivered st Hinv Hwhole) as (b1 & Hstep & Hl1 & H0).
  rewrite run_cons, Hstep. cbn [fst snd app].
  rewrite sysex_whole by (done || unfold BUF_SIZE in *; lia). cbn zeta. cbn [snd].
  rewrite sink_events_cons_parse, sink_events_nil. f_equal.
  rewrite parse_midi_command_sysex by (by rewrite list_lookup_total_inserts_lt by lia).
  f_equal.
  replace (1 + length ds + 1)%nat with (1 + length (ds ++ [0xF7%Z]))%nat
    by (rewrite length_app; simpl; lia).
  apply sysex_block_taken; [done|].
  rewrite length_app. simpl. unfold BUF_SIZE in *. lia.
Qed.

(** A 0xF0 read while [bytesleft] is 3. *)
Lemma sysex_cut_at_three args delivered b i d1 d2 :
  length b = BUF_SIZE → (1 ≤ i < 3)%nat → data_byte d1 → data_byte d2 →
  sink_events (run args delivered (Framer b (Align i 3)) [0xF0; d1; d2]).2
  = [sysex_event [0xF0; d1; d2]].
Proof.
  intros Hl Hi Hd1 Hd2. assert (length b = 1024%nat) as Hl' by exact Hl.
  rewrite run_cons.
  rewrite step_align_status; [|lia|unfold status_byte; lia|lia].
  change (status_bytesleft 0xF0 3) with 3%nat. rewrite align_test_more by lia.
  cbn [fst snd app].
  set (b2 := <[0%nat := 0xF0]> (<[i := 0xF0]> b)).
  assert (length b2 = 1024%nat) as Hl2 by (subst b2; by rewrite !length_insert).
  assert (b2 !!! 0%nat = 0xF0) as H02
    by (subst b2; apply list_lookup_total_insert_eq; rewrite length_insert; lia).
  clearbody b2.
  rewrite run_cons. rewrite step_align_data by (done || lia).
  rewrite H02. change (data_i 0xF0 1) with 2%nat. rewrite align_test_more by lia.
  cbn [fst snd app].
  set (b3 := <[1%nat := d1]> b2).
  assert (length b3 = 1024%nat) as Hl3 by (subst b3; by rewrite length_insert).
  assert (b3 !!! 0%nat = 0xF0) as H03
    by (subst b3; by rewrite list_lookup_total_insert_ne by lia).
  rewrite run_cons. rewrite step_align_data by (done || lia).
  rewrite H03. change (data_i 0xF0 2) with 3%nat.
  set (b4 := <[2%nat := d2]> b3).
  assert (b4 !!! 0%nat = 0xF0) as H04
    by (subst b4; by rewrite list_lookup_total_insert_ne by lia).
  rewrite align_test_done by (lia || rewrite H04; lia).
  cbn [fst snd app run]. rewrite sink_events_cons_parse, sink_events_nil. f_equal.
  rewrite parse_midi_command_sysex by done. f_equal.
  subst b4 b3. clear -Hl2 H02.
  destruct b2 as [|x0 [|x1 [|x2 b2]]]; simpl in Hl2; try lia.
  change ((x0 :: x1 :: x2 :: b2) !!! 0%nat) with x0 in H02. by subst x0.
Qed.


(** ** A frame interrupted by a real-time byte *)

Lemma clock_after_status args delivered b i bl s input :
  length b = BUF_SIZE → (1 ≤ i < BUF_SIZE)%nat → channel_status s →
  let b2 := <[0%nat := 0xF8]> (<[1%nat := 0xF8]> (<[0%nat := s]> (<[i := s]> b))) in
  run args delivered (Framer b (Align i bl)) (s :: 0xF8 :: input)
  = ((run args delivered (loop_top b2) input).1,
     Parse b2 1 :: (run args delivered (loop_top b2) input).2)
  ∧ parse_midi_command b2 1 = plain_event SND_SEQ_EVENT_CLOCK
  ∧ length b2 = BUF_SIZE ∧ b2 !!! 0%nat = 0xF8.
Proof.
  intros Hl Hi Hs. assert (length b = 1024%nat) as Hl' by exact Hl.
  unfold BUF_SIZE in Hi. unfold channel_status in Hs.
  set (b1 := <[0%nat := s]> (<[i := s]> b)).
  assert (length b1 = 1024%nat) as Hl1 by (subst b1; by rewrite !length_insert).
  intros b2.
  assert (length b2 = 1024%nat) as Hl2 by (subst b2; by rewrite !length_insert).
  assert (b2 !!! 0%nat = 0xF8) as H02
    by (subst b2; apply list_lookup_total_insert_eq; rewrite length_insert; lia).
  split; [|split; [|done]].
  - rewrite run_cons.
    rewrite step_align_status; [|lia|unfold status_byte; lia|lia].
    rewrite status_bytesleft_channel by done. rewrite align_test_more by lia.
    fold b1. cbn [fst snd app].
    rewrite run_cons.
    rewrite step_immediate; [|lia|lia|lia]. cbn zeta. fold b2. reflexivity.
  - rewrite parse_midi_command_prefix; rewrite H02; [done|by right].
Qed.


(** ** An event and the events read before it in the same call *)

Lemma switch_type_other w ev :
  type ev ≠ SND_SEQ_EVENT_SYSEX →
  ∃ w', switch_type w ev = Some w'
        ∧ sysex_data w' = sysex_data w ∧ sysex_len w' = sysex_len w
        ∧ length (bytes w') = length (bytes w).
Proof.
  intros Ht. unfold switch_type.
  destruct (type ev); try done; eexists; (split; [reflexivity|]);
    unfold bytes012, bytes01, bytes0, set_bytes; cbn [bytes sysex_data sysex_len];
    by rewrite ?length_insert.
Qed.

Lemma write_stage_keeps w :
  sysex_data (write_stage w).1 = sysex_data w
  ∧ sysex_len (write_stage w).1 = sysex_len w
  ∧ length (bytes (write_stage w).1) = length (bytes w).
Proof.
  unfold write_stage. repeat case_bool_decide; unfold set_bytes;
    cbn [fst bytes sysex_data sysex_len]; by rewrite ?length_insert.
Qed.

(** The events before the last, when none of them is a sysex event:
    each of them is written, and they leave [sysex_data] and [sysex_len]
    as they found them. *)
Lemma drain_after before : ∀ w,
  no_sysex_event before →
  ∃ w' outs, length outs = length before
           ∧ sysex_data w' = sysex_data w ∧ sysex_len w' = sysex_len w
           ∧ length (bytes w') = length (bytes w)
           ∧ ∀ evs, drain w (before ++ evs) = (outs ++.) <$> drain w' evs.
Proof.
  induction before as [|ev before IH]; intros w Hbefore.
  - exists w, []. repeat split; try done. intros evs. cbn [app].
    by destruct (drain w evs).
  - inversion Hbefore as [|? ? Hev Hbefore']; subst.
    destruct (switch_type_other w ev Hev) as (w1 & Hsw & Hd1 & Hl1 & Hb1).
    destruct (write_stage_keeps w1) as (Hd2 & Hl2 & Hb2).
    destruct (IH (write_stage w1).1 Hbefore') as (w' & outs & Hlen & Hd & Hl & Hb & Hdrain).
    exists w', ((write_stage w1).2 :: outs).
    split; [simpl; by rewrite Hlen|]. split; [congruence|]. split; [congruence|].
    split; [congruence|]. intros evs.
    cbn [app drain]. unfold write_event. rewrite Hsw. cbn [mbind option_bind].
    destruct (write_stage w1) as [w2 out]. cbn [fst snd] in *.
    rewrite Hdrain. by destruct (drain w' evs).
Qed.

(** C9, as amended.  In a call in which no sysex event has been read,
    a channel voice event of a kind that has two data bytes (channel
    0..15) is written as status byte and first data byte only when the
    value that goes to [bytes[2]] is 0xFF, and as three bytes otherwise:
    the length of the frame follows the value, not the kind. *)
Theorem second_data_FF_shortens_frame stack first rest before ev op d1 d2 :
  first :: rest = before ++ [ev] → no_sysex_event before →
  two_data_bytes ev = Some (op, d1, d2) → 0 ≤ channel ev ≤ 15 →
  (uchar d2 = 0xFF →
   drop (length before) <$> write_midi_action_to_serial_port stack first rest
   = Some [[op + channel ev; Z.land (uchar d1) 0x7F]])
  ∧ (uchar d2 ≠ 0xFF →
     drop (length before) <$> write_midi_action_to_serial_port stack first rest
     = Some [[op + channel ev; Z.land (uchar d1) 0x7F; Z.land (uchar d2) 0x7F]]).
Proof.
  intros Hqueue Hbefore Hev Hch.
  unfold write_midi_action_to_serial_port. rewrite Hqueue.
  destruct (drain_after before (locals stack) Hbefore)
    as (w' & outs & Hlen & _ & Hl & Hb & Hdrain).
  rewrite Hdrain. cbn [drain].
  pose proof (write_two_data_event w' ev op d1 d2 (conj Hb Hl) Hev Hch) as Hw.
  destruct (write_event w' ev) as [[w'' out]|]; [|done].
  cbn [fmap option_fmap option_map snd] in Hw. injection Hw as ->.
  cbn [mbind option_bind fmap option_fmap option_map].
  rewrite <- Hlen, drop_app_length.
  split; intros Hd2; by destruct (decide (uchar d2 = 0xFF)).
Qed.

(** C10, as amended.  Outbound, the block of a sysex event is copied
    to [sysex_data[256]] with no test of its length, so the call stays
    inside the array exactly when the block has at most 256 bytes (the
    write is then the block); inbound, the framing loop hands the sink
    whole blocks of up to [BUF_SIZE - 1 = 1023] bytes, 0xF0 and 0xF7
    counted, when the 0xF0 is read while [bytesleft] is
    [BUF_SIZE - 1]. *)
Theorem sysex_size_bounds
    args delivered stack first rest before ev stack' pre ds :
  first :: rest = before ++ [ev] → no_sysex_event before →
  type ev = SND_SEQ_EVENT_SYSEX → length stack = 256%nat →
  length stack' = BUF_SIZE →
  whole_buffer_left (read_midi_from_serial_port args delivered stack' pre).1 →
  Forall data_byte ds → (length ds ≤ BUF_SIZE - 3)%nat →
  (is_Some (write_midi_action_to_serial_port stack first rest)
   ↔ (length (ext ev) ≤ 256)%nat)
  ∧ ((0 < length (ext ev) ≤ 256)%nat →
     drop (length before) <$> write_midi_action_to_serial_port stack first rest
     = Some [(λ v, Z.land v 0xFF) <$> ext ev])
  ∧ sink_events (read_midi_from_serial_port args delivered stack'
                   (pre ++ 0xF0 :: ds ++ [0xF7])).2
    = sink_events (read_midi_from_serial_port args delivered stack' pre).2
      ++ [sysex_event (0xF0 :: ds ++ [0xF7])].
Proof.
  intros Hqueue Hbefore Ht Hstack Hl Hwhole Hds Hn.
  unfold write_midi_action_to_serial_port. rewrite Hqueue.
  destruct (drain_after before (locals stack) Hbefore)
    as (w' & outs & Hlen & Hdata & _ & _ & Hdrain).
  rewrite Hdrain. cbn [drain].
  assert (length (sysex_data w') = 256%nat) as Hw' by (by rewrite Hdata).
  destruct (sysex_copy_in_bounds w' ev Ht Hw') as [Hsome Hblock].
  split; [|split].
  - rewrite <- Hsome, fmap_is_Some.
    destruct (write_event w' ev) as [[w'' out]|]; cbn [mbind option_bind];
      split; intros [x Hx]; by eauto.
  - intros Hext. specialize (Hblock Hext).
    destruct (write_event w' ev) as [[w'' out]|]; [|done].
    cbn [fmap option_fmap option_map snd] in Hblock. injection Hblock as ->.
    cbn [mbind option_bind fmap option_fmap option_map].
    by rewrite <- Hlen, drop_app_length.
  - rewrite sent_app. f_equal.
    apply whole_sysex; [by apply read_inv|done..].
Qed.

(** * The further properties at concrete inputs *)

Lemma framing_loop_stays_inside_buf_witness :
  let st := (read_midi_from_serial_port (bridging false false) (λ n, n)
               (replicate BUF_SIZE 0) [0x90; 0x40]).1 in
  length (buf st) = BUF_SIZE
  ∧ ∀ i bytesleft, site st = Align i bytesleft → (1 ≤ i ≤ BUF_SIZE - 2)%nat.
Proof.
  apply (framing_loop_stays_inside_buf (bridging false false) (λ n, n)
           (replicate BUF_SIZE 0) [0x90; 0x40]).
  reflexivity.
Defined.

Lemma leading_data_bytes_are_skipped_witness :
  read_midi_from_serial_port (bridging false false) (λ n, n) (replicate BUF_SIZE 0)
    ([0x40; 0x7F] ++ 0x90 :: [0x41; 0x7F])
  = read_midi_from_serial_port (bridging false false) (λ n, n) (replicate BUF_SIZE 0)
      (0x90 :: [0x41; 0x7F]).
Proof.
  apply (leading_data_bytes_are_skipped (bridging false false) (λ n, n)
           (replicate BUF_SIZE 0) [0x40; 0x7F] 0x90 [0x41; 0x7F]).
  - reflexivity.
  - vm_compute. lia.
  - repeat apply Forall_cons_2; try apply Forall_nil_2; unfold data_byte; lia.
  - unfold status_byte. lia.
Defined.

Lemma running_status_is_not_honoured_witness :
  sink_events (read_midi_from_serial_port (bridging false false) (λ n, n)
                 (replicate BUF_SIZE 0) (0xF8 :: [0x90; 0x40; 0x7F] ++ [0x41; 0x7F])).2
  = [parse_midi_command [0x90; 0x40; 0x7F] 3].
Proof.
  apply (running_status_is_not_honoured false false (λ n, n) (replicate BUF_SIZE 0)
           0xF8 0x90 0x40 0x7F [0x41; 0x7F]).
  - reflexivity.
  - unfold status_byte. lia.
  - unfold channel_status. lia.
  - vm_compute. lia.
  - unfold data_byte. lia.
  - unfold data_byte. lia.
  - repeat apply Forall_cons_2; try apply Forall_nil_2; unfold data_byte; lia.
Defined.

Lemma channel_voice_events_carry_data_bytes_witness :
  Forall event_data_ok
    (sink_events (read_midi_from_serial_port (bridging false false) (λ n, n)
                    (replicate BUF_SIZE 0)
                    [0xF8; 0x90; 0x40; 0xC0; 0x05; 0xB0; 0x07; 0x64]).2).
Proof.
  apply (channel_voice_events_carry_data_bytes (bridging false false) (λ n, n)
           (replicate BUF_SIZE 0) [0xF8; 0x90; 0x40; 0xC0; 0x05; 0xB0; 0x07; 0x64]).
  reflexivity.
Defined.


Lemma sysex_inside_channel_frame_is_split_witness :
  sink_events (read_midi_from_serial_port (bridging false false) (λ n, n)
                 (replicate BUF_SIZE 0)
                 (0xF8 :: 0x90 :: 0xF0 :: 0x01 :: 0x02 :: [0x03; 0x04] ++ [0xF7])).2
  = [sysex_event [0xF0; 0x01; 0x02]; sysex_event (0xF0 :: [0x03; 0x04] ++ [0xF7])].
Proof.
  apply (sysex_inside_channel_frame_is_split false false (λ n, n)
           (replicate BUF_SIZE 0) 0xF8 0x90 0x01 0x02 [0x03; 0x04]).
  - reflexivity.
  - unfold status_byte. lia.
  - unfold channel_status. lia.
  - unfold data_byte. lia.
  - unfold data_byte. lia.
  - repeat apply Forall_cons_2; try apply Forall_nil_2; unfold data_byte; lia.
  - vm_compute. lia.
Defined.


Lemma undefined_status_byte_sends_an_empty_event_witness :
  sink_events (read_midi_from_serial_port (bridging false false) (λ n, n)
                 (replicate BUF_SIZE 0) ([0x90] ++ [0xF9])).2
  = sink_events (read_midi_from_serial_port (bridging false false) (λ n, n)
                   (replicate BUF_SIZE 0) [0x90]).2
    ++ [snd_seq_ev_clear].
Proof.
  apply (undefined_status_byte_sends_an_empty_event (bridging false false) (λ n, n)
           (replicate BUF_SIZE 0) [0x90] 1 (BUF_SIZE - 1) 0xF9).
  - reflexivity.
  - reflexivity.
  - lia.
Defined.

Lemma round_trip_but_song_position_witness :
  ∃ wire, encode (replicate 256 0) (note_event SND_SEQ_EVENT_NOTEON 3 0x40 0x7F)
          = Some wire
        ∧ decode wire [] = note_event SND_SEQ_EVENT_NOTEON 3 0x40 0x7F.
Proof.
  apply (round_trip_but_song_position (note_event SND_SEQ_EVENT_NOTEON 3 0x40 0x7F)
           (replicate 256 0) []).
  - apply range_note; [right; left; reflexivity|lia|unfold data_byte; lia
                      |unfold data_byte; lia].
  - reflexivity.
Defined.

Lemma writes_without_sysex_are_short_witness :
  ∃ outs, write_midi_action_to_serial_port (replicate 256 0)
            (note_event SND_SEQ_EVENT_NOTEON 3 0x40 0x7F)
            [plain_event SND_SEQ_EVENT_CLOCK]
          = Some outs
        ∧ length outs = 2%nat
        ∧ Forall (λ out, (length out ≤ 3)%nat ∧ Forall data_byte (tail out)) outs.
Proof.
  apply (writes_without_sysex_are_short (replicate 256 0)
           (note_event SND_SEQ_EVENT_NOTEON 3 0x40 0x7F)
           [plain_event SND_SEQ_EVENT_CLOCK]).
  repeat apply Forall_cons_2; try apply Forall_nil_2; simpl; discriminate.
Defined.

Lemma unhandled_event_resends_the_previous_frame_witness :
  write_midi_action_to_serial_port (replicate 256 0)
    (plain_event SND_SEQ_EVENT_OTHER) [] = Some [[]]
  ∧ write_midi_action_to_serial_port (replicate 256 0)
      (note_event SND_SEQ_EVENT_NOTEON 3 0x40 0x7F) [plain_event SND_SEQ_EVENT_OTHER]
    = Some [[0x93; 0x40; 0x7F]; [0x93; 0x40; 0x7F]].
Proof.
  apply (unhandled_event_resends_the_previous_frame (replicate 256 0)
           (note_event SND_SEQ_EVENT_NOTEON 3 0x40 0x7F) 0x90 0x40 0x7F
           (plain_event SND_SEQ_EVENT_OTHER)).
  - reflexivity.
  - simpl. lia.
  - unfold data_byte. lia.
  - unfold data_byte. lia.
  - right. reflexivity.
Defined.

Lemma data_less_event_is_written_with_a_zero_witness :
  write_midi_action_to_serial_port (replicate 256 0)
    (plain_event SND_SEQ_EVENT_CLOCK) [] = Some [[0xF8; 0x00]]
  ∧ write_midi_action_to_serial_port (replicate 256 0)
      (note_event SND_SEQ_EVENT_NOTEON 3 0x40 0x7F) [plain_event SND_SEQ_EVENT_CLOCK]
    = Some [[0x93; 0x40; 0x7F]; [0xF8]].
Proof.
  apply (data_less_event_is_written_with_a_zero (replicate 256 0)
           (plain_event SND_SEQ_EVENT_CLOCK) 0xF8
           (note_event SND_SEQ_EVENT_NOTEON 3 0x40 0x7F) 0x90 0x40 0x7F).
  - reflexivity.
  - reflexivity.
  - simpl. lia.
  - unfold data_byte. lia.
  - unfold data_byte. lia.
Defined.

Lemma written_frame_is_read_back_witness :
  ∃ wire, encode (replicate 256 0) (control_event SND_SEQ_EVENT_PGMCHANGE 2 0 0x05)
          = Some wire
        ∧ sink_events (run (bridging false false) (λ n, n)
                         (loop_top (replicate BUF_SIZE 0)) wire).2
          = [control_event SND_SEQ_EVENT_PGMCHANGE 2 0 0x05].
Proof.
  apply (written_frame_is_read_back false false (λ n, n) (replicate 256 0)
           (replicate BUF_SIZE 0) (control_event SND_SEQ_EVENT_PGMCHANGE 2 0 0x05)).
  - apply range_one_data; [left; reflexivity|lia|unfold data_byte; lia].
  - simpl. discriminate.
  - simpl. discriminate.
  - reflexivity.
  - reflexivity.
Defined.

Lemma events_one_per_wake_up_are_written_apart_witness :
  ∃ wires,
    read_midi_from_alsa
      [Ready (replicate 256 0) (note_event SND_SEQ_EVENT_NOTEON 3 0x40 0x7F) [];
       Timeout;
       Ready (replicate 256 0) (control_event SND_SEQ_EVENT_PGMCHANGE 2 0 0x05) []]
    = Some wires
    ∧ Forall2 (λ wire ev, decode wire [] = ev) wires
        ([Ready (replicate 256 0) (note_event SND_SEQ_EVENT_NOTEON 3 0x40 0x7F) [];
          Timeout;
          Ready (replicate 256 0) (control_event SND_SEQ_EVENT_PGMCHANGE 2 0 0x05) []]
         ≫= queued).
Proof.
  apply (events_one_per_wake_up_are_written_apart
           [Ready (replicate 256 0) (note_event SND_SEQ_EVENT_NOTEON 3 0x40 0x7F) [];
            Timeout;
            Ready (replicate 256 0) (control_event SND_SEQ_EVENT_PGMCHANGE 2 0 0x05) []]
           []).
  repeat apply Forall_cons_2; try apply Forall_nil_2.
  - split; [reflexivity|]. split; [|reflexivity].
    apply range_note; [right; left; reflexivity|lia|unfold data_byte; lia
                      |unfold data_byte; lia].
  - exact I.
  - split; [reflexivity|]. split; [|reflexivity].
    apply range_one_data; [left; reflexivity|lia|unfold data_byte; lia].
Defined.

Lemma names_from_the_command_line_witness :
  let a := ProgramArguments (Arguments false false false) (replicate 32 0x55) B9600
             (replicate 32 0x55) in
  let arg := [0x2F; 0x64; 0x65; 0x76; 0x2F; 0x74; 0x74; 0x79; 0x53; 0x30] in
  let d := arg_set_defaults a in
  let stored := if decide (length arg < MAX_DEV_STR_LEN)%nat then Some arg else None in
  c_string (serialdevice d) = Some serialdevice_temp
  ∧ c_string (name d) = Some name_tmp
  ∧ (∃ a', parse_opt (λ _, 0) 0x73 (Some arg) d = Returns 0 a'
           ∧ c_string (serialdevice a') = stored ∧ name a' = name d)
  ∧ (∃ a', parse_opt (λ _, 0) 0x6E (Some arg) d = Returns 0 a'
           ∧ c_string (name a') = stored ∧ serialdevice a' = serialdevice d).
Proof.
  apply (names_from_the_command_line (λ _, 0)
           (ProgramArguments (Arguments false false false) (replicate 32 0x55) B9600
              (replicate 32 0x55))
           [0x2F; 0x64; 0x65; 0x76; 0x2F; 0x74; 0x74; 0x79; 0x53; 0x30]).
  - reflexivity.
  - reflexivity.
  - repeat apply Forall_cons_2; try apply Forall_nil_2; lia.
Defined.

Lemma sysex_block_is_written_again_for_later_events_witness :
  write_midi_action_to_serial_port (replicate 256 0)
    (sysex_event [0xF0; 0x01; 0xF7])
    [note_event SND_SEQ_EVENT_NOTEON 3 0x40 0x7F; plain_event SND_SEQ_EVENT_CLOCK]
  = Some (replicate 3 ((λ v, Z.land v 0xFF) <$> [0xF0; 0x01; 0xF7])).
Proof.
  apply (sysex_block_is_written_again_for_later_events (replicate 256 0)
           (sysex_event [0xF0; 0x01; 0xF7])
           [note_event SND_SEQ_EVENT_NOTEON 3 0x40 0x7F;
            plain_event SND_SEQ_EVENT_CLOCK]).
  - reflexivity.
  - reflexivity.
  - simpl. lia.
  - repeat apply Forall_cons_2; try apply Forall_nil_2; simpl; discriminate.
Defined.

Lemma quiet_and_verbose_change_nothing_sent_witness :
  (read_midi_from_serial_port (bridging true false) (λ n, n) (replicate BUF_SIZE 0)
     [0x90; 0x00; 0x00; 0xFF; 0x01; 0x68; 0x90; 0x40; 0x7F]).1
  = (read_midi_from_serial_port (bridging false true) (λ n, n) (replicate BUF_SIZE 0)
       [0x90; 0x00; 0x00; 0xFF; 0x01; 0x68; 0x90; 0x40; 0x7F]).1
  ∧ sink_events
      (read_midi_from_serial_port (bridging true false) (λ n, n) (replicate BUF_SIZE 0)
         [0x90; 0x00; 0x00; 0xFF; 0x01; 0x68; 0x90; 0x40; 0x7F]).2
    = sink_events
        (read_midi_from_serial_port (bridging false true) (λ n, n)
           (replicate BUF_SIZE 0)
           [0x90; 0x00; 0x00; 0xFF; 0x01; 0x68; 0x90; 0x40; 0x7F]).2.
Proof.
  apply (quiet_and_verbose_change_nothing_sent (bridging true false)
           (bridging false true) (λ n, n) (replicate BUF_SIZE 0)
           [0x90; 0x00; 0x00; 0xFF; 0x01; 0x68; 0x90; 0x40; 0x7F]).
  reflexivity.
Defined.

Lemma sysex_events_are_well_formed_witness :
  Forall sysex_event_ok
    (sink_events (read_midi_from_serial_port (bridging false false) (λ n, n)
                    (replicate BUF_SIZE 0)
                    [0xF0; 0x01; 0x02; 0xF7; 0x90; 0xF0; 0x03; 0x04; 0x05; 0xF7]).2).
Proof.
  apply (sysex_events_are_well_formed (bridging false false) (λ n, n)
           (replicate BUF_SIZE 0)
           [0xF0; 0x01; 0x02; 0xF7; 0x90; 0xF0; 0x03; 0x04; 0x05; 0xF7]).
  reflexivity.
Defined.

(** * The claims that depend on what came before, at concrete inputs *)


(** C9, against the claim as stated.  A note-on with velocity 0xFF read
    after a sysex event in the same call is not written as two bytes:
    the sysex block is written again. *)
Lemma note_on_FF_after_sysex_writes_the_block :
  write_midi_action_to_serial_port (replicate 256 0)
    (sysex_event [0xF0; 0x01; 0xF7]) [note_event SND_SEQ_EVENT_NOTEON 3 0x40 0xFF]
  = Some [[0xF0; 0x01; 0xF7]; [0xF0; 0x01; 0xF7]].
Proof. vm_compute. reflexivity. Qed.

(** C10, against the claim as stated.  A sysex block of 1024 bytes,
    0xF0 and 0xF7 counted, does not reach the sink whole: the sink gets
    the [BUF_SIZE - 1] bytes collected when the buffer was full, and the
    0xF7 in a second event. *)
Lemma sysex_frame_of_1024_bytes_is_split :
  sink_events (read_midi_from_serial_port (bridging false false) (λ n, n)
                 (replicate BUF_SIZE 0)
                 (0xF0 :: replicate 1022 0x01 ++ [0xF7])).2
    = [sysex_event (0xF0 :: replicate 1022 0x01); sysex_event [0xF0; 0xF7]].
Proof. vm_compute. reflexivity. Qed.



Lemma second_data_FF_shortens_frame_witness :
  drop 1 <$> write_midi_action_to_serial_port (replicate 256 0)
               (control_event SND_SEQ_EVENT_PGMCHANGE 0 0 0x05)
               [note_event SND_SEQ_EVENT_NOTEON 3 0x40 0xFF]
  = Some [[0x93; 0x40]]
  ∧ drop 1 <$> write_midi_action_to_serial_port (replicate 256 0)
                 (control_event SND_SEQ_EVENT_PGMCHANGE 0 0 0x05)
                 [note_event SND_SEQ_EVENT_NOTEON 3 0x40 0x7F]
    = Some [[0x93; 0x40; 0x7F]].
Proof.
  split.
  - apply (second_data_FF_shortens_frame (replicate 256 0)
             (control_event SND_SEQ_EVENT_PGMCHANGE 0 0 0x05)
             [note_event SND_SEQ_EVENT_NOTEON 3 0x40 0xFF]
             [control_event SND_SEQ_EVENT_PGMCHANGE 0 0 0x05]
             (note_event SND_SEQ_EVENT_NOTEON 3 0x40 0xFF) 0x90 0x40 0xFF).
    + reflexivity.
    + repeat apply Forall_cons_2; try apply Forall_nil_2; simpl; discriminate.
    + reflexivity.
    + simpl. lia.
    + reflexivity.
  - apply (second_data_FF_shortens_frame (replicate 256 0)
             (control_event SND_SEQ_EVENT_PGMCHANGE 0 0 0x05)
             [note_event SND_SEQ_EVENT_NOTEON 3 0x40 0x7F]
             [control_event SND_SEQ_EVENT_PGMCHANGE 0 0 0x05]
             (note_event SND_SEQ_EVENT_NOTEON 3 0x40 0x7F) 0x90 0x40 0x7F).
    + reflexivity.
    + repeat apply Forall_cons_2; try apply Forall_nil_2; simpl; discriminate.
    + reflexivity.
    + simpl. lia.
    + vm_compute. discriminate.
Defined.

Lemma sysex_size_bounds_witness :
  (is_Some (write_midi_action_to_serial_port (replicate 256 0)
              (note_event SND_SEQ_EVENT_NOTEON 3 0x40 0x7F)
              [sysex_event [0xF0; 0x01; 0xF7]])
   ↔ (length (ext (sysex_event [0xF0%Z; 0x01%Z; 0xF7%Z])) ≤ 256)%nat)
  ∧ ((0 < length (ext (sysex_event [0xF0%Z; 0x01%Z; 0xF7%Z])) ≤ 256)%nat →
     drop 1 <$> write_midi_action_to_serial_port (replicate 256 0)
                  (note_event SND_SEQ_EVENT_NOTEON 3 0x40 0x7F)
                  [sysex_event [0xF0; 0x01; 0xF7]]
     = Some [(λ v, Z.land v 0xFF) <$> ext (sysex_event [0xF0; 0x01; 0xF7])])
  ∧ sink_events (read_midi_from_serial_port (bridging false false) (λ n, n)
                   (replicate BUF_SIZE 0)
                   ([0xF8; 0x90; 0x40; 0x7F] ++ 0xF0 :: replicate 1021 0x01 ++ [0xF7])).2
    = sink_events (read_midi_from_serial_port (bridging false false) (λ n, n)
                     (replicate BUF_SIZE 0) [0xF8; 0x90; 0x40; 0x7F]).2
      ++ [sysex_event (0xF0 :: replicate 1021 0x01 ++ [0xF7])].
Proof.
  apply (sysex_size_bounds (bridging false false) (λ n, n) (replicate 256 0)
           (note_event SND_SEQ_EVENT_NOTEON 3 0x40 0x7F)
           [sysex_event [0xF0; 0x01; 0xF7]]
           [note_event SND_SEQ_EVENT_NOTEON 3 0x40 0x7F]
           (sysex_event [0xF0; 0x01; 0xF7])
           (replicate BUF_SIZE 0) [0xF8; 0x90; 0x40; 0x7F] (replicate 1021 0x01)).
  - reflexivity.
  - repeat apply Forall_cons_2; try apply Forall_nil_2; simpl; discriminate.
  - reflexivity.
  - reflexivity.
  - reflexivity.
  - right. exists 1%nat. reflexivity.
  - apply Forall_replicate. unfold data_byte. lia.
  - vm_compute. lia.
Defined.
